(** * UrbanTrack server: rider telemetry and gamification engine

    A shallow embedding of [server/index.js]: the position handler
    [handlePosition] and the three scoring helpers it calls
    ([awardPointsPerKm], [checkAndAwardBadges], [updateChallengesForRider]),
    together with the part of the JavaScript [Date] built-in they rely on;
    then the seeding of the default challenges, the login route, the
    leaderboard route and the handler of socket messages; and the engine
    once more on numbers that are not finite ([NonFinite]).

    Modelling conventions.
    - JavaScript numbers that carry distances and coordinates are exact
      rationals ([Q]); counters, scores and millisecond timestamps are
      integers ([Z]).  Rounding of doubles is not modelled: a statement
      about a computed number names the operations of the code that compute
      it, in their order.  Coordinates are finite,
      except in the module [NonFinite], where a coordinate may be infinite
      and a computed double may be NaN.
    - [haversineMeters] is trigonometric; it is a parameter of the engine.
    - The host's local time zone (used by [getDay], [getDate], [setDate]) is
      a fixed offset [tz] in milliseconds, a parameter of the engine.
    - [DATA.riders] is a finite map from rider id to rider record;
      [DATA.challenges] is the list of its entries in [Object.entries] order.
    - Property names are taken outside the names that every object inherits
      from [Object.prototype] ([inheritedKeys]): for those a lookup in a
      JavaScript object is not a lookup in a finite map.
    - Strings are sequences of bytes; [trim] and [toLowerCase] are parameters
      of the login route, and [Array.prototype.sort] is the stable sort.
    - A JavaScript exception is an explicit outcome ([Throw]); whatever was
      mutated before the exception stays mutated.
    - Numeric and array properties that the login route always creates
      ([distance], [score], [badges], [history], [challenges]) are always
      present, so that [x || 0] and [x || []] are [x]; the two properties it
      does not create ([suspicious], [updatedAt]) are optional.

    The first part holds the definitions: built-ins, data model, the engine,
    the notions the statements use and the examples.  The second part holds
    the properties. *)

From Stdlib Require Import ZArith QArith Qabs Qround Lqa Lia Bool List Sorted.
From stdpp Require Import gmap strings list pretty.
Import ListNotations.

Open Scope Z_scope.

(** ** JavaScript numbers *)

Module JSNum.

(** [Math.floor] on a rational. *)
Definition floor (x : Q) : Z := Qfloor x.

(** [Math.round]: the nearest integer, ties towards plus infinity. *)
Definition round (x : Q) : Z := Qfloor (x + (1 # 2))%Q.

(** [x < y], [x > y], [x >= y] on rationals, as booleans. *)
Definition ltb (x y : Q) : bool := negb (Qle_bool y x).
Definition gtb (x y : Q) : bool := ltb y x.
Definition geb (x y : Q) : bool := Qle_bool y x.

End JSNum.

(** ** The [Date] built-in

    Time values are milliseconds since the epoch, UTC.  A [Date] object holds
    a time value or is invalid (NaN).  The calendar functions follow the
    ECMAScript definitions of [Day], [YearFromTime], [MonthFromTime],
    [DateFromTime], [WeekDay], [MakeDay], [MakeDate] and [TimeClip]; the
    proleptic Gregorian year, month and day of a day number are computed era
    by era (400-year cycles of 146097 days starting on 1 March). *)

Module JSDate.

Definition msPerDay : Z := 86400000.
Definition maxTime : Z := 8640000000000000.

(** A [Date] object: [Some t] for a valid time value, [None] for NaN. *)
Definition Date : Type := option Z.

Definition TimeClip (t : Z) : Date :=
  if Z.abs t <=? maxTime then Some t else None.

(** [new Date(v)] for a numeric [v]. *)
Definition newDate (v : Z) : Date := TimeClip v.

Definition Day (t : Z) : Z := t / msPerDay.
Definition TimeWithinDay (t : Z) : Z := t mod msPerDay.

(** Sunday is 0; 1 January 1970 was a Thursday. *)
Definition WeekDay (t : Z) : Z := (Day t + 4) mod 7.

(** Within one era, the day of era [doe] (0..146096) determines the year of
    era (0..399, years starting on 1 March), the month (1..12) and the day
    of month (1..31). *)
Definition eraDate (doe : Z) : Z * Z * Z :=
  let yoe := (doe - doe / 1460 + doe / 36524 - doe / 146096) / 365 in
  let doy := doe - (365 * yoe + yoe / 4 - yoe / 100) in
  let mp := (5 * doy + 2) / 153 in
  let d := doy - (153 * mp + 2) / 5 + 1 in
  let m := if mp <? 10 then mp + 3 else mp - 9 in
  (yoe, m, d).

(** The day of era of a year of era, month and day of month. *)
Definition eraDay (yoe m d : Z) : Z :=
  let mp := if 2 <? m then m - 3 else m + 9 in
  let doy := (153 * mp + 2) / 5 + d - 1 in
  yoe * 365 + yoe / 4 - yoe / 100 + doy.

(** Year, month (1..12) and day of month (1..31) of a day number. *)
Definition civil (day : Z) : Z * Z * Z :=
  let z := day + 719468 in
  let '(yoe, m, d) := eraDate (z mod 146097) in
  (yoe + (z / 146097) * 400 + (if m <=? 2 then 1 else 0), m, d).

(** Day number of a year, month (1..12) and day of month; the day of month
    may lie outside the month, as in [MakeDay]. *)
Definition dayNumber (y m d : Z) : Z :=
  let y' := y - (if m <=? 2 then 1 else 0) in
  (y' / 400) * 146097 + eraDay (y' mod 400) m d - 719468.

Definition YearFromTime (t : Z) : Z := fst (fst (civil (Day t))).
Definition MonthFromTime (t : Z) : Z := snd (fst (civil (Day t))).
Definition DateFromTime (t : Z) : Z := snd (civil (Day t)).

Definition MakeDate (day time : Z) : Z := day * msPerDay + time.

Section Local.

(** Offset of the host's local time from UTC, in milliseconds. *)
Variable tz : Z.

Definition LocalTime (t : Z) : Z := t + tz.
Definition UTC (t : Z) : Z := t - tz.

(** [d.getDay()] and [d.getDate()]: local time; [None] stands for NaN. *)
Definition getDay (d : Date) : option Z :=
  match d with Some t => Some (WeekDay (LocalTime t)) | None => None end.

Definition getDate (d : Date) : option Z :=
  match d with Some t => Some (DateFromTime (LocalTime t)) | None => None end.

(** [d.setDate(dt)]: replaces the local day of month, keeping the local time
    of day; a NaN argument or an invalid receiver gives an invalid date. *)
Definition setDate (d : Date) (dt : option Z) : Date :=
  match d, dt with
  | Some t, Some n =>
      let lt := LocalTime t in
      let day := dayNumber (YearFromTime lt) (MonthFromTime lt) n in
      TimeClip (UTC (MakeDate day (TimeWithinDay lt)))
  | _, _ => None
  end.

End Local.

(** Decimal digits, zero padded to [k] places (low [k] digits). *)
Definition digit (n : Z) : Ascii.ascii :=
  Ascii.ascii_of_nat (48 + Z.to_nat (n mod 10)).

Fixpoint pad (k : nat) (n : Z) : string :=
  match k with
  | O => EmptyString
  | S k' => pad k' (n / 10) +:+ String (digit n) EmptyString
  end.

(** Years 0 to 9999 print with four digits; any other year with a sign
    and six digits. *)
Definition isoYear (y : Z) : string :=
  if (0 <=? y) && (y <=? 9999) then pad 4 y
  else (if y <? 0 then "-" else "+") +:+ pad 6 (Z.abs y).

(** The text of [toISOString] for a valid time value. *)
Definition isoString (t : Z) : string :=
  let '(y, m, d) := civil (Day t) in
  let w := TimeWithinDay t in
  isoYear y +:+ "-" +:+ pad 2 m +:+ "-" +:+ pad 2 d +:+ "T" +:+
  pad 2 (w / 3600000) +:+ ":" +:+ pad 2 (w / 60000 mod 60) +:+ ":" +:+
  pad 2 (w / 1000 mod 60) +:+ "." +:+ pad 3 (w mod 1000) +:+ "Z".

End JSDate.

(** ** Outcomes of code that may throw *)

Inductive completion (A : Type) : Type :=
| Return (a : A)
| Throw (e : string).
Arguments Return {A} a.
Arguments Throw {A} e.

Definition RangeError : string := "RangeError: Invalid time value".

(** [d.toISOString()] throws a [RangeError] on an invalid date. *)
Definition toISOString (d : JSDate.Date) : completion string :=
  match d with
  | Some t => Return (JSDate.isoString t)
  | None => Throw RangeError
  end.

(** [s.slice(0,10)]. *)
Definition slice_0_10 (s : string) : string := String.substring 0 10 s.

(** ** Data model

    Field names follow the JavaScript objects.  A rider as created by the
    login route has no [suspicious] and no [updatedAt] property; both are
    optional here.  [createdAt] and [visible] are never read or written by
    the engine and are left out. *)

Record Position : Type := { lat : Q; lon : Q }.

Record LastFix : Type := { last_lat : Q; last_lon : Q; last_ts : Z }.

Record HistoryEntry : Type :=
  { h_lat : Q; h_lon : Q; h_ts : Z; h_meters : Z }.

Record Progress : Type :=
  { progressMeters : Q;
    lastReset : option string;
    completed : bool;
    completedAt : option Z }.

Record Challenge : Type :=
  { chal_id : string; chal_name : string; period : string; targetMeters : Q }.

Record Rider : Type :=
  { rider_id : string;
    rider_name : string;
    rider_last : option LastFix;
    rider_history : list HistoryEntry;
    rider_distance : Q;
    rider_score : Z;
    rider_badges : list string;
    rider_challenges : gmap string Progress;
    rider_suspicious : option Z;
    rider_updatedAt : option Z }.

(** The in-memory [DATA] object (the [users] table plays no part here). *)
Record Data : Type :=
  { riders : gmap string Rider;
    challenges : list (string * Challenge) }.

(** Property assignments on a rider object. *)
Definition set_last (v : option LastFix) (r : Rider) : Rider :=
  {| rider_id := rider_id r; rider_name := rider_name r; rider_last := v;
     rider_history := rider_history r; rider_distance := rider_distance r;
     rider_score := rider_score r; rider_badges := rider_badges r;
     rider_challenges := rider_challenges r;
     rider_suspicious := rider_suspicious r;
     rider_updatedAt := rider_updatedAt r |}.

Definition set_history (v : list HistoryEntry) (r : Rider) : Rider :=
  {| rider_id := rider_id r; rider_name := rider_name r;
     rider_last := rider_last r; rider_history := v;
     rider_distance := rider_distance r; rider_score := rider_score r;
     rider_badges := rider_badges r;
     rider_challenges := rider_challenges r;
     rider_suspicious := rider_suspicious r;
     rider_updatedAt := rider_updatedAt r |}.

Definition set_distance (v : Q) (r : Rider) : Rider :=
  {| rider_id := rider_id r; rider_name := rider_name r;
     rider_last := rider_last r; rider_history := rider_history r;
     rider_distance := v; rider_score := rider_score r;
     rider_badges := rider_badges r;
     rider_challenges := rider_challenges r;
     rider_suspicious := rider_suspicious r;
     rider_updatedAt := rider_updatedAt r |}.

Definition set_score (v : Z) (r : Rider) : Rider :=
  {| rider_id := rider_id r; rider_name := rider_name r;
     rider_last := rider_last r; rider_history := rider_history r;
     rider_distance := rider_distance r; rider_score := v;
     rider_badges := rider_badges r;
     rider_challenges := rider_challenges r;
     rider_suspicious := rider_suspicious r;
     rider_updatedAt := rider_updatedAt r |}.

Definition set_badges (v : list string) (r : Rider) : Rider :=
  {| rider_id := rider_id r; rider_name := rider_name r;
     rider_last := rider_last r; rider_history := rider_history r;
     rider_distance := rider_distance r; rider_score := rider_score r;
     rider_badges := v; rider_challenges := rider_challenges r;
     rider_suspicious := rider_suspicious r;
     rider_updatedAt := rider_updatedAt r |}.

Definition set_challenges (v : gmap string Progress) (r : Rider) : Rider :=
  {| rider_id := rider_id r; rider_name := rider_name r;
     rider_last := rider_last r; rider_history := rider_history r;
     rider_distance := rider_distance r; rider_score := rider_score r;
     rider_badges := rider_badges r; rider_challenges := v;
     rider_suspicious := rider_suspicious r;
     rider_updatedAt := rider_updatedAt r |}.

Definition set_suspicious (v : option Z) (r : Rider) : Rider :=
  {| rider_id := rider_id r; rider_name := rider_name r;
     rider_last := rider_last r; rider_history := rider_history r;
     rider_distance := rider_distance r; rider_score := rider_score r;
     rider_badges := rider_badges r;
     rider_challenges := rider_challenges r;
     rider_suspicious := v; rider_updatedAt := rider_updatedAt r |}.

Definition set_updatedAt (v : option Z) (r : Rider) : Rider :=
  {| rider_id := rider_id r; rider_name := rider_name r;
     rider_last := rider_last r; rider_history := rider_history r;
     rider_distance := rider_distance r; rider_score := rider_score r;
     rider_badges := rider_badges r;
     rider_challenges := rider_challenges r;
     rider_suspicious := rider_suspicious r; rider_updatedAt := v |}.

Definition set_riders (v : gmap string Rider) (D : Data) : Data :=
  {| riders := v; challenges := challenges D |}.

(** Property assignments on a progress object. *)
Definition resetProgress (key : string) (p : Progress) : Progress :=
  {| progressMeters := 0; lastReset := Some key; completed := false;
     completedAt := completedAt p |}.

Definition addProgress (d : Q) (p : Progress) : Progress :=
  {| progressMeters := (progressMeters p + d)%Q; lastReset := lastReset p;
     completed := completed p; completedAt := completedAt p |}.

Definition markCompleted (at_ms : Z) (p : Progress) : Progress :=
  {| progressMeters := progressMeters p; lastReset := lastReset p;
     completed := true; completedAt := Some at_ms |}.

(** [{ progressMeters:0, lastReset:null, completed:false }] *)
Definition freshProgress : Progress :=
  {| progressMeters := 0; lastReset := None; completed := false;
     completedAt := None |}.

(** ** Messages *)

(** An entry of [newBadges]: [{ id, label }]. *)
Record BadgeEvent : Type := { badge_id : string; badge_label : string }.

(** An entry of [challengeEvents]; its [type] is always
    ['challenge_completed']. *)
Record ChallengeEvent : Type :=
  { challengeId : string; riderId : string; bonusPoints : Z }.

(** What [broadcastJSON] is called with. *)
Inductive Message : Type :=
| rider_update (id name : string) (mlat mlon : Q) (distance score : Z)
| game_event (id name : string) (kmsGained pointsGained : Z)
    (newBadges : list BadgeEvent) (challengeEvents : list ChallengeEvent).

(** The value returned by [handlePosition]. *)
Inductive Ack : Type :=
| rejected (reason : string)
| accepted (id : string).

(** A decoded position payload (the handler is always called with an
    object); a property that is absent, or is not of the expected type, is
    [None]. *)
Record Payload : Type :=
  { p_id : option string; p_lat : option Q; p_lon : option Q;
    p_ts : option Z }.

(** The readings of [Date.now()] during one call of [handlePosition], by
    call site. *)
Record Clock : Type :=
  { at_receive : Z;              (* const now = Date.now()          *)
    at_challenges : Z;           (* new Date(ts||Date.now())        *)
    at_completed : string -> Z;  (* prog.completedAt = Date.now()   *)
    at_commit : Z }.             (* rider.updatedAt = Date.now()    *)

(** ** Constants *)

Definition MAX_SPEED_KMH : Q := 140.
Definition POINTS_PER_KM : Z := 10.
Definition BADGE_MILESTONES_METERS : list Z :=
  [1000; 5000; 10000; 25000; 50000; 100000].

(** The two challenges seeded at start-up. *)
Definition daily_1km : Challenge :=
  {| chal_id := "daily_1km"; chal_name := "1 km par jour";
     period := "daily"; targetMeters := 1000 |}.

Definition weekly_5km : Challenge :=
  {| chal_id := "weekly_5km"; chal_name := "5 km par semaine";
     period := "weekly"; targetMeters := 5000 |}.

Definition defaultChallenges : list (string * Challenge) :=
  [("daily_1km"%string, daily_1km); ("weekly_5km"%string, weekly_5km)].

(** ** Scoring *)

(** [arr.includes(s)] on an array of strings. *)
Definition includes (l : list string) (s : string) : bool :=
  existsb (String.eqb s) l.

Definition badgeIdOf (m : Z) : string := "badge_" +:+ pretty m.

(** The label [(m/1000)+' km']; every milestone is a multiple of 1000. *)
Definition badgeLabelOf (m : Z) : string := pretty (m / 1000) +:+ " km".

(** One iteration of the milestone loop of [checkAndAwardBadges]. *)
Definition badgeStep (prevDistance newDistance : Q)
    (st : Rider * list BadgeEvent) (m : Z) : Rider * list BadgeEvent :=
  let '(rider, newly) := st in
  if JSNum.ltb prevDistance (inject_Z m) && JSNum.geb newDistance (inject_Z m)
  then
    let badgeId := badgeIdOf m in
    if includes (rider_badges rider) badgeId then (rider, newly)
    else (set_badges (rider_badges rider ++ [badgeId]) rider,
          newly ++ [{| badge_id := badgeId; badge_label := badgeLabelOf m |}])
  else (rider, newly).

Definition checkAndAwardBadges (rider : Rider) (prevDistance newDistance : Q)
    : Rider * list BadgeEvent :=
  fold_left (badgeStep prevDistance newDistance) BADGE_MILESTONES_METERS
            (rider, []).

Record Award : Type := { kmsGained : Z; pointsGained : Z }.

Definition awardPointsPerKm (rider : Rider) (prevDistance newDistance : Q)
    : Rider * Award :=
  let prevKm := JSNum.floor (prevDistance / 1000) in
  let newKm := JSNum.floor (newDistance / 1000) in
  let kms := Z.max 0 (newKm - prevKm) in
  let points := kms * POINTS_PER_KM in
  (if points =? 0 then rider
   else set_score (rider_score rider + points) rider,
   {| kmsGained := kms; pointsGained := points |}).

(** ** Challenges and the position handler *)

Section Engine.

(** Great-circle distance in metres between two coordinates. *)
Variable haversineMeters : Position -> Position -> Q.

(** Offset of the host's local time from UTC, in milliseconds. *)
Variable tz : Z.

(** The key of the window that [now] falls in, for a challenge of the given
    period: [Some key] when the period is ['daily'] or ['weekly'], [None]
    for any other period (the code then compares nothing). *)
Definition windowKey (per : string) (now : JSDate.Date)
    : completion (option string) :=
  if String.eqb per "daily" then
    match toISOString now with
    | Return s => Return (Some (slice_0_10 s))
    | Throw e => Throw e
    end
  else if String.eqb per "weekly" then
    let start := now in
    let day := JSDate.getDay tz start in
    let diff := (fun d => (d + 6) mod 7) <$> day in
    let start :=
      JSDate.setDate tz start
        (match JSDate.getDate tz now, diff with
         | Some a, Some b => Some (a - b)
         | _, _ => None
         end) in
    match toISOString start with
    | Return s => Return (Some (slice_0_10 s))
    | Throw e => Throw e
    end
  else Return None.

(** [if (prog.lastReset !== key) { ...reset... }] *)
Definition rollover (key : option string) (prog : Progress) : Progress :=
  match key with
  | Some k =>
      if bool_decide (lastReset prog = Some k) then prog
      else resetProgress k prog
  | None => prog
  end.

Definition bonusOf (chal : Challenge) : Z :=
  JSNum.floor (targetMeters chal / 1000) * 5.

(** One iteration of the loop of [updateChallengesForRider] over
    [Object.entries(DATA.challenges)]. *)
Definition challengeStep (clk : Clock) (addedMeters : Q)
    (now : JSDate.Date) (cid : string) (chal : Challenge) (rider : Rider)
    : Rider * completion (list ChallengeEvent) :=
  let prog0 := default freshProgress (rider_challenges rider !! cid) in
  let rider := set_challenges (<[cid := prog0]> (rider_challenges rider))
                              rider in
  match windowKey (period chal) now with
  | Throw e => (rider, Throw e)
  | Return key =>
      let prog := rollover key prog0 in
      if completed prog then
        (set_challenges (<[cid := prog]> (rider_challenges rider)) rider,
         Return [])
      else
        let prog := addProgress addedMeters prog in
        if JSNum.geb (progressMeters prog) (targetMeters chal) then
          let prog := markCompleted (at_completed clk cid) prog in
          let bonus := bonusOf chal in
          let rider :=
            set_challenges (<[cid := prog]> (rider_challenges rider))
                           rider in
          let rider := set_score (rider_score rider + bonus) rider in
          (rider,
           Return [{| challengeId := cid; riderId := rider_id rider;
                      bonusPoints := bonus |}])
        else
          (set_challenges (<[cid := prog]> (rider_challenges rider)) rider,
           Return [])
  end.

Fixpoint challengeLoop (clk : Clock) (addedMeters : Q) (now : JSDate.Date)
    (entries : list (string * Challenge)) (rider : Rider)
    (events : list ChallengeEvent)
    : Rider * completion (list ChallengeEvent) :=
  match entries with
  | [] => (rider, Return events)
  | (cid, chal) :: rest =>
      match challengeStep clk addedMeters now cid chal rider with
      | (rider, Return evs) =>
          challengeLoop clk addedMeters now rest rider (events ++ evs)
      | (rider, Throw e) => (rider, Throw e)
      end
  end.

(** [new Date(ts||Date.now())] *)
Definition challengeNow (clk : Clock) (ts : Z) : JSDate.Date :=
  JSDate.newDate (if ts =? 0 then at_challenges clk else ts).

Definition updateChallengesForRider (clk : Clock)
    (entries : list (string * Challenge)) (rider : Rider)
    (addedMeters : Q) (ts : Z)
    : Rider * completion (list ChallengeEvent) :=
  challengeLoop clk addedMeters (challengeNow clk ts) entries rider [].

(** [payload.ts || now] *)
Definition effectiveTs (clk : Clock) (payload : Payload) : Z :=
  match p_ts payload with
  | Some t => if t =? 0 then at_receive clk else t
  | None => at_receive clk
  end.

(** [last && last.ts && ts > last.ts]: the previous fix when the guard
    holds. *)
Definition movedSince (last : option LastFix) (ts : Z) : option LastFix :=
  match last with
  | Some l =>
      if negb (last_ts l =? 0) && (last_ts l <? ts) then Some l else None
  | None => None
  end.

Definition speedKmh (meters : Q) (ts lastTs : Z) : Q :=
  let dt := (inject_Z (ts - lastTs) / 1000)%Q in
  let speedMs := if JSNum.gtb dt 0 then (meters / dt)%Q else 0%Q in
  (speedMs * (36 # 10))%Q.

(** [rider.history.push(e); if (rider.history.length > 200)
    rider.history.shift()] *)
Definition pushHistory (e : HistoryEntry) (h : list HistoryEntry)
    : list HistoryEntry :=
  let h := h ++ [e] in
  if (200 <? Z.of_nat (length h)) then tail h else h.

(** The last two assignments of [handlePosition] and its return value. *)
Definition commitFix (clk : Clock) (D : Data) (id : string) (rider : Rider)
    (plat plon : Q) (ts : Z) (out : list Message)
    : Data * list Message * completion Ack :=
  let rider :=
    set_last (Some {| last_lat := plat; last_lon := plon; last_ts := ts |})
             rider in
  let rider := set_updatedAt (Some (at_commit clk)) rider in
  (set_riders (<[id := rider]> (riders D)) D, out,
   Return (accepted (rider_id rider))).

(** [handlePosition(payload)]: the new [DATA], the messages handed to
    [broadcastJSON] in order, and the returned acknowledgement. *)
Definition handlePosition (clk : Clock) (payload : Payload) (D : Data)
    : Data * list Message * completion Ack :=
  match p_lat payload, p_lon payload, p_id payload with
  | Some plat, Some plon, Some id =>
    if String.eqb id "" then (D, [], Return (rejected "invalid")) else
    let ts := effectiveTs clk payload in
    match riders D !! id with
    | None => (D, [], Return (rejected "unknown_rider"))
    | Some rider =>
      match movedSince (rider_last rider) ts with
      | Some last =>
        let meters :=
          haversineMeters
            {| lat := last_lat last; lon := last_lon last |}
            {| lat := plat; lon := plon |} in
        if JSNum.gtb (speedKmh meters ts (last_ts last)) MAX_SPEED_KMH then
          let rider :=
            set_suspicious
              (Some (default 0 (rider_suspicious rider) + 1)) rider in
          (set_riders (<[id := rider]> (riders D)) D, [],
           Return (rejected "speed"))
        else
          let rider := set_distance (rider_distance rider + meters)%Q rider in
          let rider :=
            set_history
              (pushHistory {| h_lat := plat; h_lon := plon; h_ts := ts;
                              h_meters := JSNum.round meters |}
                           (rider_history rider)) rider in
          let prevDistance := (rider_distance rider - meters)%Q in
          let '(rider, award) :=
            awardPointsPerKm rider prevDistance (rider_distance rider) in
          let '(rider, newlyBadges) :=
            checkAndAwardBadges rider prevDistance (rider_distance rider) in
          match updateChallengesForRider clk (challenges D) rider meters ts
          with
          | (rider, Throw e) =>
              (set_riders (<[id := rider]> (riders D)) D, [], Throw e)
          | (rider, Return challengeEvents) =>
              let update :=
                rider_update (rider_id rider) (rider_name rider) plat plon
                  (JSNum.round (rider_distance rider)) (rider_score rider) in
              let game :=
                if (negb (kmsGained award =? 0) && (0 <? kmsGained award))
                   || negb (length newlyBadges =? 0)%nat
                   || negb (length challengeEvents =? 0)%nat
                then [game_event (rider_id rider) (rider_name rider)
                        (kmsGained award) (pointsGained award)
                        newlyBadges challengeEvents]
                else [] in
              commitFix clk D id rider plat plon ts (update :: game)
          end
      | None => commitFix clk D id rider plat plon ts []
      end
    end
  | _, _, _ => (D, [], Return (rejected "invalid"))
  end.

(** The server handling a sequence of position messages, one after the
    other.  An uncaught exception ends the process: the run stops there. *)
Fixpoint run (inputs : list (Clock * Payload)) (D : Data)
    : Data * list Message * list (completion Ack) :=
  match inputs with
  | [] => (D, [], [])
  | (clk, payload) :: rest =>
      match handlePosition clk payload D with
      | (D', out, Return a) =>
          let '(D'', out', acks) := run rest D' in
          (D'', out ++ out', Return a :: acks)
      | (D', out, Throw e) => (D', out, [Throw e])
      end
  end.

End Engine.

(** ** Notions used in the statements *)

Definition newlyQualified (owned : list string) (prevDistance newDistance : Q)
    (ms : list Z) : list Z :=
  List.filter
    (fun m => JSNum.ltb prevDistance (inject_Z m)
              && JSNum.geb newDistance (inject_Z m)
              && negb (includes owned (badgeIdOf m))) ms.

Definition badgeEventOf (m : Z) : BadgeEvent :=
  {| badge_id := badgeIdOf m; badge_label := badgeLabelOf m |}.

(** A sample is stale for the store when it is a well-formed position of a
    known rider who has a previous fix, and its timestamp does not exceed the
    stored one. *)
Definition staleFor (D : Data) (input : Clock * Payload) : Prop :=
  exists id plat plon rider l,
    p_id (snd input) = Some id /\ id <> ""%string /\
    p_lat (snd input) = Some plat /\ p_lon (snd input) = Some plon /\
    riders D !! id = Some rider /\ rider_last rider = Some l /\
    effectiveTs (fst input) (snd input) <= last_ts l.

(** What the scoring of a rider consists of. *)
Definition sameProgress (r r' : Rider) : Prop :=
  rider_distance r' = rider_distance r /\ rider_score r' = rider_score r /\
  rider_badges r' = rider_badges r /\
  rider_challenges r' = rider_challenges r /\
  rider_history r' = rider_history r.

(** Every sample of the sequence is stale for the store it meets. *)
Fixpoint allStale (haversineMeters : Position -> Position -> Q) (tz : Z)
    (inputs : list (Clock * Payload)) (D : Data) : Prop :=
  match inputs with
  | [] => True
  | input :: rest =>
      staleFor D input /\
      allStale haversineMeters tz rest
        (fst (fst (handlePosition haversineMeters tz
                     (fst input) (snd input) D)))
  end.

Definition isAccepted (a : completion Ack) : Prop :=
  exists id, a = Return (accepted id).

(** The progress record of one challenge after one iteration of the loop, in
    terms of the record before it. *)
Definition progressAfter (at_ms : Z) (d target : Q) (key : option string)
    (p0 : Progress) : Progress :=
  let p1 := rollover key p0 in
  if completed p1 then p1
  else
    let p2 := addProgress d p1 in
    if JSNum.geb (progressMeters p2) target then markCompleted at_ms p2
    else p2.

(** Whether that iteration completes the challenge. *)
Definition completesNow (d target : Q) (key : option string) (p0 : Progress)
    : bool :=
  let p1 := rollover key p0 in
  negb (completed p1) && JSNum.geb (progressMeters p1 + d)%Q target.

Definition completionEvent (cid rid : string) (chal : Challenge)
    : ChallengeEvent :=
  {| challengeId := cid; riderId := rid; bonusPoints := bonusOf chal |}.

(** The events of a list that concern one challenge. *)
Definition eventsFor (cid : string) (evs : list ChallengeEvent)
    : list ChallengeEvent :=
  List.filter (fun e => String.eqb (challengeId e) cid) evs.

Definition totalBonus (evs : list ChallengeEvent) : Z :=
  fold_right Z.add 0 (List.map bonusPoints evs).

(** The rider properties that the challenge loop never assigns. *)
Definition sameOutsideChallenges (r r' : Rider) : Prop :=
  rider_id r' = rider_id r /\ rider_name r' = rider_name r /\
  rider_last r' = rider_last r /\ rider_history r' = rider_history r /\
  rider_distance r' = rider_distance r /\ rider_badges r' = rider_badges r /\
  rider_suspicious r' = rider_suspicious r /\
  rider_updatedAt r' = rider_updatedAt r.

(** The part of [handlePosition] between the speed gate and the challenge
    update: distance, history, points and badges of a sample that moved the
    rider by [meters]. *)
Definition scoreMove (meters plat plon : Q) (ts : Z) (rider : Rider)
    : Rider * Award * list BadgeEvent :=
  let rider := set_distance (rider_distance rider + meters)%Q rider in
  let rider :=
    set_history
      (pushHistory {| h_lat := plat; h_lon := plon; h_ts := ts;
                      h_meters := JSNum.round meters |}
                   (rider_history rider)) rider in
  let prevDistance := (rider_distance rider - meters)%Q in
  let '(rider, award) :=
    awardPointsPerKm rider prevDistance (rider_distance rider) in
  let '(rider, newlyBadges) :=
    checkAndAwardBadges rider prevDistance (rider_distance rider) in
  (rider, award, newlyBadges).

(** The condition under which a [game_event] is sent. *)
Definition gameWorthy (award : Award) (newlyBadges : list BadgeEvent)
    (challengeEvents : list ChallengeEvent) : bool :=
  (negb (kmsGained award =? 0) && (0 <? kmsGained award))
  || negb (length newlyBadges =? 0)%nat
  || negb (length challengeEvents =? 0)%nat.

(** Successive calls of [updateChallengesForRider] for one rider, one per
    sample that reaches it, each with its clock, its distance and its
    timestamp; the events returned by the calls, in order.  An exception
    ends the sequence. *)
Fixpoint updateMany (tz : Z) (entries : list (string * Challenge))
    (samples : list (Clock * Q * Z)) (rider : Rider)
    : Rider * completion (list ChallengeEvent) :=
  match samples with
  | [] => (rider, Return [])
  | (clk, d, ts) :: rest =>
      match updateChallengesForRider tz clk entries rider d ts with
      | (rider, Return evs) =>
          match updateMany tz entries rest rider with
          | (rider, Return evs') => (rider, Return (evs ++ evs'))
          | (rider, Throw e) => (rider, Throw e)
          end
      | (rider, Throw e) => (rider, Throw e)
      end
  end.

(** The sample falls in the window with key [k] of a challenge of the given
    period. *)
Definition inWindow (tz : Z) (per k : string) (sample : Clock * Q * Z)
    : Prop :=
  windowKey tz per (challengeNow (fst (fst sample)) (snd sample))
    = Return (Some k).

(** The stored progress says: completed, in the window with key [k]. *)
Definition completedIn (k : string) (stored : option Progress) : Prop :=
  match stored with
  | Some p => lastReset p = Some k /\ completed p = true
  | None => False
  end.

(** [eraDate] and [eraDay] agree on a day of era. *)
Definition eraCheck (doe : Z) : bool :=
  let '(yoe, m, d) := JSDate.eraDate doe in
  (0 <=? yoe) && (yoe <=? 399) && (JSDate.eraDay yoe m d =? doe).

(** [eraCheck] on the [n] days of era from [doe] on. *)
Fixpoint eraCheckFrom (n : nat) (doe : Z) : bool :=
  match n with
  | O => true
  | S n' => eraCheck doe && eraCheckFrom n' (doe + 1)
  end.

(** The instant [setDate(getDate() - diff)] moves a date to: [diff] days
    earlier, [diff] being the number of days since Monday in local time. *)
Definition weekStart (tz t : Z) : Z :=
  t - ((JSDate.WeekDay (t + tz) + 6) mod 7) * JSDate.msPerDay.

(** ** The engine on examples *)

(** A concrete distance: one degree of latitude or longitude counts for
    100 km along a grid.  It stands in for the great-circle distance where an
    example needs numbers; along a meridian the great-circle distance is
    about 111 km per degree, so the examples keep their course with it: their
    speeds stay far from the limit on the side they are on. *)
Definition gridMeters (a b : Position) : Q :=
  ((Qabs (lat b - lat a) + Qabs (lon b - lon a)) * 100000)%Q.

Definition wallClock (t : Z) : Clock :=
  {| at_receive := t; at_challenges := t; at_completed := fun _ => t;
     at_commit := t |}.

Definition newRider (id pseudo : string) : Rider :=
  {| rider_id := id; rider_name := pseudo; rider_last := None;
     rider_history := []; rider_distance := 0; rider_score := 0;
     rider_badges := []; rider_challenges := ∅; rider_suspicious := None;
     rider_updatedAt := None |}.

Definition position (id : string) (plat plon : Q) (ts : Z) : Payload :=
  {| p_id := Some id; p_lat := Some plat; p_lon := Some plon;
     p_ts := Some ts |}.

(** The store with the one rider of the examples, as the login route creates
    it, and the seeded challenges. *)
Definition D0 : Data :=
  {| riders := {[ "r1"%string := newRider "r1" "Ana" ]};
     challenges := defaultChallenges |}.

(** The store after a run of samples stamped by the clients, on a host whose
    local time is UTC. *)
Definition after (inputs : list Payload) (D : Data) : Data :=
  fst (fst (run gridMeters 0
              (List.map (fun p => (wallClock (default 0 (p_ts p)), p)) inputs)
              D)).

(** The samples of the examples: a first fix, a fix 1000 m further one hour
    later, a fix 5000 m further ten seconds after that, and a fix another
    1000 m further one hour after the second. *)
Definition fix1 : Payload := position "r1" 50 3 1000.
Definition fix2 : Payload := position "r1" (5001 # 100) 3 3601000.
Definition fix3 : Payload := position "r1" (5006 # 100) 3 3611000.
Definition fix4 : Payload := position "r1" (5002 # 100) 3 7201000.

Definition D1 : Data := after [fix1] D0.
Definition D2 : Data := after [fix1; fix2] D0.

(** The rider of the examples in a store. *)
Definition riderOf (D : Data) : Rider :=
  default (newRider "" "") (riders D !! "r1"%string).

Definition lastOf (D : Data) : LastFix :=
  default {| last_lat := 0; last_lon := 0; last_ts := 0 |}
          (rider_last (riderOf D)).

(** A rider whose two fixes, 100 m apart, are both in the first minutes of
    2 January 1970, and a sample stamped on 1 January that arrives after
    them. *)
Definition lateFix1 : Payload := position "r1" 50 3 86410000.
Definition lateFix2 : Payload := position "r1" (50001 # 1000) 3 86460000.
Definition earlyFix : Payload := position "r1" 50 3 1000.

Definition Dlate : Data := after [lateFix1; lateFix2] D0.

Definition dailyOf (D : Data) : Progress :=
  default freshProgress (rider_challenges (riderOf D) !! "daily_1km"%string).

(** Three moves of one day, 600 m, 500 m and 300 m. *)
Definition threeMoves : list (Clock * Q * Z) :=
  [(wallClock 3601000, 600%Q, 3601000);
   (wallClock 3602000, 500%Q, 3602000);
   (wallClock 3603000, 300%Q, 3603000)].

(** ** Notions used for the handler as a whole *)

(** The payload fails the first test of [handlePosition]: [lat] or [lon] is
    not a number, or [id] is missing or empty. *)
Definition malformed (payload : Payload) : Prop :=
  p_lat payload = None \/ p_lon payload = None \/
  p_id payload = None \/ p_id payload = Some ""%string.

(** What a call never assigns on a rider, and the bound it keeps on the
    history. *)
Definition sameIdentity (r r' : Rider) : Prop :=
  rider_id r' = rider_id r /\ rider_name r' = rider_name r /\
  (length (rider_history r') <= Nat.max 200 (length (rider_history r)))%nat.

(** The property names every object inherits from [Object.prototype]: for
    them [DATA.riders[id]] is never [undefined], whatever the store holds,
    a case the store as a finite map does not cover. *)
Definition inheritedKeys : list string :=
  ["constructor"; "hasOwnProperty"; "isPrototypeOf"; "propertyIsEnumerable";
   "toLocaleString"; "toString"; "valueOf"; "__proto__";
   "__defineGetter__"; "__defineSetter__"; "__lookupGetter__";
   "__lookupSetter__"]%string.

(** A progress record is settled for a target when its [completed] flag says
    exactly whether the target has been reached. *)
Definition settled (target : Q) (p : Progress) : Prop :=
  completed p = true <-> (target <= progressMeters p)%Q.

Definition challengesSettled (entries : list (string * Challenge))
    (r : Rider) : Prop :=
  forall cid chal p,
    In (cid, chal) entries -> rider_challenges r !! cid = Some p ->
    settled (targetMeters chal) p.

Definition storeSettled (D : Data) : Prop :=
  forall id r, riders D !! id = Some r -> challengesSettled (challenges D) r.

(** ** The rest of the server

    The seeding of the default challenges, the login route, the leaderboard
    route and the handler of socket messages, over the same [Data]. *)

(** *** Default challenges *)

(** [DATA.challenges[cid]] is defined (a stored challenge is an object, hence
    truthy). *)
Definition hasChallenge (cid : string) (entries : list (string * Challenge))
    : bool :=
  existsb (fun e => String.eqb (fst e) cid) entries.

(** [if (!DATA.challenges[cid]) DATA.challenges[cid] = chal]: a property that
    is added comes last in [Object.entries] order. *)
Definition ensureChallenge (cid : string) (chal : Challenge)
    (entries : list (string * Challenge)) : list (string * Challenge) :=
  if hasChallenge cid entries then entries else entries ++ [(cid, chal)].

(** The two tests that follow the loading of [data.json]. *)
Definition seedChallenges (entries : list (string * Challenge))
    : list (string * Challenge) :=
  ensureChallenge "weekly_5km" weekly_5km
    (ensureChallenge "daily_1km" daily_1km entries).

(** *** Login *)

Definition TypeError : string :=
  "TypeError: Cannot read properties of undefined".

(** An entry of [DATA.users]. *)
Record User : Type :=
  { user_id : string; user_email : string; user_pseudo : string;
    user_createdAt : Z }.

(** [DATA]: the riders and challenges of the engine, and the users by
    email. *)
Record Server : Type := { data : Data; users : gmap string User }.

(** The body of a login request; a property that is absent (or falsy) is
    [None]. *)
Record LoginBody : Type :=
  { b_email : option string; b_pseudo : option string }.

(** What one call of the login route reads from its environment:
    [shortid.generate()], [Math.random().toString(36).slice(2,8)] and
    [Date.now()]. *)
Record LoginEnv : Type :=
  { generated_id : string; random_suffix : string; login_now : Z }.

(** The two answers of the route: status 400 with [error:'invalid_email'],
    or [{ ok:true, id, pseudo }]. *)
Inductive LoginResponse : Type :=
| invalid_email
| logged_in (id pseudo : string).

(** [s.includes(c)] for a single character [c]. *)
Fixpoint includes_char (c : Ascii.ascii) (s : string) : bool :=
  match s with
  | EmptyString => false
  | String a rest => Ascii.eqb a c || includes_char c rest
  end.

(** The character ['@']. *)
Definition at_sign : Ascii.ascii := Ascii.ascii_of_nat 64.

(** [s.slice(0,40)] *)
Definition slice_0_40 (s : string) : string := String.substring 0 40 s.

Section Login.

(** [String.prototype.trim] and [String.prototype.toLowerCase]. *)
Variables trim toLowerCase : string -> string.

(** [(req.body.email||'').trim().toLowerCase()] *)
Definition emailOf (body : LoginBody) : string :=
  toLowerCase (trim (default ""%string (b_email body))).

(** [(req.body.pseudo||'').trim().slice(0,40) || ('Rider-'+...)] *)
Definition pseudoOf (env : LoginEnv) (body : LoginBody) : string :=
  let p := slice_0_40 (trim (default ""%string (b_pseudo body))) in
  if String.eqb p "" then ("Rider-" +:+ random_suffix env)%string else p.

(** [!email || !email.includes('@')] *)
Definition invalidEmail (email : string) : bool :=
  String.eqb email "" || negb (includes_char at_sign email).

(** The body of [if (!DATA.users[email]) { ... }]. *)
Definition register (env : LoginEnv) (email pseudo : string) (S : Server)
    : Server :=
  let id := generated_id env in
  {| data := set_riders (<[id := newRider id pseudo]> (riders (data S)))
                        (data S);
     users := <[email := {| user_id := id; user_email := email;
                            user_pseudo := pseudo;
                            user_createdAt := login_now env |}]> (users S) |}.

(** The handler of [POST /api/login]: the new [DATA] and the answer.
    Reading [name] off a rider that is not in the store throws. *)
Definition login (env : LoginEnv) (body : LoginBody) (S : Server)
    : Server * completion LoginResponse :=
  let email := emailOf body in
  let pseudo := pseudoOf env body in
  if invalidEmail email then (S, Return invalid_email)
  else
    let S := match users S !! email with
             | Some _ => S
             | None => register env email pseudo S
             end in
    match users S !! email with
    | Some user =>
        match riders (data S) !! user_id user with
        | Some rider =>
            (S, Return (logged_in (user_id user) (rider_name rider)))
        | None => (S, Throw TypeError)
        end
    | None => (S, Throw TypeError)
    end.

End Login.

(** *** Leaderboard *)

(** An entry of the leaderboard: [{ id, name, distance, score }]. *)
Record Entry : Type :=
  { entry_id : string; entry_name : string; entry_distance : Q;
    entry_score : Z }.

Definition entryOf (r : Rider) : Entry :=
  {| entry_id := rider_id r; entry_name := rider_name r;
     entry_distance := rider_distance r; entry_score := rider_score r |}.

(** [Array.prototype.sort] with the comparator [(a,b) => b.score - a.score]:
    the stable sort by descending score, here by insertion. *)
Fixpoint insertByScore (e : Entry) (sorted : list Entry) : list Entry :=
  match sorted with
  | [] => [e]
  | x :: rest =>
      if entry_score e <? entry_score x then x :: insertByScore e rest
      else e :: sorted
  end.

Fixpoint sortByScore (l : list Entry) : list Entry :=
  match l with
  | [] => []
  | e :: rest => insertByScore e (sortByScore rest)
  end.

(** The handler of [GET /api/leaderboard], on [Object.values(DATA.riders)]. *)
Definition leaderboard (values : list Rider) : list Entry :=
  firstn 200 (sortByScore (List.map entryOf values)).

(** [a] may come before [b] on the leaderboard. *)
Definition byScore (a b : Entry) : Prop := entry_score b <= entry_score a.

Definition hasScore (s : Z) (e : Entry) : bool := entry_score e =? s.

(** *** Socket messages *)

(** What [JSON.parse(msg.toString())] gives: an exception, [null], another
    value that is not an object with properties of its own (a number, a
    string, a boolean, an array), or an object.  Of an object, [type] is its
    [type] property when that is a string, [payload] the decoded [payload]
    property when that is truthy, and [self] the object decoded as a
    payload. *)
Inductive Incoming : Type :=
| unparsable
| parsed_null
| parsed_other
| parsed_object (type : option string) (payload : option Payload)
    (self : Payload).

(** What the handler sends back on the socket. *)
Inductive Reply : Type :=
| error_reply (message : string)
| ack_reply (result : Ack)
| whoami_reply (id : string).

Section Socket.

Variable haversineMeters : Position -> Position -> Q.
Variable tz : Z.

(** The handler of a socket message; [newId] is what [shortid.generate()]
    would return.  Reading [type] off [null] throws. *)
Definition onMessage (clk : Clock) (newId : string) (msg : Incoming)
    (D : Data) : Data * list Message * completion (list Reply) :=
  match msg with
  | unparsable => (D, [], Return [error_reply "invalid_json"])
  | parsed_null => (D, [], Throw TypeError)
  | parsed_other => (D, [], Return [])
  | parsed_object type payload self =>
      if bool_decide (type = Some "position"%string) then
        match handlePosition haversineMeters tz clk (default self payload) D
        with
        | (D', out, Return res) => (D', out, Return [ack_reply res])
        | (D', out, Throw e) => (D', out, Throw e)
        end
      else if bool_decide (type = Some "whoami"%string) then
        (D, [], Return [whoami_reply newId])
      else (D, [], Return [])
  end.

Variables trim toLowerCase : string -> string.

(** A request to the server that can change [DATA]. *)
Inductive Request : Type :=
| post_login (env : LoginEnv) (body : LoginBody)
| ws_message (clk : Clock) (newId : string) (msg : Incoming).

(** One request: the new [DATA] and whether the process is still running.
    An exception in a route is answered by the framework; an exception in
    the socket handler is uncaught and ends the process. *)
Definition serve (req : Request) (S : Server) : Server * bool :=
  match req with
  | post_login env body => (fst (login trim toLowerCase env body S), true)
  | ws_message clk newId msg =>
      match onMessage clk newId msg (data S) with
      | (D', _, Return _) => ({| data := D'; users := users S |}, true)
      | (D', _, Throw _) => ({| data := D'; users := users S |}, false)
      end
  end.

(** The server handling requests one after the other, for as long as it
    runs. *)
Fixpoint serveAll (reqs : list Request) (S : Server) : Server :=
  match reqs with
  | [] => S
  | req :: rest =>
      match serve req S with
      | (S', true) => serveAll rest S'
      | (S', false) => S'
      end
  end.

End Socket.

(** Every user has a rider: what the login route reads after the test. *)
Definition usersHaveRiders (S : Server) : Prop :=
  forall email u,
    users S !! email = Some u -> is_Some (riders (data S) !! user_id u).

(** The empty [DATA] the server starts from without a [data.json], seeded. *)
Definition freshServer : Server :=
  {| data := {| riders := ∅; challenges := seedChallenges [] |};
     users := ∅ |}.

(** The riders of [D'] are those of [D], under the same ids and names, and
    the challenge definitions are the same. *)
Definition keepsRiders (D D' : Data) : Prop :=
  challenges D' = challenges D /\
  forall id,
    match riders D !! id with
    | None => riders D' !! id = None
    | Some r => exists r', riders D' !! id = Some r' /\
                           rider_name r' = rider_name r
    end.

(** *** The server on examples *)

(** [trim] and [toLowerCase] on ASCII text. *)
Definition isSpace (c : Ascii.ascii) : bool :=
  let n := Ascii.nat_of_ascii c in
  ((n =? 32) || ((9 <=? n) && (n <=? 13)))%nat.

Fixpoint trimStart (s : string) : string :=
  match s with
  | EmptyString => EmptyString
  | String c rest => if isSpace c then trimStart rest else s
  end.

Definition asciiTrim (s : string) : string :=
  String.rev (trimStart (String.rev (trimStart s))).

Definition lowerChar (c : Ascii.ascii) : Ascii.ascii :=
  let n := Ascii.nat_of_ascii c in
  if ((65 <=? n) && (n <=? 90))%nat then Ascii.ascii_of_nat (n + 32) else c.

Fixpoint asciiLower (s : string) : string :=
  match s with
  | EmptyString => EmptyString
  | String c rest => String (lowerChar c) (asciiLower rest)
  end.

(** Two logins of the rider of the examples, and the login of another. *)
Definition anaLogin : LoginBody :=
  {| b_email := Some " Ana@Example.org"%string;
     b_pseudo := Some "Ana"%string |}.

Definition anaAgain : LoginBody :=
  {| b_email := Some "ana@EXAMPLE.org  "%string;
     b_pseudo := Some "Anabel"%string |}.

Definition benLogin : LoginBody :=
  {| b_email := Some "ben@example.org"%string; b_pseudo := None |}.

Definition envWith (id : string) : LoginEnv :=
  {| generated_id := id; random_suffix := "k3x9qz"; login_now := 500 |}.

Definition positionMessage (p : Payload) : Incoming :=
  parsed_object (Some "position"%string) (Some p)
    {| p_id := None; p_lat := None; p_lon := None; p_ts := None |}.

Definition whoamiMessage : Incoming :=
  parsed_object (Some "whoami"%string) None
    {| p_id := None; p_lat := None; p_lon := None; p_ts := None |}.

(** The server after the first login of the rider of the examples. *)
Definition S1 : Server :=
  fst (login asciiTrim asciiLower (envWith "r1") anaLogin freshServer).

(** A session: two positions of that rider, a [whoami], the login of another
    rider, a text that is not JSON. *)
Definition session : list Request :=
  [ws_message (wallClock 1000) "w1" (positionMessage fix1);
   ws_message (wallClock 3601000) "w2" (positionMessage fix2);
   ws_message (wallClock 3602000) "w3" whoamiMessage;
   post_login (envWith "r2") benLogin;
   ws_message (wallClock 3603000) "w4" unparsable].

Definition socketSession : list Request :=
  [ws_message (wallClock 1000) "w1" (positionMessage fix1);
   ws_message (wallClock 3601000) "w2" (positionMessage fix2);
   ws_message (wallClock 3602000) "w3" whoamiMessage].

(** Month and day of month of a day of era are in range. *)
Definition eraRange (doe : Z) : bool :=
  let '(_, m, d) := JSDate.eraDate doe in
  (1 <=? m) && (m <=? 12) && (1 <=? d) && (d <=? 31).

Fixpoint eraRangeFrom (n : nat) (doe : Z) : bool :=
  match n with
  | O => true
  | S n' => eraRange doe && eraRangeFrom n' (doe + 1)
  end.

(** The points that the broadcasts [out] announce for the rider [id]: the
    [pointsGained] and the challenge bonuses of its [game_event] messages. *)
Definition announcedBy (id : string) (m : Message) : Z :=
  match m with
  | game_event rid _ _ points _ chev =>
      if String.eqb rid id then points + totalBonus chev else 0
  | rider_update _ _ _ _ _ _ => 0
  end.

Definition announced (id : string) (out : list Message) : Z :=
  fold_right Z.add 0 (List.map (announcedBy id) out).

(** Every rider is stored under its own id, as the login route stores it. *)
Definition keyedById (D : Data) : Prop :=
  forall k r, riders D !! k = Some r -> rider_id r = k.

(** The badges that the broadcasts [out] announce for the rider [id]: the
    ids of the [newBadges] of its [game_event] messages, in order. *)
Definition badgesAnnouncedBy (id : string) (m : Message) : list string :=
  match m with
  | game_event rid _ _ _ newly _ =>
      if String.eqb rid id then List.map badge_id newly else []
  | rider_update _ _ _ _ _ _ => []
  end.

Definition announcedBadges (id : string) (out : list Message) : list string :=
  flat_map (badgesAnnouncedBy id) out.

(** The answer [a] to [payload] is a rejection for speed of a sample of the
    rider [id]. *)
Definition isSpeedRejection (id : string) (payload : Payload)
    (a : completion Ack) : bool :=
  match p_id payload, a with
  | Some i, Return (rejected reason) =>
      String.eqb i id && String.eqb reason "speed"
  | _, _ => false
  end.

(** The number of such rejections among the answers to a run. *)
Fixpoint speedRejections (id : string) (inputs : list (Clock * Payload))
    (acks : list (completion Ack)) : Z :=
  match inputs, acks with
  | (_, payload) :: inputs', a :: acks' =>
      (if isSpeedRejection id payload a then 1 else 0)
      + speedRejections id inputs' acks'
  | _, _ => 0
  end.

(** ** A day that is entered twice *)

(** The challenge events that the broadcasts carry, in order. *)
Definition challengeEventsOf (out : list Message) : list ChallengeEvent :=
  flat_map (fun m => match m with
                     | game_event _ _ _ _ _ chev => chev
                     | rider_update _ _ _ _ _ _ => []
                     end) out.

(** A first fix and a move of 1000 m on 1 January 1970; a move of 100 m on
    2 January; a sample stamped on 1 January that arrives after it; and a
    move of 1000 m stamped one hour later, on 1 January again. *)
Definition backToFirstDay : list (Clock * Payload) :=
  [(wallClock 1000, position "r1" 50 3 1000);
   (wallClock 3601000, position "r1" (5001 # 100) 3 3601000);
   (wallClock 90001000, position "r1" (50011 # 1000) 3 90001000);
   (wallClock 90002000, position "r1" (50011 # 1000) 3 3602000);
   (wallClock 90003000, position "r1" (50021 # 1000) 3 7202000)].

(** ** The handler on numbers that are not finite

    [JSON.parse] reads a literal out of range, such as [1e999], as
    [Infinity], and [typeof Infinity] is ['number']: the first test of
    [handlePosition] lets such a coordinate through.  This module is the
    engine again with coordinates that may be infinite and computed doubles
    that may be NaN.  Timestamps and scores stay integers.  No operation of
    the engine yields an infinity from finite operands: the great-circle
    distance of finite coordinates is a number or NaN.  On finite numbers
    the module computes as the engine above does ([lift_run]). *)

Module NonFinite.

(** A computed double: a number, or NaN ([None]). *)
Definition num : Type := option Q.

(** A coordinate as [JSON.parse] gives it: a finite number, or plus or minus
    [Infinity]. *)
Inductive coord : Type :=
| finite (q : Q)
| infinite (positive : bool).

(** A pair of finite coordinates. *)
Definition FinitePosition : Type := Position.

Definition finitePosition (la lo : Q) : FinitePosition :=
  {| lat := la; lon := lo |}.

(** [x + y], [x - y], [x / d] and [x * c] ([d] and [c] numbers, [d] not
    zero): NaN as soon as an operand is NaN. *)
Definition add (x y : num) : num :=
  match x, y with
  | Some a, Some b => Some (a + b)%Q
  | _, _ => None
  end.

Definition sub (x y : num) : num :=
  match x, y with
  | Some a, Some b => Some (a - b)%Q
  | _, _ => None
  end.

Definition div (x : num) (d : Q) : num :=
  match x with Some a => Some (a / d)%Q | None => None end.

Definition mul (x : num) (c : Q) : num :=
  match x with Some a => Some (a * c)%Q | None => None end.

(** [x || 0]: NaN and zero are falsy. *)
Definition orZero (x : num) : Q :=
  match x with Some a => a | None => 0%Q end.

(** [Math.floor(x)] and [Math.round(x)]: NaN on NaN. *)
Definition floor (x : num) : option Z :=
  match x with Some a => Some (JSNum.floor a) | None => None end.

Definition round (x : num) : option Z :=
  match x with Some a => Some (JSNum.round a) | None => None end.

(** [x > c] and [x >= c]: false on NaN. *)
Definition gtb (x : num) (c : Q) : bool :=
  match x with Some a => JSNum.gtb a c | None => false end.

Definition geb (x : num) (c : Q) : bool :=
  match x with Some a => JSNum.geb a c | None => false end.

(** *** Data model *)

Record Position : Type := { lat : coord; lon : coord }.

Record LastFix : Type := { last_lat : coord; last_lon : coord; last_ts : Z }.

Record HistoryEntry : Type :=
  { h_lat : coord; h_lon : coord; h_ts : Z; h_meters : option Z }.

Record Progress : Type :=
  { progressMeters : num;
    lastReset : option string;
    completed : bool;
    completedAt : option Z }.

Record Rider : Type :=
  { rider_id : string;
    rider_name : string;
    rider_last : option LastFix;
    rider_history : list HistoryEntry;
    rider_distance : num;
    rider_score : Z;
    rider_badges : list string;
    rider_challenges : gmap string Progress;
    rider_suspicious : option Z;
    rider_updatedAt : option Z }.

Record Data : Type :=
  { riders : gmap string Rider;
    challenges : list (string * Challenge) }.

(** Property assignments on a rider object. *)
Definition set_last (v : option LastFix) (r : Rider) : Rider :=
  {| rider_id := rider_id r; rider_name := rider_name r; rider_last := v;
     rider_history := rider_history r; rider_distance := rider_distance r;
     rider_score := rider_score r; rider_badges := rider_badges r;
     rider_challenges := rider_challenges r;
     rider_suspicious := rider_suspicious r;
     rider_updatedAt := rider_updatedAt r |}.

Definition set_history (v : list HistoryEntry) (r : Rider) : Rider :=
  {| rider_id := rider_id r; rider_name := rider_name r;
     rider_last := rider_last r; rider_history := v;
     rider_distance := rider_distance r; rider_score := rider_score r;
     rider_badges := rider_badges r;
     rider_challenges := rider_challenges r;
     rider_suspicious := rider_suspicious r;
     rider_updatedAt := rider_updatedAt r |}.

Definition set_distance (v : num) (r : Rider) : Rider :=
  {| rider_id := rider_id r; rider_name := rider_name r;
     rider_last := rider_last r; rider_history := rider_history r;
     rider_distance := v; rider_score := rider_score r;
     rider_badges := rider_badges r;
     rider_challenges := rider_challenges r;
     rider_suspicious := rider_suspicious r;
     rider_updatedAt := rider_updatedAt r |}.

Definition set_score (v : Z) (r : Rider) : Rider :=
  {| rider_id := rider_id r; rider_name := rider_name r;
     rider_last := rider_last r; rider_history := rider_history r;
     rider_distance := rider_distance r; rider_score := v;
     rider_badges := rider_badges r;
     rider_challenges := rider_challenges r;
     rider_suspicious := rider_suspicious r;
     rider_updatedAt := rider_updatedAt r |}.

Definition set_badges (v : list string) (r : Rider) : Rider :=
  {| rider_id := rider_id r; rider_name := rider_name r;
     rider_last := rider_last r; rider_history := rider_history r;
     rider_distance := rider_distance r; rider_score := rider_score r;
     rider_badges := v; rider_challenges := rider_challenges r;
     rider_suspicious := rider_suspicious r;
     rider_updatedAt := rider_updatedAt r |}.

Definition set_challenges (v : gmap string Progress) (r : Rider) : Rider :=
  {| rider_id := rider_id r; rider_name := rider_name r;
     rider_last := rider_last r; rider_history := rider_history r;
     rider_distance := rider_distance r; rider_score := rider_score r;
     rider_badges := rider_badges r; rider_challenges := v;
     rider_suspicious := rider_suspicious r;
     rider_updatedAt := rider_updatedAt r |}.

Definition set_suspicious (v : option Z) (r : Rider) : Rider :=
  {| rider_id := rider_id r; rider_name := rider_name r;
     rider_last := rider_last r; rider_history := rider_history r;
     rider_distance := rider_distance r; rider_score := rider_score r;
     rider_badges := rider_badges r;
     rider_challenges := rider_challenges r;
     rider_suspicious := v; rider_updatedAt := rider_updatedAt r |}.

Definition set_updatedAt (v : option Z) (r : Rider) : Rider :=
  {| rider_id := rider_id r; rider_name := rider_name r;
     rider_last := rider_last r; rider_history := rider_history r;
     rider_distance := rider_distance r; rider_score := rider_score r;
     rider_badges := rider_badges r;
     rider_challenges := rider_challenges r;
     rider_suspicious := rider_suspicious r; rider_updatedAt := v |}.

Definition set_riders (v : gmap string Rider) (D : Data) : Data :=
  {| riders := v; challenges := challenges D |}.

(** Property assignments on a progress object. *)
Definition resetProgress (key : string) (p : Progress) : Progress :=
  {| progressMeters := Some 0%Q; lastReset := Some key; completed := false;
     completedAt := completedAt p |}.

Definition addProgress (d : num) (p : Progress) : Progress :=
  {| progressMeters := add (progressMeters p) d; lastReset := lastReset p;
     completed := completed p; completedAt := completedAt p |}.

Definition markCompleted (at_ms : Z) (p : Progress) : Progress :=
  {| progressMeters := progressMeters p; lastReset := lastReset p;
     completed := true; completedAt := Some at_ms |}.

Definition freshProgress : Progress :=
  {| progressMeters := Some 0%Q; lastReset := None; completed := false;
     completedAt := None |}.

(** What [broadcastJSON] is called with. *)
Inductive Message : Type :=
| rider_update (id name : string) (mlat mlon : coord)
    (distance : option Z) (score : Z)
| game_event (id name : string) (kmsGained pointsGained : option Z)
    (newBadges : list BadgeEvent) (challengeEvents : list ChallengeEvent).

(** A decoded position payload; [p_lat] and [p_lon] are [None] when the
    property is not of type ['number']. *)
Record Payload : Type :=
  { p_id : option string; p_lat : option coord; p_lon : option coord;
    p_ts : option Z }.

(** *** Scoring *)

(** One iteration of the milestone loop of [checkAndAwardBadges]:
    [(prevDistance||0) < m && newDistance >= m]. *)
Definition badgeStep (prevDistance newDistance : num)
    (st : Rider * list BadgeEvent) (m : Z) : Rider * list BadgeEvent :=
  let '(rider, newly) := st in
  if JSNum.ltb (orZero prevDistance) (inject_Z m)
     && geb newDistance (inject_Z m)
  then
    let badgeId := badgeIdOf m in
    if includes (rider_badges rider) badgeId then (rider, newly)
    else (set_badges (rider_badges rider ++ [badgeId]) rider,
          newly ++ [{| badge_id := badgeId; badge_label := badgeLabelOf m |}])
  else (rider, newly).

Definition checkAndAwardBadges (rider : Rider) (prevDistance newDistance : num)
    : Rider * list BadgeEvent :=
  fold_left (badgeStep prevDistance newDistance) BADGE_MILESTONES_METERS
            (rider, []).

(** [kmsGained] and [pointsGained] are NaN when [newDistance] is. *)
Record Award : Type := { kmsGained : option Z; pointsGained : option Z }.

(** [if (pointsGained)]: NaN and zero are falsy. *)
Definition awardPointsPerKm (rider : Rider) (prevDistance newDistance : num)
    : Rider * Award :=
  let prevKm := JSNum.floor (orZero prevDistance / 1000) in
  let newKm := floor (div newDistance 1000) in
  let kms :=
    match newKm with Some n => Some (Z.max 0 (n - prevKm)) | None => None end in
  let points :=
    match kms with Some k => Some (k * POINTS_PER_KM) | None => None end in
  (match points with
   | Some p => if p =? 0 then rider
               else set_score (rider_score rider + p) rider
   | None => rider
   end,
   {| kmsGained := kms; pointsGained := points |}).

(** *** Challenges and the position handler *)

Section Engine.

(** Great-circle distance in metres between two finite coordinates, as the
    code computes it: a number, or NaN. *)
Variable greatCircle : FinitePosition -> FinitePosition -> num.

(** Offset of the host's local time from UTC, in milliseconds. *)
Variable tz : Z.

(** [haversineMeters(a,b)].  [Math.sin] and [Math.cos] of an infinite
    argument are NaN, and so is the difference of two infinities of the same
    sign; NaN then goes through the sum, [Math.sqrt], [Math.atan2] and the
    products. *)
Definition haversineMeters (a b : Position) : num :=
  match lat a, lon a, lat b, lon b with
  | finite la, finite lo, finite lb, finite lob =>
      greatCircle (finitePosition la lo) (finitePosition lb lob)
  | _, _, _, _ => None
  end.

(** [if (prog.lastReset !== key) { ...reset... }] *)
Definition rollover (key : option string) (prog : Progress) : Progress :=
  match key with
  | Some k =>
      if bool_decide (lastReset prog = Some k) then prog
      else resetProgress k prog
  | None => prog
  end.

(** One iteration of the loop of [updateChallengesForRider]; a progress that
    is NaN does not reach the target. *)
Definition challengeStep (clk : Clock) (addedMeters : num)
    (now : JSDate.Date) (cid : string) (chal : Challenge) (rider : Rider)
    : Rider * completion (list ChallengeEvent) :=
  let prog0 := default freshProgress (rider_challenges rider !! cid) in
  let rider := set_challenges (<[cid := prog0]> (rider_challenges rider))
                              rider in
  match windowKey tz (period chal) now with
  | Throw e => (rider, Throw e)
  | Return key =>
      let prog := rollover key prog0 in
      if completed prog then
        (set_challenges (<[cid := prog]> (rider_challenges rider)) rider,
         Return [])
      else
        let prog := addProgress addedMeters prog in
        if geb (progressMeters prog) (targetMeters chal) then
          let prog := markCompleted (at_completed clk cid) prog in
          let bonus := bonusOf chal in
          let rider :=
            set_challenges (<[cid := prog]> (rider_challenges rider))
                           rider in
          let rider := set_score (rider_score rider + bonus) rider in
          (rider,
           Return [{| challengeId := cid; riderId := rider_id rider;
                      bonusPoints := bonus |}])
        else
          (set_challenges (<[cid := prog]> (rider_challenges rider)) rider,
           Return [])
  end.

Fixpoint challengeLoop (clk : Clock) (addedMeters : num) (now : JSDate.Date)
    (entries : list (string * Challenge)) (rider : Rider)
    (events : list ChallengeEvent)
    : Rider * completion (list ChallengeEvent) :=
  match entries with
  | [] => (rider, Return events)
  | (cid, chal) :: rest =>
      match challengeStep clk addedMeters now cid chal rider with
      | (rider, Return evs) =>
          challengeLoop clk addedMeters now rest rider (events ++ evs)
      | (rider, Throw e) => (rider, Throw e)
      end
  end.

Definition updateChallengesForRider (clk : Clock)
    (entries : list (string * Challenge)) (rider : Rider)
    (addedMeters : num) (ts : Z)
    : Rider * completion (list ChallengeEvent) :=
  challengeLoop clk addedMeters (challengeNow clk ts) entries rider [].

(** [payload.ts || now] *)
Definition effectiveTs (clk : Clock) (payload : Payload) : Z :=
  match p_ts payload with
  | Some t => if t =? 0 then at_receive clk else t
  | None => at_receive clk
  end.

(** [last && last.ts && ts > last.ts] *)
Definition movedSince (last : option LastFix) (ts : Z) : option LastFix :=
  match last with
  | Some l =>
      if negb (last_ts l =? 0) && (last_ts l <? ts) then Some l else None
  | None => None
  end.

(** [dt>0 ? meters/dt : 0], times 3.6: NaN when [meters] is. *)
Definition speedKmh (meters : num) (ts lastTs : Z) : num :=
  let dt := (inject_Z (ts - lastTs) / 1000)%Q in
  let speedMs := if JSNum.gtb dt 0 then div meters dt else Some 0%Q in
  mul speedMs (36 # 10).

Definition pushHistory (e : HistoryEntry) (h : list HistoryEntry)
    : list HistoryEntry :=
  let h := h ++ [e] in
  if (200 <? Z.of_nat (length h)) then tail h else h.

Definition commitFix (clk : Clock) (D : Data) (id : string) (rider : Rider)
    (plat plon : coord) (ts : Z) (out : list Message)
    : Data * list Message * completion Ack :=
  let rider :=
    set_last (Some {| last_lat := plat; last_lon := plon; last_ts := ts |})
             rider in
  let rider := set_updatedAt (Some (at_commit clk)) rider in
  (set_riders (<[id := rider]> (riders D)) D, out,
   Return (accepted (rider_id rider))).

(** [handlePosition(payload)].  With [meters] NaN the speed is NaN and
    [speedKmh > MAX_SPEED_KMH] is false; [(rider.distance||0) + meters]
    takes a distance that is NaN for 0. *)
Definition handlePosition (clk : Clock) (payload : Payload) (D : Data)
    : Data * list Message * completion Ack :=
  match p_lat payload, p_lon payload, p_id payload with
  | Some plat, Some plon, Some id =>
    if String.eqb id "" then (D, [], Return (rejected "invalid")) else
    let ts := effectiveTs clk payload in
    match riders D !! id with
    | None => (D, [], Return (rejected "unknown_rider"))
    | Some rider =>
      match movedSince (rider_last rider) ts with
      | Some last =>
        let meters :=
          haversineMeters
            {| lat := last_lat last; lon := last_lon last |}
            {| lat := plat; lon := plon |} in
        if gtb (speedKmh meters ts (last_ts last)) MAX_SPEED_KMH then
          let rider :=
            set_suspicious
              (Some (default 0 (rider_suspicious rider) + 1)) rider in
          (set_riders (<[id := rider]> (riders D)) D, [],
           Return (rejected "speed"))
        else
          let rider :=
            set_distance (add (Some (orZero (rider_distance rider))) meters)
                         rider in
          let rider :=
            set_history
              (pushHistory {| h_lat := plat; h_lon := plon; h_ts := ts;
                              h_meters := round meters |}
                           (rider_history rider)) rider in
          let prevDistance := sub (rider_distance rider) meters in
          let '(rider, award) :=
            awardPointsPerKm rider prevDistance (rider_distance rider) in
          let '(rider, newlyBadges) :=
            checkAndAwardBadges rider prevDistance (rider_distance rider) in
          match updateChallengesForRider clk (challenges D) rider meters ts
          with
          | (rider, Throw e) =>
              (set_riders (<[id := rider]> (riders D)) D, [], Throw e)
          | (rider, Return challengeEvents) =>
              let update :=
                rider_update (rider_id rider) (rider_name rider) plat plon
                  (round (rider_distance rider)) (rider_score rider) in
              let game :=
                if match kmsGained award with
                   | Some k => negb (k =? 0) && (0 <? k)
                   | None => false
                   end
                   || negb (length newlyBadges =? 0)%nat
                   || negb (length challengeEvents =? 0)%nat
                then [game_event (rider_id rider) (rider_name rider)
                        (kmsGained award) (pointsGained award)
                        newlyBadges challengeEvents]
                else [] in
              commitFix clk D id rider plat plon ts (update :: game)
          end
      | None => commitFix clk D id rider plat plon ts []
      end
    end
  | _, _, _ => (D, [], Return (rejected "invalid"))
  end.

(** The server handling a sequence of position messages; an uncaught
    exception ends the run. *)
Fixpoint run (inputs : list (Clock * Payload)) (D : Data)
    : Data * list Message * list (completion Ack) :=
  match inputs with
  | [] => (D, [], [])
  | (clk, payload) :: rest =>
      match handlePosition clk payload D with
      | (D', out, Return a) =>
          let '(D'', out', acks) := run rest D' in
          (D'', out ++ out', Return a :: acks)
      | (D', out, Throw e) => (D', out, [Throw e])
      end
  end.

End Engine.

(** *** Notions used in the statements *)

Definition finiteCoord (c : coord) : Prop :=
  match c with finite _ => True | infinite _ => False end.

(** The coordinates of the payload, when they are numbers, are finite. *)
Definition finitePayload (payload : Payload) : Prop :=
  match p_lat payload, p_lon payload with
  | Some la, Some lo => finiteCoord la /\ finiteCoord lo
  | _, _ => True
  end.

(** The stored fix of the rider, if any, has finite coordinates. *)
Definition finiteLast (r : Rider) : Prop :=
  match rider_last r with
  | Some l => finiteCoord (last_lat l) /\ finiteCoord (last_lon l)
  | None => True
  end.

Definition finiteStore (D : Data) : Prop :=
  forall id r, riders D !! id = Some r -> finiteLast r.



(** What the scoring helpers and the challenge loop do to a rider, as far
    as distance, last fix and score go: the first two stay, the score does
    not go down. *)
Definition scoreOnly (r r' : Rider) : Prop :=
  rider_distance r' = rider_distance r /\ rider_last r' = rider_last r /\
  rider_score r <= rider_score r'.

(** *** The engine on examples *)

(** The rider of the examples as the login route creates it. *)
Definition newRider (id pseudo : string) : Rider :=
  {| rider_id := id; rider_name := pseudo; rider_last := None;
     rider_history := []; rider_distance := Some 0%Q; rider_score := 0;
     rider_badges := []; rider_challenges := ∅; rider_suspicious := None;
     rider_updatedAt := None |}.

Definition D0 : Data :=
  {| riders := {[ "r1"%string := newRider "r1" "Ana" ]};
     challenges := defaultChallenges |}.

Definition position (id : string) (plat plon : coord) (ts : Z) : Payload :=
  {| p_id := Some id; p_lat := Some plat; p_lon := Some plon;
     p_ts := Some ts |}.




End NonFinite.

(** ** Finite numbers in the engine on numbers that are not finite *)

Definition liftLast (l : LastFix) : NonFinite.LastFix :=
  {| NonFinite.last_lat := NonFinite.finite (last_lat l);
     NonFinite.last_lon := NonFinite.finite (last_lon l);
     NonFinite.last_ts := last_ts l |}.

Definition liftEntry (e : HistoryEntry) : NonFinite.HistoryEntry :=
  {| NonFinite.h_lat := NonFinite.finite (h_lat e);
     NonFinite.h_lon := NonFinite.finite (h_lon e);
     NonFinite.h_ts := h_ts e; NonFinite.h_meters := Some (h_meters e) |}.

Definition liftProgress (p : Progress) : NonFinite.Progress :=
  {| NonFinite.progressMeters := Some (progressMeters p);
     NonFinite.lastReset := lastReset p;
     NonFinite.completed := completed p;
     NonFinite.completedAt := completedAt p |}.

Definition liftRider (r : Rider) : NonFinite.Rider :=
  {| NonFinite.rider_id := rider_id r;
     NonFinite.rider_name := rider_name r;
     NonFinite.rider_last := liftLast <$> rider_last r;
     NonFinite.rider_history := List.map liftEntry (rider_history r);
     NonFinite.rider_distance := Some (rider_distance r);
     NonFinite.rider_score := rider_score r;
     NonFinite.rider_badges := rider_badges r;
     NonFinite.rider_challenges := liftProgress <$> rider_challenges r;
     NonFinite.rider_suspicious := rider_suspicious r;
     NonFinite.rider_updatedAt := rider_updatedAt r |}.

Definition liftData (D : Data) : NonFinite.Data :=
  {| NonFinite.riders := liftRider <$> riders D;
     NonFinite.challenges := challenges D |}.

Definition liftPayload (p : Payload) : NonFinite.Payload :=
  {| NonFinite.p_id := p_id p;
     NonFinite.p_lat := NonFinite.finite <$> p_lat p;
     NonFinite.p_lon := NonFinite.finite <$> p_lon p;
     NonFinite.p_ts := p_ts p |}.

Definition liftMessage (m : Message) : NonFinite.Message :=
  match m with
  | rider_update id name mlat mlon distance score =>
      NonFinite.rider_update id name (NonFinite.finite mlat)
        (NonFinite.finite mlon) (Some distance) score
  | game_event id name kms points newly chev =>
      NonFinite.game_event id name (Some kms) (Some points) newly chev
  end.

Definition liftResult (res : Data * list Message * completion Ack)
    : NonFinite.Data * list NonFinite.Message * completion Ack :=
  (liftData (fst (fst res)), List.map liftMessage (snd (fst res)), snd res).

(** * Properties *)

(** ** Numbers *)

Lemma ltb_lt x y : JSNum.ltb x y = true <-> (x < y)%Q.
Proof.
  unfold JSNum.ltb. rewrite negb_true_iff, <- not_true_iff_false, Qle_bool_iff.
  split; [apply Qnot_le_lt | apply Qlt_not_le].
Qed.


Lemma geb_ge x y : JSNum.geb x y = true <-> (y <= x)%Q.
Proof. apply Qle_bool_iff. Qed.

Lemma floor_mono x y : (x <= y)%Q -> JSNum.floor x <= JSNum.floor y.
Proof. apply Qfloor_resp_le. Qed.

Lemma div1000_mono x y : (x <= y)%Q -> (x / 1000 <= y / 1000)%Q.
Proof.
  intros H. unfold Qdiv. apply Qmult_le_compat_r; [exact H | discriminate].
Qed.

(** ** Record plumbing *)

Lemma set_score_same r : set_score (rider_score r) r = r.
Proof. destruct r; reflexivity. Qed.

Lemma set_badges_same r : set_badges (rider_badges r) r = r.
Proof. destruct r; reflexivity. Qed.

(** ** Points per kilometre *)

(** C8. For non-negative [prevDistance <= newDistance], [awardPointsPerKm]
    returns [kmsGained = max(0, floor(new/1000) - floor(prev/1000))] (a
    difference that is then itself non-negative) and
    [pointsGained = kmsGained * 10], and its only effect on the rider is to
    add exactly [pointsGained] to the score. *)
Theorem awardPointsPerKm_spec (rider : Rider) (prevDistance newDistance : Q) :
  (0 <= prevDistance)%Q -> (prevDistance <= newDistance)%Q ->
  let newKm := Qfloor (newDistance / 1000) in
  let prevKm := Qfloor (prevDistance / 1000) in
  let rider' := fst (awardPointsPerKm rider prevDistance newDistance) in
  let award := snd (awardPointsPerKm rider prevDistance newDistance) in
  kmsGained award = Z.max 0 (newKm - prevKm) /\
  kmsGained award = newKm - prevKm /\
  pointsGained award = kmsGained award * 10 /\
  rider_score rider' = rider_score rider + pointsGained award /\
  rider' = set_score (rider_score rider + pointsGained award) rider.
Proof.
  intros _ Hle newKm prevKm. cbn -[Z.mul Z.max Qdiv].
  assert (Hk : prevKm <= newKm) by (apply floor_mono, div1000_mono, Hle).
  fold prevKm newKm. unfold JSNum.floor. fold prevKm newKm.
  unfold POINTS_PER_KM.
  repeat split; try lia.
  - destruct (Z.eqb_spec (Z.max 0 (newKm - prevKm) * 10) 0) as [E|E].
    + lia.
    + reflexivity.
  - destruct (Z.eqb_spec (Z.max 0 (newKm - prevKm) * 10) 0) as [E|E].
    + rewrite E, Z.add_0_r. symmetry. apply set_score_same.
    + reflexivity.
Qed.

Lemma awardPointsPerKm_spec_witness :
  let r := newRider "r1" "Ana" in
  let res := awardPointsPerKm r 950 2100 in
  kmsGained (snd res) = 2 /\ pointsGained (snd res) = 20 /\
  rider_score (fst res) = 20.
Proof.
  intros r res.
  pose proof (awardPointsPerKm_spec r 950 2100) as H.
  destruct H as (H1 & _ & H3 & H4 & _); [discriminate | discriminate |].
  subst res. rewrite H4, H3, H1. repeat split; reflexivity.
Defined.

(** ** Badges *)

Lemma includes_In l s : includes l s = true <-> In s l.
Proof.
  unfold includes. rewrite existsb_exists. split.
  - intros (x & Hx & E). apply String.eqb_eq in E. now subst.
  - intros H. exists s. split; [exact H | apply String.eqb_refl].
Qed.

Lemma includes_snoc_other l s t :
  s <> t -> includes (l ++ [t]) s = includes l s.
Proof.
  intros Hne. unfold includes. rewrite existsb_app. cbn.
  destruct (String.eqb_spec s t); [contradiction |].
  now rewrite !orb_false_r.
Qed.

Lemma newlyQualified_snoc_other owned t prev new ms :
  ~ In t (List.map badgeIdOf ms) ->
  newlyQualified (owned ++ [t]) prev new ms = newlyQualified owned prev new ms.
Proof.
  intros Hnot. unfold newlyQualified. apply filter_ext_in. intros m Hm.
  rewrite includes_snoc_other; [reflexivity |].
  intros E. subst t. apply Hnot, in_map, Hm.
Qed.

(** The milestone loop in closed form. *)
Lemma badge_loop prev new ms :
  List.NoDup (List.map badgeIdOf ms) ->
  forall rider newly,
    fold_left (badgeStep prev new) ms (rider, newly) =
    (set_badges
       (rider_badges rider ++
        List.map badgeIdOf (newlyQualified (rider_badges rider) prev new ms))
       rider,
     newly ++
     List.map badgeEventOf (newlyQualified (rider_badges rider) prev new ms)).
Proof.
  induction ms as [|m ms IH]; intros Hnd rider newly.
  - cbn. now rewrite !app_nil_r, set_badges_same.
  - cbn [List.map] in Hnd. apply List.NoDup_cons_iff in Hnd as [Hm Hnd].
    cbn [fold_left newlyQualified List.filter]. fold (newlyQualified (rider_badges rider) prev new ms).
    unfold badgeStep at 2.
    destruct (JSNum.ltb prev (inject_Z m) && JSNum.geb new (inject_Z m)) eqn:Hq;
      cbn [andb negb].
    + destruct (includes (rider_badges rider) (badgeIdOf m)) eqn:Hi; cbn [negb].
      * apply IH, Hnd.
      * rewrite IH by exact Hnd. cbn [rider_badges set_badges].
        rewrite newlyQualified_snoc_other by exact Hm.
        cbn [List.map]. rewrite <- !app_assoc. reflexivity.
    + apply IH, Hnd.
Qed.

Lemma badgeIds_distinct : List.NoDup (List.map badgeIdOf BADGE_MILESTONES_METERS).
Proof.
  vm_compute.
  repeat (apply List.NoDup_cons; [ cbn; intuition discriminate | ]).
  apply List.NoDup_nil.
Qed.

Lemma badgeIdOf_inj_milestones m m' :
  In m BADGE_MILESTONES_METERS -> In m' BADGE_MILESTONES_METERS ->
  badgeIdOf m = badgeIdOf m' -> m = m'.
Proof.
  intros H H' E. cbn in H, H'.
  repeat (destruct H as [<-|H]; [|]); try contradiction;
  repeat (destruct H' as [<-|H']; [|]); try contradiction;
  first [reflexivity | vm_compute in E; discriminate].
Qed.

Lemma checkAndAwardBadges_closed rider prev new :
  checkAndAwardBadges rider prev new =
  (set_badges
     (rider_badges rider ++
      List.map badgeIdOf
        (newlyQualified (rider_badges rider) prev new BADGE_MILESTONES_METERS))
     rider,
   List.map badgeEventOf
     (newlyQualified (rider_badges rider) prev new BADGE_MILESTONES_METERS)).
Proof.
  unfold checkAndAwardBadges. now rewrite badge_loop by apply badgeIds_distinct.
Qed.

Lemma badge_ids_of_events ms :
  List.map badge_id (List.map badgeEventOf ms) = List.map badgeIdOf ms.
Proof. rewrite List.map_map. reflexivity. Qed.

Lemma newlyQualified_In owned prev new ms m :
  In m (newlyQualified owned prev new ms) <->
  In m ms /\ (prev < inject_Z m)%Q /\ (inject_Z m <= new)%Q /\
  ~ In (badgeIdOf m) owned.
Proof.
  unfold newlyQualified. rewrite filter_In, !andb_true_iff, ltb_lt, geb_ge.
  rewrite negb_true_iff, <- not_true_iff_false, includes_In. tauto.
Qed.

Lemma newlyQualified_NoDup owned prev new ms :
  List.NoDup (List.map badgeIdOf ms) ->
  List.NoDup (List.map badgeIdOf (newlyQualified owned prev new ms)).
Proof.
  induction ms as [|m ms IH]; intros Hnd; [constructor |].
  cbn [List.map] in Hnd. apply List.NoDup_cons_iff in Hnd as [Hm Hnd].
  cbn [newlyQualified List.filter]. fold (newlyQualified owned prev new ms).
  destruct (_ && _ && _); [| now apply IH].
  cbn [List.map]. apply List.NoDup_cons; [| now apply IH].
  intros Hin. apply Hm. apply in_map_iff in Hin as (x & E & Hx).
  apply in_map_iff. exists x. split; [exact E |].
  apply newlyQualified_In in Hx. tauto.
Qed.

Lemma newlyQualified_replay owned prev new ms :
  newlyQualified
    (owned ++ List.map badgeIdOf (newlyQualified owned prev new ms))
    prev new ms = [].
Proof.
  destruct (newlyQualified (owned ++ _) prev new ms) as [|x l] eqn:E;
    [reflexivity | exfalso].
  assert (Hx : In x (x :: l)) by (left; reflexivity).
  rewrite <- E in Hx. apply newlyQualified_In in Hx as (Hms & Hlt & Hge & Hnot).
  apply Hnot, in_or_app.
  destruct (in_dec String.string_dec (badgeIdOf x) owned) as [Hin | Hout];
    [left; exact Hin | right].
  apply in_map, newlyQualified_In. tauto.
Qed.

(** C9. For each milestone [m] of the fixed list, [checkAndAwardBadges]
    reports [badge_m] as newly earned exactly when
    [prevDistance < m <= newDistance] and [badge_m] is not yet among the
    rider's badges.  The newly earned ids are appended to the rider's badges
    and nothing else changes; they are pairwise distinct, so a badge list
    without duplicates stays without duplicates; and replaying the call with
    the same distances awards nothing and changes nothing. *)
Theorem checkAndAwardBadges_spec (rider : Rider) (prevDistance newDistance : Q)
    (m : Z) :
  In m BADGE_MILESTONES_METERS ->
  let rider' := fst (checkAndAwardBadges rider prevDistance newDistance) in
  let newly := snd (checkAndAwardBadges rider prevDistance newDistance) in
  (In (badgeIdOf m) (List.map badge_id newly) <->
   (prevDistance < inject_Z m)%Q /\ (inject_Z m <= newDistance)%Q /\
   ~ In (badgeIdOf m) (rider_badges rider)) /\
  rider' = set_badges (rider_badges rider ++ List.map badge_id newly) rider /\
  List.NoDup (List.map badge_id newly) /\
  (List.NoDup (rider_badges rider) -> List.NoDup (rider_badges rider')) /\
  checkAndAwardBadges rider' prevDistance newDistance = (rider', []).
Proof.
  intros Hm. rewrite checkAndAwardBadges_closed. cbn [fst snd].
  rewrite badge_ids_of_events.
  set (ms := newlyQualified _ _ _ _).
  assert (Hnd : List.NoDup (List.map badgeIdOf ms))
    by apply newlyQualified_NoDup, badgeIds_distinct.
  split; [split | split; [reflexivity | split; [exact Hnd | split]]].
  - intros Hin. apply in_map_iff in Hin as (x & E & Hx).
    apply newlyQualified_In in Hx as (Hx & ?).
    apply (badgeIdOf_inj_milestones x m Hx Hm) in E. subst x. tauto.
  - intros (Hlt & Hge & Hnot). apply in_map, newlyQualified_In. tauto.
  - intros Hold. cbn [rider_badges set_badges].
    apply List.NoDup_app; try assumption.
    intros b Hb Hb'.
    apply in_map_iff in Hb' as (x & E & Hx).
    apply newlyQualified_In in Hx. subst b. tauto.
  - rewrite checkAndAwardBadges_closed. cbn [rider_badges set_badges].
    subst ms. rewrite newlyQualified_replay. cbn [List.map].
    rewrite app_nil_r. reflexivity.
Qed.

Lemma checkAndAwardBadges_spec_witness :
  let r := newRider "r1" "Ana" in
  let res := checkAndAwardBadges r 400 5200 in
  In (badgeIdOf 5000) (List.map badge_id (snd res)) /\
  rider_badges (fst res) = ["badge_1000"; "badge_5000"]%string /\
  checkAndAwardBadges (fst res) 400 5200 = (fst res, []).
Proof.
  intros r res.
  assert (Hm : In 5000 BADGE_MILESTONES_METERS) by (cbn; tauto).
  destruct (checkAndAwardBadges_spec r 400 5200 5000 Hm)
    as (Hiff & _ & _ & _ & Hreplay).
  split; [| split].
  - apply Hiff. split; [reflexivity | split; [discriminate | cbn; tauto]].
  - vm_compute. reflexivity.
  - exact Hreplay.
Defined.

(** ** The challenge loop *)

Section ChallengeFacts.

Variable tz : Z.

Lemma challengeStep_eq clk d now cid chal r :
  challengeStep tz clk d now cid chal r =
  let p0 := default freshProgress (rider_challenges r !! cid) in
  match windowKey tz (period chal) now with
  | Throw e => (set_challenges (<[cid := p0]> (rider_challenges r)) r, Throw e)
  | Return key =>
      let p := progressAfter (at_completed clk cid) d (targetMeters chal)
                             key p0 in
      if completesNow d (targetMeters chal) key p0 then
        (set_score (rider_score r + bonusOf chal)
           (set_challenges (<[cid := p]> (rider_challenges r)) r),
         Return [completionEvent cid (rider_id r) chal])
      else
        (set_challenges (<[cid := p]> (rider_challenges r)) r, Return [])
  end.
Proof.
  unfold challengeStep, progressAfter, completesNow. cbn zeta.
  destruct (windowKey tz (period chal) now) as [key | e]; [| reflexivity].
  destruct (completed (rollover key _)) eqn:Hc; cbn [negb andb].
  - cbn. now rewrite insert_insert_eq.
  - cbn [addProgress progressMeters].
    destruct (JSNum.geb _ _); cbn; now rewrite insert_insert_eq.
Qed.

Lemma challengeStep_frame clk d now cid chal r :
  sameOutsideChallenges r (fst (challengeStep tz clk d now cid chal r)).
Proof.
  rewrite challengeStep_eq. cbn zeta.
  destruct (windowKey _ _ _); [destruct (completesNow _ _ _ _) |];
    repeat split; reflexivity.
Qed.

Lemma sameOutsideChallenges_refl r : sameOutsideChallenges r r.
Proof. repeat split; reflexivity. Qed.

Lemma sameOutsideChallenges_trans r1 r2 r3 :
  sameOutsideChallenges r1 r2 -> sameOutsideChallenges r2 r3 ->
  sameOutsideChallenges r1 r3.
Proof.
  unfold sameOutsideChallenges.
  intros (?&?&?&?&?&?&?&?) (?&?&?&?&?&?&?&?). repeat split; congruence.
Qed.

Lemma challengeLoop_frame clk d now entries :
  forall r evs,
    sameOutsideChallenges r (fst (challengeLoop tz clk d now entries r evs)).
Proof.
  induction entries as [|[cid chal] rest IH]; intros r evs; cbn [challengeLoop].
  - apply sameOutsideChallenges_refl.
  - pose proof (challengeStep_frame clk d now cid chal r) as Hf.
    destruct (challengeStep tz clk d now cid chal r) as [r1 [evs1 | e]];
      cbn [fst] in Hf.
    + eapply sameOutsideChallenges_trans; [exact Hf | apply IH].
    + exact Hf.
Qed.

Lemma bonusOf_nonneg chal : (0 <= targetMeters chal)%Q -> 0 <= bonusOf chal.
Proof.
  intros H. unfold bonusOf.
  assert (0 <= JSNum.floor (targetMeters chal / 1000)); [| lia].
  change 0 with (JSNum.floor 0). apply floor_mono.
  apply Qle_shift_div_l; [reflexivity | now rewrite Qmult_0_l].
Qed.

Lemma challengeStep_score_mono clk d now cid chal r :
  (0 <= targetMeters chal)%Q ->
  rider_score r <= rider_score (fst (challengeStep tz clk d now cid chal r)).
Proof.
  intros H. apply bonusOf_nonneg in H. rewrite challengeStep_eq. cbn zeta.
  destruct (windowKey _ _ _); [destruct (completesNow _ _ _ _) |]; cbn; lia.
Qed.

Lemma challengeLoop_score_mono clk d now entries :
  (forall cid chal, In (cid, chal) entries -> (0 <= targetMeters chal)%Q) ->
  forall r evs,
    rider_score r <=
    rider_score (fst (challengeLoop tz clk d now entries r evs)).
Proof.
  induction entries as [|[cid chal] rest IH]; intros Hpos r evs;
    cbn [challengeLoop]; [cbn; lia |].
  pose proof (challengeStep_score_mono clk d now cid chal r) as Hs.
  destruct (challengeStep tz clk d now cid chal r) as [r1 [evs1 | e]];
    cbn [fst] in Hs.
  - etransitivity; [apply Hs, (Hpos cid), in_eq |].
    apply IH. intros c ch Hin. eapply Hpos, in_cons, Hin.
  - cbn. apply Hs, (Hpos cid), in_eq.
Qed.

Lemma totalBonus_app evs1 evs2 :
  totalBonus (evs1 ++ evs2) = totalBonus evs1 + totalBonus evs2.
Proof.
  unfold totalBonus. induction evs1 as [|e evs1 IH]; cbn; [reflexivity |].
  cbn in IH. lia.
Qed.

(** The score grows by the bonuses of the events that one call returns. *)
Lemma challengeLoop_score_events clk d now entries :
  forall r evs0 r' evs',
    challengeLoop tz clk d now entries r evs0 = (r', Return evs') ->
    exists new,
      evs' = evs0 ++ new /\
      rider_score r' = rider_score r + totalBonus new.
Proof.
  induction entries as [|[cid chal] rest IH]; intros r evs0 r' evs' H;
    cbn [challengeLoop] in H.
  - injection H as <- <-. exists []. rewrite app_nil_r. cbn. split; [easy | lia].
  - rewrite challengeStep_eq in H. cbn zeta in H.
    destruct (windowKey _ _ _) as [key | e]; [| discriminate].
    destruct (completesNow _ _ _ _).
    + apply IH in H as (new & -> & Hs). cbn in Hs.
      exists (completionEvent cid (rider_id r) chal :: new). split.
      * now rewrite <- app_assoc.
      * unfold totalBonus in *. cbn. lia.
    + apply IH in H as (new & -> & Hs). cbn in Hs.
      exists new. now rewrite app_nil_r.
Qed.

Lemma eventsFor_app cid evs1 evs2 :
  eventsFor cid (evs1 ++ evs2) = eventsFor cid evs1 ++ eventsFor cid evs2.
Proof. unfold eventsFor. apply List.filter_app. Qed.

(** What one call does to the progress of one challenge and which events it
    returns for it; the entries have pairwise distinct keys, being the
    properties of one object. *)
Lemma challengeLoop_at clk d now cid entries :
  List.NoDup (List.map fst entries) ->
  forall r evs0 r' evs',
    challengeLoop tz clk d now entries r evs0 = (r', Return evs') ->
    (forall chal, In (cid, chal) entries ->
       exists key,
         windowKey tz (period chal) now = Return key /\
         let p0 := default freshProgress (rider_challenges r !! cid) in
         rider_challenges r' !! cid =
           Some (progressAfter (at_completed clk cid) d (targetMeters chal)
                               key p0) /\
         eventsFor cid evs' =
           eventsFor cid evs0 ++
           (if completesNow d (targetMeters chal) key p0
            then [completionEvent cid (rider_id r) chal] else [])) /\
    (~ In cid (List.map fst entries) ->
       rider_challenges r' !! cid = rider_challenges r !! cid /\
       eventsFor cid evs' = eventsFor cid evs0).
Proof.
  induction entries as [|[c0 ch0] rest IH]; intros Hnd r evs0 r' evs' H;
    cbn [challengeLoop] in H.
  - injection H as <- <-. split; [intros chal [] | auto].
  - cbn [List.map fst] in Hnd. apply List.NoDup_cons_iff in Hnd as [Hc0 Hnd].
    rewrite challengeStep_eq in H. cbn zeta in H.
    destruct (windowKey tz (period ch0) now) as [key | e] eqn:Hkey;
      [| discriminate].
    set (p0 := default freshProgress (rider_challenges r !! c0)) in *.
    set (p := progressAfter _ _ _ _ _) in *.
    assert (Hstep : exists r1 evs1,
               challengeLoop tz clk d now rest r1 (evs0 ++ evs1) =
                 (r', Return evs') /\
               rider_id r1 = rider_id r /\
               rider_challenges r1 = <[c0 := p]> (rider_challenges r) /\
               evs1 = (if completesNow d (targetMeters ch0) key p0
                       then [completionEvent c0 (rider_id r) ch0] else [])).
    { destruct (completesNow _ _ _ _); do 2 eexists;
        (split; [exact H | repeat split]). }
    clear H. destruct Hstep as (r1 & evs1 & H & Hid & Hch & Hevs).
    destruct (IH Hnd _ _ _ _ H) as [IHin IHout].
    destruct (String.eqb_spec c0 cid) as [-> | Hne].
    + destruct (IHout Hc0) as [Hl He]. split.
      * intros chal [E | Hin].
        -- injection E as ->. exists key. split; [exact Hkey |]. cbn zeta.
           fold p0 p. rewrite Hl, Hch, lookup_insert_eq.
           split; [reflexivity |].
           rewrite He, eventsFor_app, Hevs. f_equal.
           destruct (completesNow _ _ _ _); [| reflexivity].
           cbn. now rewrite String.eqb_refl.
        -- exfalso. apply Hc0. apply in_map_iff. now exists (cid, chal).
      * intros Hnot. exfalso. apply Hnot. now left.
    + assert (Hskip : eventsFor cid (evs0 ++ evs1) = eventsFor cid evs0).
      { rewrite eventsFor_app, Hevs.
        destruct (completesNow _ _ _ _); cbn; [| now rewrite app_nil_r].
        destruct (String.eqb_spec c0 cid); [contradiction |].
        now rewrite app_nil_r. }
      split.
      * intros chal [E | Hin]; [congruence |].
        destruct (IHin chal Hin) as (k & Hk & Hl & He).
        exists k. split; [exact Hk |]. cbn zeta in *.
        rewrite Hch, lookup_insert_ne in Hl by exact Hne.
        rewrite Hid, Hskip in He.
        rewrite Hch, lookup_insert_ne in He by exact Hne. auto.
      * intros Hnot. destruct IHout as [Hl He].
        { intros Hin. apply Hnot. now right. }
        rewrite Hch, lookup_insert_ne in Hl by exact Hne.
        rewrite Hskip in He. auto.
Qed.

End ChallengeFacts.




(** ** The position handler: rejected and stale samples *)

Section Handler.

Variable haversineMeters : Position -> Position -> Q.
Variable tz : Z.

Local Abbreviation handle := (handlePosition haversineMeters tz).


Lemma movedSince_stale last l ts :
  last = Some l -> ts <= last_ts l -> movedSince last ts = None.
Proof.
  intros -> Hle. unfold movedSince.
  destruct (Z.ltb_spec (last_ts l) ts); [lia |].
  now rewrite andb_false_r.
Qed.

Lemma movedSince_inv last ts l :
  movedSince last ts = Some l ->
  last = Some l /\ last_ts l <> 0 /\ last_ts l < ts.
Proof.
  unfold movedSince. destruct last as [l0|]; [| discriminate].
  destruct (Z.eqb_spec (last_ts l0) 0); cbn; [discriminate |].
  destruct (Z.ltb_spec (last_ts l0) ts); [| discriminate].
  intros [= ->]. auto.
Qed.



Lemma sameProgress_refl r : sameProgress r r.
Proof. repeat split; reflexivity. Qed.

Lemma sameProgress_trans r1 r2 r3 :
  sameProgress r1 r2 -> sameProgress r2 r3 -> sameProgress r1 r3.
Proof.
  unfold sameProgress. intros (?&?&?&?&?) (?&?&?&?&?).
  repeat split; congruence.
Qed.

(** A stale sample is accepted as a refresh of the last fix. *)
Lemma handle_stale clk payload D :
  staleFor D (clk, payload) ->
  exists id plat plon rider rider',
    p_id payload = Some id /\
    p_lat payload = Some plat /\ p_lon payload = Some plon /\
    riders D !! id = Some rider /\
    handle clk payload D =
      (set_riders (<[id := rider']> (riders D)) D, [],
       Return (accepted (rider_id rider))) /\
    sameProgress rider rider' /\
    rider_last rider' =
      Some {| last_lat := plat; last_lon := plon;
              last_ts := effectiveTs clk payload |}.
Proof.
  intros (id & plat & plon & rider & l & Hid & Hne & Hlat & Hlon & Hr & Hl & Hts).
  cbn [fst snd] in *.
  exists id, plat, plon, rider.
  exists (set_updatedAt (Some (at_commit clk))
            (set_last (Some {| last_lat := plat; last_lon := plon;
                               last_ts := effectiveTs clk payload |}) rider)).
  split; [exact Hid |].
  split; [exact Hlat | split; [exact Hlon | split; [exact Hr | split]]].
  - unfold handlePosition. rewrite Hlat, Hlon, Hid.
    destruct (String.eqb_spec id ""); [contradiction |].
    rewrite Hr, (movedSince_stale _ l _ Hl Hts). reflexivity.
  - split; [repeat split; reflexivity | reflexivity].
Qed.

(** C5, as the code has it.  Take any sequence of position samples in which
    every sample, when it arrives, carries a timestamp less than or equal to
    the one then stored in its rider's last fix.  Each of them is accepted,
    none is broadcast, and at the end every rider has the cumulative distance
    (and the score, badges, challenge progress and history) it had at the
    start: no distance is added and none is removed.  Such a sample becomes
    its rider's stored last fix, coordinates and timestamp. *)
Theorem stale_samples_add_no_distance
    (inputs : list (Clock * Payload)) (D : Data) :
  allStale haversineMeters tz inputs D ->
  let D' := fst (fst (run haversineMeters tz inputs D)) in
  let out := snd (fst (run haversineMeters tz inputs D)) in
  let acks := snd (run haversineMeters tz inputs D) in
  length acks = length inputs /\
  Forall isAccepted acks /\
  out = [] /\
  challenges D' = challenges D /\
  (forall id rider,
     riders D !! id = Some rider ->
     exists rider',
       riders D' !! id = Some rider' /\
       rider_distance rider' = rider_distance rider /\
       sameProgress rider rider') /\
  (forall clk payload rest,
     inputs = (clk, payload) :: rest ->
     exists id plat plon rider1,
       p_id payload = Some id /\
       p_lat payload = Some plat /\ p_lon payload = Some plon /\
       riders (fst (fst (handle clk payload D))) !! id = Some rider1 /\
       rider_last rider1 =
         Some {| last_lat := plat; last_lon := plon;
                 last_ts := effectiveTs clk payload |}).
Proof.
  revert D. induction inputs as [|[clk payload] rest IH]; intros D Hall.
  - cbn. repeat split; auto; [| intros ? ? ? [=]]. intros id rider Hr.
    exists rider. auto using sameProgress_refl.
  - destruct Hall as [Hst Hall]. cbn [fst snd] in Hall.
    destruct (handle_stale clk payload D Hst)
      as (id0 & plat & plon & r0 & r0' & Hid0 & Hlat0 & Hlon0 & Hr0 & Hh
          & Hsame & Hlast0).
    rewrite Hh in Hall. cbn [fst snd] in Hall.
    specialize (IH _ Hall). cbn [run]. rewrite Hh.
    destruct (run haversineMeters tz rest _) as [[D'' out'] acks'].
    cbn [fst snd] in *.
    destruct IH as (Hlen & Hacc & Hout & Hch & Hriders & _).
    split; [cbn; now rewrite Hlen |].
    split; [constructor; [eexists; reflexivity | exact Hacc] |].
    split; [exact Hout |]. split; [exact Hch |]. split.
    + intros id rider Hr.
      destruct (decide (id0 = id)) as [-> | Hne].
      * assert (rider = r0) by congruence. subst rider.
        destruct (Hriders id r0') as (r'' & Hr'' & _ & Hs'').
        { cbn. apply lookup_insert_eq. }
        exists r''. split; [exact Hr'' |].
        pose proof (sameProgress_trans _ _ _ Hsame Hs'') as Ht.
        split; [apply Ht | exact Ht].
      * destruct (Hriders id rider) as (r'' & Hr'' & Hd & Hs'').
        { cbn. rewrite lookup_insert_ne by exact Hne. exact Hr. }
        exists r''. auto.
    + intros clk' payload' rest' [= <- <- <-].
      exists id0, plat, plon, r0'. rewrite Hh. cbn [fst riders set_riders].
      rewrite lookup_insert_eq. auto.
Qed.

(** ** The position handler: samples that move the rider *)

(** [handlePosition] on a sample that passes the guard and the speed gate. *)
Lemma handle_moved clk payload D id plat plon rider l :
  p_id payload = Some id -> id <> ""%string ->
  p_lat payload = Some plat -> p_lon payload = Some plon ->
  riders D !! id = Some rider ->
  movedSince (rider_last rider) (effectiveTs clk payload) = Some l ->
  let ts := effectiveTs clk payload in
  let meters := haversineMeters {| lat := last_lat l; lon := last_lon l |}
                                {| lat := plat; lon := plon |} in
  JSNum.gtb (speedKmh meters ts (last_ts l)) MAX_SPEED_KMH = false ->
  handle clk payload D =
  let '(scored, award, newlyBadges) := scoreMove meters plat plon ts rider in
  match updateChallengesForRider tz clk (challenges D) scored meters ts with
  | (rider', Throw e) =>
      (set_riders (<[id := rider']> (riders D)) D, [], Throw e)
  | (rider', Return challengeEvents) =>
      commitFix clk D id rider' plat plon ts
        (rider_update (rider_id rider') (rider_name rider') plat plon
           (JSNum.round (rider_distance rider')) (rider_score rider')
         :: (if gameWorthy award newlyBadges challengeEvents
             then [game_event (rider_id rider') (rider_name rider')
                     (kmsGained award) (pointsGained award)
                     newlyBadges challengeEvents]
             else []))
  end.
Proof.
  intros Hid Hne Hlat Hlon Hr Hm. cbv zeta. intros Hspeed.
  unfold handlePosition. rewrite Hlat, Hlon, Hid.
  destruct (String.eqb_spec id ""); [contradiction |].
  rewrite Hr, Hm, Hspeed.
  unfold scoreMove. cbn [rider_distance rider_history set_distance set_history].
  destruct (awardPointsPerKm _ _ _) as [r3 award].
  destruct (checkAndAwardBadges _ _ _) as [r4 newly].
  reflexivity.
Qed.

Lemma awardPointsPerKm_closed rider prev new :
  let kms := Z.max 0 (JSNum.floor (new / 1000) - JSNum.floor (prev / 1000)) in
  awardPointsPerKm rider prev new =
  (set_score (rider_score rider + kms * 10) rider,
   {| kmsGained := kms; pointsGained := kms * 10 |}).
Proof.
  intros kms. unfold awardPointsPerKm, POINTS_PER_KM. fold kms.
  destruct (Z.eqb_spec (kms * 10) 0) as [E | E]; [| reflexivity].
  now rewrite E, Z.add_0_r, set_score_same.
Qed.

(** What [scoreMove] does to each property of the rider. *)
Lemma scoreMove_fields meters plat plon ts rider :
  let scored := fst (fst (scoreMove meters plat plon ts rider)) in
  let award := snd (fst (scoreMove meters plat plon ts rider)) in
  rider_id scored = rider_id rider /\
  rider_name scored = rider_name rider /\
  rider_last scored = rider_last rider /\
  rider_challenges scored = rider_challenges rider /\
  rider_suspicious scored = rider_suspicious rider /\
  rider_distance scored = (rider_distance rider + meters)%Q /\
  rider_score scored = rider_score rider + pointsGained award /\
  0 <= pointsGained award.
Proof.
  unfold scoreMove. cbv zeta.
  rewrite awardPointsPerKm_closed, checkAndAwardBadges_closed.
  cbn -[Z.mul Z.max Qdiv Qplus Qminus].
  repeat split; try reflexivity. lia.
Qed.

(** ** Monotonicity of distance and score *)

Lemma updateChallenges_frame clk entries r d ts :
  sameOutsideChallenges r
    (fst (updateChallengesForRider tz clk entries r d ts)).
Proof. apply challengeLoop_frame. Qed.

Lemma store_update_mono (D : Data) id0 r0 r0' :
  riders D !! id0 = Some r0 ->
  (rider_distance r0 <= rider_distance r0')%Q ->
  rider_score r0 <= rider_score r0' ->
  forall id rider,
    riders D !! id = Some rider ->
    exists rider',
      riders (set_riders (<[id0 := r0']> (riders D)) D) !! id = Some rider' /\
      (rider_distance rider <= rider_distance rider')%Q /\
      rider_score rider <= rider_score rider'.
Proof.
  intros H0 Hd Hs id rider Hr. cbn [riders set_riders].
  destruct (decide (id0 = id)) as [-> | Hne].
  - rewrite lookup_insert_eq. exists r0'.
    assert (rider = r0) by congruence. subst. auto.
  - rewrite lookup_insert_ne by exact Hne. exists rider.
    split; [exact Hr | split; [apply Qle_refl | lia]].
Qed.

Lemma handle_step_mono clk payload D :
  (forall a b, (0 <= haversineMeters a b)%Q) ->
  (forall cid chal, In (cid, chal) (challenges D) ->
                    (0 <= targetMeters chal)%Q) ->
  let D' := fst (fst (handle clk payload D)) in
  challenges D' = challenges D /\
  forall id rider,
    riders D !! id = Some rider ->
    exists rider',
      riders D' !! id = Some rider' /\
      (rider_distance rider <= rider_distance rider')%Q /\
      rider_score rider <= rider_score rider'.
Proof.
  intros Hhav Htargets.
  assert (Hsame : forall D0 : Data, D0 = D ->
            challenges D0 = challenges D /\
            forall id rider, riders D !! id = Some rider ->
              exists rider', riders D0 !! id = Some rider' /\
                (rider_distance rider <= rider_distance rider')%Q /\
                rider_score rider <= rider_score rider').
  { intros D0 ->. split; [reflexivity |]. intros id rider Hr. exists rider.
    split; [exact Hr | split; [apply Qle_refl | lia]]. }
  destruct (p_lat payload) as [plat|] eqn:Hlat;
    [| unfold handlePosition; rewrite Hlat; now apply Hsame].
  destruct (p_lon payload) as [plon|] eqn:Hlon;
    [| unfold handlePosition; rewrite Hlat, Hlon; now apply Hsame].
  destruct (p_id payload) as [id0|] eqn:Hid;
    [| unfold handlePosition; rewrite Hlat, Hlon, Hid; now apply Hsame].
  destruct (String.eqb_spec id0 "") as [E | Hne].
  { unfold handlePosition. rewrite Hlat, Hlon, Hid, E. now apply Hsame. }
  destruct (riders D !! id0) as [r0|] eqn:Hr0.
  2:{ unfold handlePosition. rewrite Hlat, Hlon, Hid.
      destruct (String.eqb_spec id0 ""); [contradiction |].
      rewrite Hr0. now apply Hsame. }
  destruct (movedSince (rider_last r0) (effectiveTs clk payload))
    as [l|] eqn:Hm.
  2:{ unfold handlePosition. rewrite Hlat, Hlon, Hid.
      destruct (String.eqb_spec id0 ""); [contradiction |].
      rewrite Hr0, Hm. cbn [commitFix fst]. split; [reflexivity |].
      apply (store_update_mono D id0 r0); [exact Hr0 | apply Qle_refl |].
      cbn. lia. }
  set (meters := haversineMeters {| lat := last_lat l; lon := last_lon l |}
                                 {| lat := plat; lon := plon |}).
  destruct (JSNum.gtb (speedKmh meters (effectiveTs clk payload) (last_ts l))
                      MAX_SPEED_KMH) eqn:Hspeed.
  { unfold handlePosition. rewrite Hlat, Hlon, Hid.
    destruct (String.eqb_spec id0 ""); [contradiction |].
    rewrite Hr0, Hm. fold meters. rewrite Hspeed. cbn [fst].
    split; [reflexivity |].
    apply (store_update_mono D id0 r0); [exact Hr0 | apply Qle_refl |].
    cbn. lia. }
  rewrite (handle_moved clk payload D id0 plat plon r0 l Hid Hne Hlat Hlon
             Hr0 Hm Hspeed).
  fold meters.
  pose proof (scoreMove_fields meters plat plon (effectiveTs clk payload) r0)
    as Hf. cbv zeta in Hf.
  destruct (scoreMove meters plat plon (effectiveTs clk payload) r0)
    as [[scored award] newly]. cbn [fst snd] in Hf.
  destruct Hf as (_ & _ & _ & _ & _ & Hdist & Hscore & Hpts).
  pose proof (updateChallenges_frame clk (challenges D) scored meters
                (effectiveTs clk payload)) as Hframe.
  pose proof (challengeLoop_score_mono tz clk meters
                (challengeNow clk (effectiveTs clk payload)) (challenges D)
                Htargets scored []) as Hmono.
  fold (updateChallengesForRider tz clk (challenges D) scored meters
          (effectiveTs clk payload)) in Hmono.
  destruct (updateChallengesForRider tz clk (challenges D) scored meters
              (effectiveTs clk payload)) as [r' [chev | e]];
    cbn [fst] in Hframe, Hmono;
    destruct Hframe as (_ & _ & _ & _ & Hd' & _);
    (split; [reflexivity |]);
    apply (store_update_mono D id0 r0); try exact Hr0; cbn;
    rewrite ?Hd', ?Hdist; try lia;
    rewrite <- (Qplus_0_r (rider_distance r0)) at 1;
    apply Qplus_le_r, Hhav.
Qed.

(** On finite numbers: provided distances are non-negative and challenge
    targets are non-negative, whatever sequence of position samples
    [handlePosition] processes (accepted, rejected, or cut short by an
    exception), every rider of the store is still there afterwards with a
    cumulative distance and a score at least as large as before. *)
Theorem distance_and_score_never_decrease
    (inputs : list (Clock * Payload)) (D : Data) :
  (forall a b, (0 <= haversineMeters a b)%Q) ->
  (forall cid chal, In (cid, chal) (challenges D) ->
                    (0 <= targetMeters chal)%Q) ->
  let D' := fst (fst (run haversineMeters tz inputs D)) in
  forall id rider,
    riders D !! id = Some rider ->
    exists rider',
      riders D' !! id = Some rider' /\
      (rider_distance rider <= rider_distance rider')%Q /\
      rider_score rider <= rider_score rider'.
Proof.
  intros Hhav. revert D.
  induction inputs as [|[clk payload] rest IH]; intros D Htargets.
  - cbn. intros id rider Hr. exists rider.
    split; [exact Hr | split; [apply Qle_refl | lia]].
  - cbn [run]. cbv zeta. intros id rider Hr.
    destruct (handle_step_mono clk payload D Hhav Htargets) as [Hch Hstep].
    destruct (Hstep id rider Hr) as (r1 & Hr1 & Hd1 & Hs1).
    destruct (handle clk payload D) as [[D1 out1] [a | e]]; cbn [fst] in *.
    + assert (Ht1 : forall cid chal, In (cid, chal) (challenges D1) ->
                                     (0 <= targetMeters chal)%Q)
        by (rewrite Hch; exact Htargets).
      destruct (IH D1 Ht1 id r1 Hr1) as (r2 & Hr2 & Hd2 & Hs2).
      destruct (run haversineMeters tz rest D1) as [[D2 out2] acks2].
      cbn [fst] in *. exists r2.
      split; [exact Hr2 | split; [eapply Qle_trans; eassumption | lia]].
    + exists r1. auto.
Qed.

(** ** Broadcasts *)

Lemma gameWorthy_iff award newly chev :
  gameWorthy award newly chev = true <->
  0 < kmsGained award \/ newly <> [] \/ chev <> [].
Proof.
  unfold gameWorthy. rewrite !orb_true_iff, andb_true_iff, !negb_true_iff.
  rewrite Z.ltb_lt, Z.eqb_neq, !Nat.eqb_neq.
  destruct newly, chev; cbn; split; intros H;
    repeat (destruct H as [H | H]); try tauto; try lia; try discriminate;
    auto; try (right; left; discriminate); try (right; right; discriminate).
Qed.

(** Every outcome of [handlePosition] that is not a throw, classified. *)
Lemma handle_returns clk payload D D' out ack :
  handle clk payload D = (D', out, Return ack) ->
  (exists reason, ack = rejected reason /\ out = []) \/
  (exists id plat plon rider,
     p_id payload = Some id /\ id <> ""%string /\
     p_lat payload = Some plat /\ p_lon payload = Some plon /\
     riders D !! id = Some rider /\
     ((movedSince (rider_last rider) (effectiveTs clk payload) = None /\
       handle clk payload D =
         commitFix clk D id rider plat plon (effectiveTs clk payload) [])
      \/
      (exists l,
         movedSince (rider_last rider) (effectiveTs clk payload) = Some l /\
         JSNum.gtb
           (speedKmh (haversineMeters
                        {| lat := last_lat l; lon := last_lon l |}
                        {| lat := plat; lon := plon |})
                     (effectiveTs clk payload) (last_ts l))
           MAX_SPEED_KMH = false))).
Proof.
  intros H.
  destruct (p_lat payload) as [plat|] eqn:Hlat;
    [| unfold handlePosition in H; rewrite Hlat in H; injection H as <- <- <-;
       left; eauto].
  destruct (p_lon payload) as [plon|] eqn:Hlon;
    [| unfold handlePosition in H; rewrite Hlat, Hlon in H;
       injection H as <- <- <-; left; eauto].
  destruct (p_id payload) as [id|] eqn:Hid;
    [| unfold handlePosition in H; rewrite Hlat, Hlon, Hid in H;
       injection H as <- <- <-; left; eauto].
  unfold handlePosition in H |- *. rewrite Hlat, Hlon, Hid in H |- *.
  destruct (String.eqb_spec id "") as [E | Hne];
    [injection H as <- <- <-; left; eauto |].
  destruct (riders D !! id) as [rider|] eqn:Hr;
    [| injection H as <- <- <-; left; eauto].
  destruct (movedSince (rider_last rider) (effectiveTs clk payload))
    as [l|] eqn:Hm.
  - destruct (JSNum.gtb _ MAX_SPEED_KMH) eqn:Hspeed.
    + injection H as <- <- <-. left. eauto.
    + right. exists id, plat, plon, rider.
      do 5 (split; [first [assumption | reflexivity] |]).
      right. exists l. auto.
  - right. exists id, plat, plon, rider.
    do 5 (split; [first [assumption | reflexivity] |]).
    left. auto.
Qed.

(** C3, as the code has it.  A rejected sample is never broadcast.  An
    accepted sample is broadcast exactly when it passed the guard
    [last && last.ts && ts > last.ts]: a rider's first sample and a sample
    whose timestamp is not after the stored one are accepted without any
    broadcast.  For a sample that passed the guard, the first message is the
    [rider_update] with the rider's id and name, the sample's coordinates and
    the rounded distance and the score that are now stored; it is followed by
    one [game_event] carrying the kilometres and points gained, the badges
    newly earned and the challenge events, if and only if a kilometre was
    gained or one of those two lists is non-empty, and by nothing
    otherwise. *)
Theorem broadcast_on_moved_samples (clk : Clock) (payload : Payload)
    (D D' : Data) (out : list Message) (ack : Ack) :
  handle clk payload D = (D', out, Return ack) ->
  match ack with
  | rejected _ => out = []
  | accepted _ =>
      exists id plat plon rider rider',
        p_id payload = Some id /\
        p_lat payload = Some plat /\ p_lon payload = Some plon /\
        riders D !! id = Some rider /\ riders D' !! id = Some rider' /\
        match movedSince (rider_last rider) (effectiveTs clk payload) with
        | None => out = []
        | Some l =>
            let ts := effectiveTs clk payload in
            let meters :=
              haversineMeters {| lat := last_lat l; lon := last_lon l |}
                              {| lat := plat; lon := plon |} in
            let scored := fst (fst (scoreMove meters plat plon ts rider)) in
            let award := snd (fst (scoreMove meters plat plon ts rider)) in
            let newly := snd (scoreMove meters plat plon ts rider) in
            exists final chev rest,
              updateChallengesForRider tz clk (challenges D) scored meters ts
                = (final, Return chev) /\
              rider_id rider' = rider_id rider /\
              rider_name rider' = rider_name rider /\
              rider_distance rider' = rider_distance final /\
              rider_score rider' = rider_score final /\
              out = rider_update (rider_id rider') (rider_name rider')
                      plat plon (JSNum.round (rider_distance rider'))
                      (rider_score rider') :: rest /\
              ((0 < kmsGained award \/ newly <> [] \/ chev <> []) ->
               rest = [game_event (rider_id rider') (rider_name rider')
                         (kmsGained award) (pointsGained award) newly chev]) /\
              (~ (0 < kmsGained award \/ newly <> [] \/ chev <> []) ->
               rest = [])
        end
  end.
Proof.
  intros H. destruct (handle_returns _ _ _ _ _ _ H) as
    [(reason & -> & ->) | (id & plat & plon & rider & Hid & Hne & Hlat & Hlon
                          & Hr & Hcase)]; [reflexivity |].
  destruct Hcase as [[Hm Hh] | (l & Hm & Hspeed)].
  - rewrite Hh in H. unfold commitFix in H. injection H as <- <- <-.
    exists id, plat, plon, rider. eexists.
    split; [exact Hid |]. split; [exact Hlat |]. split; [exact Hlon |].
    split; [exact Hr |].
    split; [cbn; apply lookup_insert_eq |]. now rewrite Hm.
  - rewrite (handle_moved clk payload D id plat plon rider l Hid Hne Hlat Hlon
               Hr Hm Hspeed) in H.
    set (meters := haversineMeters {| lat := last_lat l; lon := last_lon l |}
                                   {| lat := plat; lon := plon |}) in *.
    pose proof (scoreMove_fields meters plat plon (effectiveTs clk payload)
                  rider) as Hf.
    cbv zeta in Hf.
    destruct (scoreMove meters plat plon (effectiveTs clk payload) rider)
      as [[scored award] newly] eqn:Hscore. cbn [fst snd] in Hf.
    destruct Hf as (Hfid & Hfname & _).
    pose proof (updateChallenges_frame clk (challenges D) scored meters
                  (effectiveTs clk payload)) as Hframe.
    destruct (updateChallengesForRider tz clk (challenges D) scored meters
                (effectiveTs clk payload))
      as [final [chev | e]] eqn:Hupd; [| discriminate].
    cbn [fst] in Hframe. destruct Hframe as (Hid' & Hname' & _).
    unfold commitFix in H. injection H as <- <- <-.
    exists id, plat, plon, rider. eexists.
    split; [exact Hid |]. split; [exact Hlat |]. split; [exact Hlon |].
    split; [exact Hr |].
    split; [cbn; apply lookup_insert_eq |].
    rewrite Hm. cbv zeta. fold meters. rewrite Hscore. cbn [fst snd].
    exists final, chev. eexists.
    split; [exact Hupd |].
    cbn [rider_id rider_name rider_distance rider_score set_updatedAt
         set_last].
    split; [congruence |]. split; [congruence |].
    split; [reflexivity |]. split; [reflexivity |].
    split; [reflexivity |].
    pose proof (gameWorthy_iff award newly chev) as Hg.
    destruct (gameWorthy award newly chev).
    + split; [reflexivity |]. intros Hn. exfalso. apply Hn, Hg. reflexivity.
    + split; [| reflexivity]. intros Hy. apply Hg in Hy. discriminate.
Qed.

(** ** Challenge progress across one accepted sample *)

Lemma accepted_progress clk payload D D' out aid :
  List.NoDup (List.map fst (challenges D)) ->
  handle clk payload D = (D', out, Return (accepted aid)) ->
  exists id plat plon rider rider',
    p_id payload = Some id /\
    p_lat payload = Some plat /\ p_lon payload = Some plon /\
    riders D !! id = Some rider /\ riders D' !! id = Some rider' /\
    match movedSince (rider_last rider) (effectiveTs clk payload) with
    | None => rider_challenges rider' = rider_challenges rider
    | Some l =>
        let ts := effectiveTs clk payload in
        let meters :=
          haversineMeters {| lat := last_lat l; lon := last_lon l |}
                          {| lat := plat; lon := plon |} in
        forall cid chal,
          In (cid, chal) (challenges D) ->
          exists key,
            windowKey tz (period chal) (challengeNow clk ts) = Return key /\
            rider_challenges rider' !! cid =
              Some (progressAfter (at_completed clk cid) meters
                      (targetMeters chal) key
                      (default freshProgress (rider_challenges rider !! cid)))
    end.
Proof.
  intros Hnd H. destruct (handle_returns _ _ _ _ _ _ H) as
    [(reason & [=] & _) | (id & plat & plon & rider & Hid & Hne & Hlat & Hlon
                          & Hr & Hcase)].
  exists id, plat, plon, rider.
  destruct Hcase as [[Hm Hh] | (l & Hm & Hspeed)].
  - rewrite Hh in H. unfold commitFix in H. injection H as <- <- <-.
    eexists.
    split; [exact Hid |]. split; [exact Hlat |]. split; [exact Hlon |].
    split; [exact Hr |].
    split; [cbn; apply lookup_insert_eq |]. now rewrite Hm.
  - rewrite (handle_moved clk payload D id plat plon rider l Hid Hne Hlat Hlon
               Hr Hm Hspeed) in H.
    set (meters := haversineMeters {| lat := last_lat l; lon := last_lon l |}
                                   {| lat := plat; lon := plon |}) in *.
    pose proof (scoreMove_fields meters plat plon (effectiveTs clk payload)
                  rider) as Hf.
    cbv zeta in Hf.
    destruct (scoreMove meters plat plon (effectiveTs clk payload) rider)
      as [[scored award] newly] eqn:Hscore. cbn [fst snd] in Hf.
    destruct Hf as (_ & _ & _ & Hch & _).
    destruct (updateChallengesForRider tz clk (challenges D) scored meters
                (effectiveTs clk payload))
      as [final [chev | e]] eqn:Hupd; [| discriminate].
    unfold commitFix in H. injection H as <- <- <-.
    eexists.
    split; [exact Hid |]. split; [exact Hlat |]. split; [exact Hlon |].
    split; [exact Hr |].
    split; [cbn; apply lookup_insert_eq |].
    rewrite Hm. cbv zeta. fold meters. intros cid chal Hin.
    unfold updateChallengesForRider in Hupd.
    destruct (challengeLoop_at tz clk meters _ cid _ Hnd _ _ _ _ Hupd)
      as [Hat _].
    destruct (Hat chal Hin) as (key & Hkey & Hl & _).
    exists key. split; [exact Hkey |].
    cbn [rider_challenges set_updatedAt set_last]. rewrite Hl, Hch.
    reflexivity.
Qed.

Lemma rollover_same k p :
  lastReset p = Some k -> rollover (Some k) p = p.
Proof. intros E. unfold rollover. now rewrite bool_decide_eq_true_2. Qed.

Lemma rollover_new k p :
  lastReset p <> Some k -> rollover (Some k) p = resetProgress k p.
Proof. intros E. unfold rollover. now rewrite bool_decide_eq_false_2. Qed.

Lemma progressAfter_new_window at_ms d target k p0 :
  lastReset p0 <> Some k ->
  let p := progressAfter at_ms d target (Some k) p0 in
  lastReset p = Some k /\
  progressMeters p = (0 + d)%Q /\
  completed p = JSNum.geb (0 + d)%Q target.
Proof.
  intros Hne. unfold progressAfter, rollover.
  rewrite bool_decide_eq_false_2 by exact Hne.
  cbn [completed resetProgress addProgress progressMeters].
  destruct (JSNum.geb (0 + d)%Q target); cbn; auto.
Qed.

Lemma progressAfter_frozen at_ms d target key p0 :
  completed p0 = true ->
  (forall k, key = Some k -> lastReset p0 = Some k) ->
  progressAfter at_ms d target key p0 = p0.
Proof.
  intros Hc Hk. unfold progressAfter, rollover.
  destruct key as [k|].
  - rewrite bool_decide_eq_true_2 by (now apply Hk). now rewrite Hc.
  - now rewrite Hc.
Qed.

(** C4, as the code has it.  The rollover check runs for the accepted
    samples that passed the guard [last && last.ts && ts > last.ts], those
    of zero distance included: for each challenge whose computed window key
    [k] differs from the stored one (none stored counts as different), the
    progress afterwards is the one of a fresh window, [lastReset = k],
    [progressMeters = 0 + d] and [completed] exactly when that already
    reaches the target, where [d] is the distance of the sample.  For the
    other accepted samples (a rider's first one, and those whose timestamp
    is not after the stored one) no check runs: the rider's challenge
    progress is left as it was. *)
Theorem rollover_on_moved_samples (clk : Clock) (payload : Payload)
    (D D' : Data) (out : list Message) (aid : string) :
  List.NoDup (List.map fst (challenges D)) ->
  handle clk payload D = (D', out, Return (accepted aid)) ->
  exists id plat plon rider rider',
    p_id payload = Some id /\
    p_lat payload = Some plat /\ p_lon payload = Some plon /\
    riders D !! id = Some rider /\ riders D' !! id = Some rider' /\
    match movedSince (rider_last rider) (effectiveTs clk payload) with
    | None => rider_challenges rider' = rider_challenges rider
    | Some l =>
        let d := haversineMeters {| lat := last_lat l; lon := last_lon l |}
                                 {| lat := plat; lon := plon |} in
        forall cid chal k,
          In (cid, chal) (challenges D) ->
          windowKey tz (period chal)
                    (challengeNow clk (effectiveTs clk payload))
            = Return (Some k) ->
          lastReset (default freshProgress (rider_challenges rider !! cid))
            <> Some k ->
          exists p,
            rider_challenges rider' !! cid = Some p /\
            lastReset p = Some k /\
            progressMeters p = (0 + d)%Q /\
            completed p = JSNum.geb (0 + d)%Q (targetMeters chal)
    end.
Proof.
  intros Hnd H.
  destruct (accepted_progress _ _ _ _ _ _ Hnd H)
    as (id & plat & plon & rider & rider' & Hid & Hlat & Hlon & Hr & Hr' & Hp).
  exists id, plat, plon, rider, rider'.
  split; [exact Hid |]. split; [exact Hlat |]. split; [exact Hlon |].
  split; [exact Hr |]. split; [exact Hr' |].
  destruct (movedSince (rider_last rider) (effectiveTs clk payload)) as [l|];
    [| exact Hp].
  cbv zeta in *. intros cid chal k Hin Hkey Hdiff.
  destruct (Hp cid chal Hin) as (key & Hkey' & Hl).
  rewrite Hkey in Hkey'. injection Hkey' as <-.
  eexists. split; [exact Hl |].
  now apply progressAfter_new_window.
Qed.

(** C10. Whenever a sample is accepted while the stored progress of a
    challenge is completed and belongs to the window the sample falls in,
    that progress record is the same afterwards, [progressMeters] included:
    the distance of the sample is not added to it. *)
Theorem completed_progress_is_frozen (clk : Clock) (payload : Payload)
    (D D' : Data) (out : list Message) (aid id cid : string)
    (rider : Rider) (chal : Challenge) (p : Progress) :
  List.NoDup (List.map fst (challenges D)) ->
  handle clk payload D = (D', out, Return (accepted aid)) ->
  p_id payload = Some id ->
  riders D !! id = Some rider ->
  In (cid, chal) (challenges D) ->
  rider_challenges rider !! cid = Some p ->
  completed p = true ->
  (forall k,
     windowKey tz (period chal) (challengeNow clk (effectiveTs clk payload))
       = Return (Some k) ->
     lastReset p = Some k) ->
  exists rider',
    riders D' !! id = Some rider' /\
    rider_challenges rider' !! cid = Some p.
Proof.
  intros Hnd H Hid Hr Hin Hp Hc Hwin.
  destruct (accepted_progress _ _ _ _ _ _ Hnd H)
    as (id' & plat & plon & rider0 & rider' & Hid' & Hlat & Hlon & Hr0 & Hr'
        & Hprog).
  assert (id' = id) by congruence. subst id'.
  assert (rider0 = rider) by congruence. subst rider0.
  exists rider'. split; [exact Hr' |].
  destruct (movedSince (rider_last rider) (effectiveTs clk payload)) as [l|].
  - cbv zeta in Hprog. destruct (Hprog cid chal Hin) as (key & Hkey & Hl).
    rewrite Hl, Hp. cbn [default]. f_equal.
    apply progressAfter_frozen; [exact Hc |].
    intros k ->. now apply Hwin.
  - now rewrite Hprog.
Qed.

End Handler.

(** ** Completion of a challenge within one window *)

Section OneWindow.

Variable tz : Z.
Variable entries : list (string * Challenge).
Hypothesis entries_distinct : List.NoDup (List.map fst entries).
Variables (cid : string) (chal : Challenge) (k : string).
Hypothesis chal_listed : In (cid, chal) entries.

Lemma completedIn_dec stored : {completedIn k stored} + {~ completedIn k stored}.
Proof.
  destruct stored as [p|]; cbn; [| right; tauto].
  destruct (decide (lastReset p = Some k)), (completed p);
    first [left; tauto | right; intros [? ?]; congruence].
Qed.

(** One call in the window. *)
Lemma update_in_window clk d ts rider rider' evs :
  inWindow tz (period chal) k (clk, d, ts) ->
  updateChallengesForRider tz clk entries rider d ts = (rider', Return evs) ->
  let stored := rider_challenges rider !! cid in
  let stored' := rider_challenges rider' !! cid in
  rider_id rider' = rider_id rider /\
  rider_score rider' = rider_score rider + totalBonus evs /\
  (completedIn k stored ->
     stored' = stored /\ eventsFor cid evs = []) /\
  (~ completedIn k stored ->
     (completedIn k stored' /\
      eventsFor cid evs = [completionEvent cid (rider_id rider) chal]) \/
     (~ completedIn k stored' /\ eventsFor cid evs = [])).
Proof.
  intros Hwin Hupd. unfold inWindow in Hwin. cbn [fst snd] in Hwin.
  pose proof (updateChallenges_frame tz clk entries rider d ts) as Hframe.
  rewrite Hupd in Hframe. cbn [fst] in Hframe. destruct Hframe as (Hid & _).
  unfold updateChallengesForRider in Hupd.
  destruct (challengeLoop_score_events tz _ _ _ _ _ _ _ _ Hupd)
    as (new & Hnew & Hscore). cbn [app] in Hnew. subst new.
  destruct (challengeLoop_at tz clk d _ cid _ entries_distinct _ _ _ _ Hupd)
    as [Hat _].
  destruct (Hat chal chal_listed) as (key & Hkey & Hl & Hev).
  rewrite Hwin in Hkey. injection Hkey as <-. cbn [eventsFor List.filter app]
    in Hev. fold (eventsFor cid evs) in Hev. cbv zeta in *.
  split; [exact Hid |]. split; [exact Hscore |].
  rewrite Hl, Hev. clear Hl Hev Hupd Hat Hscore.
  unfold progressAfter, completesNow.
  destruct (rider_challenges rider !! cid) as [p|];
    cbn [default from_option id completedIn].
  - destruct (decide (lastReset p = Some k)) as [E | E].
    + rewrite (rollover_same k p E).
      destruct (completed p) eqn:Hc; cbn [negb andb].
      * split; [intros _; split; reflexivity |].
        intros Hn; exfalso; apply Hn; split; [exact E | reflexivity].
      * split; [intros [_ ?]; discriminate | intros _].
        cbn [addProgress progressMeters].
        destruct (JSNum.geb _ _); cbn; [left | right]; intuition congruence.
    + rewrite (rollover_new k p E).
      cbn [completed resetProgress negb andb addProgress progressMeters].
      split; [intros [? _]; contradiction | intros _].
      destruct (JSNum.geb _ _); cbn; [left | right]; intuition congruence.
  - rewrite (rollover_new k freshProgress) by discriminate.
    cbn [completed resetProgress negb andb addProgress progressMeters].
    split; [tauto | intros _].
    destruct (JSNum.geb _ _); cbn; [left | right]; intuition congruence.
Qed.

(** C7. Consider the successive calls of [updateChallengesForRider] for one
    rider on samples that all fall in one window of a challenge, and that all
    return.  Over the whole sequence at most one [challenge_completed] event
    is returned for that challenge; such an event carries the bonus
    [floor(targetMeters/1000) * 5] and the rider's id; the score grows by
    exactly the sum of the bonuses of the returned events.  If the stored
    progress was already completed in that window, no event is returned for
    the challenge and its progress stays as stored.  Otherwise the progress
    ends up completed in that window exactly when one event was returned. *)
Theorem completion_bonus_fires_once (samples : list (Clock * Q * Z))
    (rider rider' : Rider) (events : list ChallengeEvent) :
  Forall (inWindow tz (period chal) k) samples ->
  updateMany tz entries samples rider = (rider', Return events) ->
  let mine := eventsFor cid events in
  let stored := rider_challenges rider !! cid in
  let stored' := rider_challenges rider' !! cid in
  (length mine <= 1)%nat /\
  (forall e, In e mine ->
     bonusPoints e = Qfloor (targetMeters chal / 1000) * 5 /\
     challengeId e = cid /\ riderId e = rider_id rider) /\
  rider_score rider' = rider_score rider + totalBonus events /\
  (completedIn k stored -> mine = [] /\ stored' = stored) /\
  (~ completedIn k stored -> (completedIn k stored' <-> length mine = 1%nat)).
Proof.
  revert rider rider' events.
  induction samples as [|[[clk d] ts] rest IH]; intros rider rider' events
    Hall Hrun; cbn [updateMany] in Hrun.
  - injection Hrun as <- <-. cbn. repeat split; try tauto; try lia.
  - apply Forall_cons_iff in Hall as [Hwin Hall].
    destruct (updateChallengesForRider tz clk entries rider d ts)
      as [r1 [evs1 | e]] eqn:Hupd; [| discriminate].
    destruct (updateMany tz entries rest r1) as [r2 [evs2 | e]] eqn:Hrest;
      [| discriminate].
    injection Hrun as <- <-.
    destruct (update_in_window _ _ _ _ _ _ Hwin Hupd)
      as (Hid & Hscore & Hdone & Hfresh).
    destruct (IH _ _ _ Hall Hrest) as (Hlen & Hev & Hscore' & Hdone' & Hfresh').
    cbv zeta. rewrite eventsFor_app, totalBonus_app, length_app.
    destruct (completedIn_dec (rider_challenges rider !! cid)) as [Hc | Hc].
    + destruct (Hdone Hc) as [Hst Hno].
      rewrite Hst in Hdone'. destruct (Hdone' Hc) as [Hno' Hst'].
      rewrite Hno, Hno'. cbn. repeat split; try tauto; try lia.
    + destruct (Hfresh Hc) as [[Hc1 He1] | [Hc1 He1]].
      * destruct (Hdone' Hc1) as [Hno' Hst']. rewrite He1, Hno'. cbn.
        split; [lia |]. split.
        { intros e [<- | []]. cbn. auto. }
        split; [lia |]. split; [tauto |]. intros _.
        rewrite Hst'. tauto.
      * rewrite He1. cbn [app length Nat.add].
        split; [exact Hlen |]. split.
        { intros e He. destruct (Hev e He) as (? & ? & ?).
          repeat split; congruence. }
        split; [lia |]. split; [tauto |]. intros _. now apply Hfresh'.
Qed.

End OneWindow.

(** ** The engine on examples *)


Lemma defaultChallenges_distinct :
  List.NoDup (List.map fst defaultChallenges).
Proof.
  cbn. repeat (apply List.NoDup_cons; [cbn; intuition discriminate |]).
  apply List.NoDup_nil.
Qed.



Lemma stale_samples_add_no_distance_witness :
  let inputs := [(wallClock 3700000, position "r1" 50 3 2000);
                 (wallClock 3800000, position "r1" 50 3 1500)] in
  snd (fst (run gridMeters 0 inputs D2)) = [] /\
  exists rider',
    riders (fst (fst (run gridMeters 0 inputs D2))) !! "r1"%string
      = Some rider' /\
    rider_distance rider' = rider_distance (riderOf D2).
Proof.
  intros inputs.
  assert (Hall : allStale gridMeters 0 inputs D2).
  { split; [| split; [| exact I]].
    - exists "r1"%string, 50%Q, 3%Q, (riderOf D2), (lastOf D2).
      split; [reflexivity |]. split; [discriminate |].
      split; [reflexivity |]. split; [reflexivity |].
      split; [vm_compute; reflexivity |]. split; [vm_compute; reflexivity |].
      vm_compute. discriminate.
    - exists "r1"%string, 50%Q, 3%Q,
        (riderOf (fst (fst (handlePosition gridMeters 0 (wallClock 3700000)
                              (position "r1" 50 3 2000) D2)))),
        {| last_lat := 50; last_lon := 3; last_ts := 2000 |}.
      split; [reflexivity |]. split; [discriminate |].
      split; [reflexivity |]. split; [reflexivity |].
      split; [vm_compute; reflexivity |]. split; [vm_compute; reflexivity |].
      vm_compute. discriminate. }
  destruct (stale_samples_add_no_distance gridMeters 0 inputs D2 Hall)
    as (_ & _ & Hout & _ & Hriders & _).
  split; [exact Hout |].
  destruct (Hriders "r1"%string (riderOf D2)) as (rider' & Hr' & Hd & _);
    [vm_compute; reflexivity |].
  exists rider'. split; [exact Hr' | exact Hd].
Defined.

(** C5, counterexample.  The rider has sent [fix1] and [fix2], 1000 m apart,
    and the stored timestamp is the one of [fix2].  The same two samples
    arrive again: both are duplicates, and neither timestamp exceeds the
    stored one.  The first is accepted as a refresh and becomes the stored
    fix, timestamp included; the second is then later than the stored fix
    and its 1000 m are added a second time. *)
Lemma duplicates_are_counted_twice :
  rider_last (riderOf D2) =
    Some {| last_lat := 5001 # 100; last_lon := 3; last_ts := 3601000 |} /\
  (rider_distance (riderOf D2) == 1000)%Q /\
  effectiveTs (wallClock 3700000) fix1 <= 3601000 /\
  effectiveTs (wallClock 3800000) fix2 <= 3601000 /\
  snd (run gridMeters 0
         [(wallClock 3700000, fix1); (wallClock 3800000, fix2)] D2) =
    [Return (accepted "r1"); Return (accepted "r1")] /\
  rider_last
    (riderOf (fst (fst (run gridMeters 0 [(wallClock 3700000, fix1)] D2)))) =
    Some {| last_lat := 50; last_lon := 3; last_ts := 1000 |} /\
  (rider_distance
     (riderOf (fst (fst (run gridMeters 0
                           [(wallClock 3700000, fix1);
                            (wallClock 3800000, fix2)] D2)))) == 2000)%Q.
Proof. vm_compute. repeat split; first [reflexivity | discriminate]. Qed.

(** C3, counterexample.  A rider's first sample is accepted and nothing is
    broadcast; the same sample sent again (a duplicate refresh) is accepted
    and nothing is broadcast either. *)
Lemma first_fix_is_not_broadcast :
  handlePosition gridMeters 0 (wallClock 1000) fix1 D0 =
    (D1, [], Return (accepted "r1")) /\
  snd (handlePosition gridMeters 0 (wallClock 2000) fix1 D1) =
    Return (accepted "r1") /\
  snd (fst (handlePosition gridMeters 0 (wallClock 2000) fix1 D1)) = [].
Proof. vm_compute. repeat split; reflexivity. Qed.

Lemma broadcast_on_moved_samples_witness :
  let res := handlePosition gridMeters 0 (wallClock 3601000) fix2 D1 in
  exists rest,
    snd (fst res) =
      rider_update "r1" "Ana" (5001 # 100) 3
        (JSNum.round (rider_distance (riderOf (fst (fst res)))))
        (rider_score (riderOf (fst (fst res)))) :: rest.
Proof.
  intros res.
  pose proof (broadcast_on_moved_samples gridMeters 0 (wallClock 3601000)
                fix2 D1 (fst (fst res)) (snd (fst res)) (accepted "r1"))
    as H.
  destruct H as (id & plat & plon & rider & rider' & Hid & Hlat & Hlon & Hr
                 & Hr' & Hm).
  { vm_compute. reflexivity. }
  injection Hid as <-. injection Hlat as <-. injection Hlon as <-.
  assert (rider = riderOf D1) by (vm_compute in Hr; now injection Hr as <-).
  subst rider.
  assert (Hmv : movedSince (rider_last (riderOf D1))
                  (effectiveTs (wallClock 3601000) fix2) = Some (lastOf D1))
    by (vm_compute; reflexivity).
  rewrite Hmv in Hm. cbv zeta in Hm.
  destruct Hm as (final & chev & rest & _ & Hi & Hn & _ & _ & Hout & _).
  exists rest. rewrite Hout.
  assert (riderOf (fst (fst res)) = rider')
    by (unfold riderOf; now rewrite Hr').
  subst rider'. rewrite Hi, Hn. reflexivity.
Defined.

(** C4, counterexample.  The rider's daily progress is 100 m in the window
    of 2 January.  A sample stamped 1 January arrives: its window key differs
    from the stored one, it is accepted, and the progress is not reset: it
    is the same record as before. *)
Lemma stale_sample_skips_rollover :
  (progressMeters (dailyOf Dlate) == 100)%Q /\
  lastReset (dailyOf Dlate) = Some "1970-01-02"%string /\
  windowKey 0 "daily" (challengeNow (wallClock 86470000) 1000) =
    Return (Some "1970-01-01"%string) /\
  snd (handlePosition gridMeters 0 (wallClock 86470000) earlyFix Dlate) =
    Return (accepted "r1") /\
  dailyOf (fst (fst (handlePosition gridMeters 0 (wallClock 86470000)
                       earlyFix Dlate))) = dailyOf Dlate.
Proof. vm_compute. repeat split; reflexivity. Qed.

Lemma rollover_on_moved_samples_witness :
  let res := handlePosition gridMeters 0 (wallClock 3601000) fix2 D1 in
  exists p,
    rider_challenges (riderOf (fst (fst res))) !! "daily_1km"%string = Some p /\
    lastReset p = Some "1970-01-01"%string /\
    completed p = true.
Proof.
  intros res.
  destruct (rollover_on_moved_samples gridMeters 0 (wallClock 3601000) fix2
              D1 (fst (fst res)) (snd (fst res)) "r1")
    as (id & plat & plon & rider & rider' & Hid & Hlat & Hlon & Hr & Hr' & Hm).
  { exact defaultChallenges_distinct. }
  { vm_compute. reflexivity. }
  injection Hid as <-. injection Hlat as <-. injection Hlon as <-.
  assert (rider = riderOf D1) by (vm_compute in Hr; now injection Hr as <-).
  subst rider.
  assert (Hmv : movedSince (rider_last (riderOf D1))
                  (effectiveTs (wallClock 3601000) fix2) = Some (lastOf D1))
    by (vm_compute; reflexivity).
  rewrite Hmv in Hm. cbv zeta in Hm.
  destruct (Hm "daily_1km"%string daily_1km "1970-01-01"%string)
    as (p & Hp & Hk & _ & Hc).
  { vm_compute. left. reflexivity. }
  { vm_compute. reflexivity. }
  { vm_compute. discriminate. }
  exists p. unfold riderOf. rewrite Hr'. cbn [default].
  split; [exact Hp |]. split; [exact Hk |]. rewrite Hc. vm_compute. reflexivity.
Defined.

Lemma completed_progress_is_frozen_witness :
  let res := handlePosition gridMeters 0 (wallClock 7201000) fix4 D2 in
  exists rider',
    riders (fst (fst res)) !! "r1"%string = Some rider' /\
    rider_challenges rider' !! "daily_1km"%string = Some (dailyOf D2).
Proof.
  intros res.
  apply (completed_progress_is_frozen gridMeters 0 (wallClock 7201000) fix4
           D2 (fst (fst res)) (snd (fst res)) "r1" "r1" "daily_1km"
           (riderOf D2) daily_1km (dailyOf D2)).
  - exact defaultChallenges_distinct.
  - vm_compute. reflexivity.
  - reflexivity.
  - vm_compute. reflexivity.
  - vm_compute. left. reflexivity.
  - vm_compute. reflexivity.
  - vm_compute. reflexivity.
  - intros k Hk. vm_compute in Hk. injection Hk as <-. vm_compute. reflexivity.
Defined.

Lemma completion_bonus_fires_once_witness :
  let res := updateMany 0 defaultChallenges threeMoves (newRider "r1" "Ana") in
  exists events,
    snd res = Return events /\
    length (eventsFor "daily_1km" events) = 1%nat /\
    rider_score (fst res) = totalBonus events.
Proof.
  intros res.
  set (events := match snd res with Return evs => evs | Throw _ => [] end).
  assert (Hrun : updateMany 0 defaultChallenges threeMoves
                   (newRider "r1" "Ana") = (fst res, Return events))
    by (vm_compute; reflexivity).
  assert (Hwin : Forall (inWindow 0 (period daily_1km) "1970-01-01")
                        threeMoves)
    by (repeat constructor; vm_compute; reflexivity).
  destruct (completion_bonus_fires_once 0 defaultChallenges
              defaultChallenges_distinct "daily_1km" daily_1km "1970-01-01"
              (or_introl eq_refl) threeMoves (newRider "r1" "Ana") (fst res)
              events Hwin Hrun)
    as (_ & _ & Hscore & _ & Hfresh).
  exists events. split; [vm_compute; reflexivity |].
  split; [| rewrite Hscore; reflexivity].
  assert (Hnot : ~ completedIn "1970-01-01"
                     (rider_challenges (newRider "r1" "Ana")
                        !! "daily_1km"%string))
    by (vm_compute; tauto).
  destruct (Hfresh Hnot) as [Hto _]. apply Hto.
  vm_compute. split; reflexivity.
Defined.

(** ** Dates and window keys *)

Lemma eraCheckFrom_spec n :
  forall a, eraCheckFrom n a = true ->
  forall doe, a <= doe < a + Z.of_nat n -> eraCheck doe = true.
Proof.
  induction n as [|n IH]; intros a H doe Hdoe; [lia |].
  cbn [eraCheckFrom] in H. apply andb_true_iff in H as [Ha Hrest].
  destruct (Z.eq_dec doe a) as [-> | Hne]; [exact Ha |].
  apply (IH (a + 1)); [exact Hrest | lia].
Qed.

Lemma eraCheck_exhaustive : eraCheckFrom (Z.to_nat 146097) 0 = true.
Proof. vm_cast_no_check (eq_refl true). Qed.

Lemma eraCheck_all doe : 0 <= doe < 146097 -> eraCheck doe = true.
Proof.
  intros H. apply (eraCheckFrom_spec _ 0 eraCheck_exhaustive).
  rewrite Z2Nat.id; lia.
Qed.

Lemma eraDay_shift yoe m d n :
  JSDate.eraDay yoe m n = JSDate.eraDay yoe m d - d + n.
Proof. unfold JSDate.eraDay. lia. Qed.

(** The day number of the year and month of a day, with another day of
    month: that many days from the first of the month. *)
Lemma civil_dayNumber z n :
  let '(y, m, d) := JSDate.civil z in
  JSDate.dayNumber y m n = z - d + n.
Proof.
  unfold JSDate.civil.
  assert (Hr : 0 <= (z + 719468) mod 146097 < 146097)
    by (apply Z.mod_pos_bound; lia).
  pose proof (eraCheck_all _ Hr) as Hc. unfold eraCheck in Hc.
  destruct (JSDate.eraDate ((z + 719468) mod 146097)) as [[yoe m] d].
  apply andb_true_iff in Hc as [Hc Hday].
  apply andb_true_iff in Hc as [Hlo Hhi].
  apply Z.leb_le in Hlo, Hhi. apply Z.eqb_eq in Hday.
  unfold JSDate.dayNumber.
  replace (yoe + (z + 719468) / 146097 * 400 + (if m <=? 2 then 1 else 0)
           - (if m <=? 2 then 1 else 0))
    with (yoe + (z + 719468) / 146097 * 400) by lia.
  rewrite Z.div_add, Z.mod_add by lia.
  rewrite Z.div_small, Z.mod_small by lia.
  rewrite (eraDay_shift yoe m d n), Hday.
  pose proof (Z.div_mod (z + 719468) 146097). lia.
Qed.

Lemma Day_shift t n :
  JSDate.Day (t - n * JSDate.msPerDay) = JSDate.Day t - n.
Proof.
  unfold JSDate.Day.
  replace (t - n * JSDate.msPerDay) with (t + (- n) * JSDate.msPerDay) by lia.
  rewrite Z.div_add by (unfold JSDate.msPerDay; lia). lia.
Qed.

Lemma TimeWithinDay_shift t n :
  JSDate.TimeWithinDay (t - n * JSDate.msPerDay) = JSDate.TimeWithinDay t.
Proof.
  unfold JSDate.TimeWithinDay.
  replace (t - n * JSDate.msPerDay) with (t + (- n) * JSDate.msPerDay) by lia.
  apply Z.mod_add. unfold JSDate.msPerDay. lia.
Qed.

(** [d.setDate(d.getDate() - diff)] moves a valid date [diff] days back,
    whatever the host's offset. *)
Lemma setDate_back tz t diff :
  JSDate.setDate tz (Some t) (Some (JSDate.DateFromTime (t + tz) - diff)) =
  JSDate.TimeClip (t - diff * JSDate.msPerDay).
Proof.
  unfold JSDate.setDate, JSDate.LocalTime, JSDate.UTC, JSDate.MakeDate,
    JSDate.YearFromTime, JSDate.MonthFromTime, JSDate.DateFromTime.
  pose proof (civil_dayNumber (JSDate.Day (t + tz))) as H.
  destruct (JSDate.civil (JSDate.Day (t + tz))) as [[y m] d]. cbn [fst snd].
  rewrite H. f_equal.
  unfold JSDate.Day, JSDate.TimeWithinDay.
  pose proof (Z.div_mod (t + tz) JSDate.msPerDay).
  unfold JSDate.msPerDay in *. lia.
Qed.

(** The weekly key in closed form: the first ten characters of the ISO text
    of [weekStart], which throws when that instant is out of range. *)
Lemma weekly_key_closed tz t :
  windowKey tz "weekly" (Some t) =
  match JSDate.TimeClip (weekStart tz t) with
  | Some u => Return (Some (slice_0_10 (JSDate.isoString u)))
  | None => Throw RangeError
  end.
Proof.
  unfold windowKey. cbn [String.eqb Ascii.eqb Bool.eqb].
  cbn [JSDate.getDay JSDate.getDate fmap option_fmap option_map].
  unfold JSDate.LocalTime. rewrite setDate_back. fold (weekStart tz t).
  destruct (JSDate.TimeClip (weekStart tz t)); reflexivity.
Qed.

(** On a host whose local time is UTC, the weekly key of a timestamp is the
    daily key of the same time of day on the Monday on or before it. *)
Lemma weekly_key_on_utc_host t :
  let monday := weekStart 0 t in
  JSDate.WeekDay monday = 1 /\
  monday <= t < monday + 7 * JSDate.msPerDay /\
  JSDate.TimeWithinDay monday = JSDate.TimeWithinDay t /\
  (Z.abs monday <= JSDate.maxTime ->
   windowKey 0 "weekly" (Some t) = windowKey 0 "daily" (Some monday)).
Proof.
  cbv zeta. unfold weekStart. rewrite Z.add_0_r.
  set (diff := (JSDate.WeekDay t + 6) mod 7).
  assert (Hdiff : 0 <= diff < 7) by (apply Z.mod_pos_bound; lia).
  split; [| split; [| split]].
  - unfold JSDate.WeekDay at 1. rewrite Day_shift.
    subst diff. unfold JSDate.WeekDay.
    generalize (JSDate.Day t). intros n. Z.div_mod_to_equations. lia.
  - unfold JSDate.msPerDay. lia.
  - apply TimeWithinDay_shift.
  - intros Hvalid. rewrite weekly_key_closed. unfold weekStart.
    rewrite Z.add_0_r. fold diff. unfold JSDate.TimeClip.
    apply Z.leb_le in Hvalid. rewrite Hvalid. reflexivity.
Qed.

(** C6, the failing input.  The host is two hours east of UTC and the sample
    is stamped 2024-06-02T22:30:00Z, which is Monday 3 June, 00:30, on the
    host.  The weekly key is "2024-06-02", a Sunday: [getDay] sees the local
    Monday and steps back zero days, [toISOString] prints the UTC date.  The
    Monday on or before the timestamp is 27 May in UTC (the key on a UTC
    host) and 3 June on the host.  Two hours later the key is "2024-06-03",
    so the weekly progress is reset twice within those two hours. *)
Theorem weekly_key_depends_on_host_zone :
  let t := 1717367400000 in
  JSDate.isoString t = "2024-06-02T22:30:00.000Z"%string /\
  JSDate.WeekDay t = 0 /\
  windowKey 7200000 "weekly" (JSDate.newDate t) =
    Return (Some "2024-06-02"%string) /\
  windowKey 0 "weekly" (JSDate.newDate t) =
    Return (Some "2024-05-27"%string) /\
  windowKey 7200000 "weekly" (JSDate.newDate (t - 3600000)) =
    Return (Some "2024-05-27"%string) /\
  windowKey 7200000 "weekly" (JSDate.newDate (t + 7200000)) =
    Return (Some "2024-06-03"%string).
Proof. vm_compute. repeat split; reflexivity. Qed.

(** ** Stored timestamps *)

Section StoredTimestamps.

Variable haversineMeters : Position -> Position -> Q.
Variable tz : Z.

Lemma effectiveTs_nonzero clk payload :
  at_receive clk <> 0 -> effectiveTs clk payload <> 0.
Proof.
  intros H. unfold effectiveTs. destruct (p_ts payload) as [t|]; [| exact H].
  destruct (Z.eqb_spec t 0); assumption.
Qed.

(** What one call does to the store: nothing, or one rider is replaced,
    whose last fix is the old one or the sample. *)
Lemma handle_store clk payload D :
  let D' := fst (fst (handlePosition haversineMeters tz clk payload D)) in
  D' = D \/
  exists id rider rider',
    riders D !! id = Some rider /\
    D' = set_riders (<[id := rider']> (riders D)) D /\
    (rider_last rider' = rider_last rider \/
     exists plat plon,
       rider_last rider' =
         Some {| last_lat := plat; last_lon := plon;
                 last_ts := effectiveTs clk payload |}).
Proof.
  cbv zeta.
  destruct (p_lat payload) as [plat|] eqn:Hlat;
    [| unfold handlePosition; rewrite Hlat; now left].
  destruct (p_lon payload) as [plon|] eqn:Hlon;
    [| unfold handlePosition; rewrite Hlat, Hlon; now left].
  destruct (p_id payload) as [id|] eqn:Hid;
    [| unfold handlePosition; rewrite Hlat, Hlon, Hid; now left].
  destruct (String.eqb_spec id "") as [E | Hne].
  { unfold handlePosition. rewrite Hlat, Hlon, Hid, E. now left. }
  destruct (riders D !! id) as [rider|] eqn:Hr.
  2:{ unfold handlePosition. rewrite Hlat, Hlon, Hid.
      destruct (String.eqb_spec id ""); [contradiction |].
      rewrite Hr. now left. }
  right. exists id, rider.
  destruct (movedSince (rider_last rider) (effectiveTs clk payload))
    as [l|] eqn:Hm.
  2:{ unfold handlePosition. rewrite Hlat, Hlon, Hid.
      destruct (String.eqb_spec id ""); [contradiction |].
      rewrite Hr, Hm. cbn [commitFix fst]. eexists.
      split; [first [exact Hr | reflexivity] |]. split; [reflexivity |]. right.
      exists plat, plon. reflexivity. }
  set (meters := haversineMeters {| lat := last_lat l; lon := last_lon l |}
                                 {| lat := plat; lon := plon |}).
  destruct (JSNum.gtb (speedKmh meters (effectiveTs clk payload) (last_ts l))
                      MAX_SPEED_KMH) eqn:Hspeed.
  { unfold handlePosition. rewrite Hlat, Hlon, Hid.
    destruct (String.eqb_spec id ""); [contradiction |].
    rewrite Hr, Hm. fold meters. rewrite Hspeed. cbn [fst]. eexists.
    split; [first [exact Hr | reflexivity] |]. split; [reflexivity |]. left. reflexivity. }
  rewrite (handle_moved haversineMeters tz clk payload D id plat plon rider l
             Hid Hne Hlat Hlon Hr Hm Hspeed).
  fold meters.
  pose proof (scoreMove_fields meters plat plon (effectiveTs clk payload)
                rider) as Hf. cbv zeta in Hf.
  destruct (scoreMove meters plat plon (effectiveTs clk payload) rider)
    as [[scored award] newly]. cbn [fst snd] in Hf.
  destruct Hf as (_ & _ & Hlast & _).
  pose proof (updateChallenges_frame tz clk (challenges D) scored meters
                (effectiveTs clk payload)) as Hframe.
  destruct (updateChallengesForRider tz clk (challenges D) scored meters
              (effectiveTs clk payload)) as [r' [chev | e]];
    cbn [fst] in Hframe; destruct Hframe as (_ & _ & Hlast' & _).
  - cbn [commitFix fst]. eexists.
    split; [first [exact Hr | reflexivity] |]. split; [reflexivity |]. right.
    exists plat, plon. reflexivity.
  - cbn [fst]. exists r'.
    split; [first [exact Hr | reflexivity] |]. split; [reflexivity |]. left. congruence.
Qed.

(** Every timestamp that [handlePosition] stores is the sample's own
    non-zero timestamp or the reading of the clock: with a clock that never
    reads zero, no stored timestamp is zero. *)
Lemma stored_timestamps_nonzero clk payload D :
  at_receive clk <> 0 ->
  (forall id rider l,
     riders D !! id = Some rider -> rider_last rider = Some l ->
     last_ts l <> 0) ->
  forall id rider l,
    riders (fst (fst (handlePosition haversineMeters tz clk payload D))) !! id
      = Some rider ->
    rider_last rider = Some l ->
    last_ts l <> 0.
Proof.
  intros Hclk Hinv id rider l.
  destruct (handle_store clk payload D) as
    [-> | (id0 & r0 & r0' & Hr0 & -> & Hlast)]; [apply Hinv |].
  cbn [riders set_riders]. destruct (decide (id0 = id)) as [-> | Hne].
  - rewrite lookup_insert_eq. intros [= <-] Hl.
    destruct Hlast as [Hsame | (plat & plon & Hnew)].
    + apply (Hinv id r0 l Hr0). congruence.
    + rewrite Hnew in Hl. injection Hl as <-. cbn.
      now apply effectiveTs_nonzero.
  - rewrite lookup_insert_ne by exact Hne. apply Hinv.
Qed.

End StoredTimestamps.

(** On that host a rider rides 3000 m in the hour before Monday 00:30 local
    time and 100 m in the two hours after it.  The weekly progress is 3000 m
    under the key "2024-06-02" and then 100 m under the key "2024-06-03". *)
Example weekly_progress_on_host_east_of_utc :
  let t := 1717367400000 in
  let ride1 := [(wallClock (t - 3600000), position "r1" 50 3 (t - 3600000));
                (wallClock t, position "r1" (5003 # 100) 3 t)] in
  let ride2 := [(wallClock (t + 7200000),
                 position "r1" (50031 # 1000) 3 (t + 7200000))] in
  let weekly D :=
    default freshProgress
      (rider_challenges (riderOf D) !! "weekly_5km"%string) in
  let Da := fst (fst (run gridMeters 7200000 ride1 D0)) in
  let Db := fst (fst (run gridMeters 7200000 ride2 Da)) in
  lastReset (weekly Da) = Some "2024-06-02"%string /\
  (progressMeters (weekly Da) == 3000)%Q /\
  lastReset (weekly Db) = Some "2024-06-03"%string /\
  (progressMeters (weekly Db) == 100)%Q.
Proof. vm_compute. repeat split; reflexivity. Qed.

(** ** The daily key and the text of a date *)

(** For a year that prints with four digits, the daily key of a timestamp is
    the text YYYY-MM-DD of its UTC calendar date, whatever the host's
    offset. *)
Lemma daily_key_is_utc_date tz t :
  let '(y, m, d) := JSDate.civil (JSDate.Day t) in
  0 <= y <= 9999 ->
  windowKey tz "daily" (Some t) =
  Return (Some (JSDate.pad 4 y +:+ "-" +:+ JSDate.pad 2 m +:+ "-" +:+
                JSDate.pad 2 d)).
Proof.
  unfold windowKey, toISOString, JSDate.isoString, slice_0_10.
  cbn [String.eqb Ascii.eqb Bool.eqb].
  destruct (JSDate.civil (JSDate.Day t)) as [[y m] d]. intros Hy.
  unfold JSDate.isoYear.
  assert (Hin : (0 <=? y) && (y <=? 9999) = true)
    by (apply andb_true_iff; split; apply Z.leb_le; lia).
  rewrite Hin. reflexivity.
Qed.

(** ** Progress within a window *)

(** An iteration whose key is the stored one does not reset: an open
    progress accumulates the distance. *)
Lemma progressAfter_same_window at_ms d target k p0 :
  lastReset p0 = Some k -> completed p0 = false ->
  let p := progressAfter at_ms d target (Some k) p0 in
  lastReset p = Some k /\
  progressMeters p = (progressMeters p0 + d)%Q /\
  completed p = JSNum.geb (progressMeters p0 + d)%Q target.
Proof.
  intros Hk Hc. unfold progressAfter. rewrite (rollover_same k p0 Hk), Hc.
  cbn [addProgress progressMeters].
  destruct (JSNum.geb (progressMeters p0 + d)%Q target); cbn; auto.
Qed.

(** ** Badges across a run *)

Section BadgesAcrossRuns.

Variable haversineMeters : Position -> Position -> Q.
Variable tz : Z.

Lemma checkAndAwardBadges_badges rider prev new :
  let rider' := fst (checkAndAwardBadges rider prev new) in
  exists newly,
    rider_badges rider' = rider_badges rider ++ newly /\
    (List.NoDup (rider_badges rider) -> List.NoDup (rider_badges rider')).
Proof.
  rewrite checkAndAwardBadges_closed. cbn [fst rider_badges set_badges].
  eexists. split; [reflexivity |]. intros Hold.
  apply List.NoDup_app; [exact Hold | |].
  - apply newlyQualified_NoDup, badgeIds_distinct.
  - intros b Hb Hb'. apply in_map_iff in Hb' as (x & E & Hx).
    apply newlyQualified_In in Hx. subst b. tauto.
Qed.

Lemma scoreMove_badges meters plat plon ts rider :
  let scored := fst (fst (scoreMove meters plat plon ts rider)) in
  exists newly,
    rider_badges scored = rider_badges rider ++ newly /\
    (List.NoDup (rider_badges rider) -> List.NoDup (rider_badges scored)).
Proof.
  unfold scoreMove. cbv zeta.
  rewrite awardPointsPerKm_closed.
  set (r3 := set_score _ _).
  set (prev := (_ - meters)%Q). set (new := rider_distance _).
  destruct (checkAndAwardBadges_badges r3 prev new) as (newly & Heq & Hnd).
  destruct (checkAndAwardBadges r3 prev new) as [r4 newlyBadges].
  cbn [fst snd] in *. exists newly. auto.
Qed.

(** One call keeps every rider's badges and appends to them at most badges
    that keep the list free of duplicates. *)
Lemma handle_step_badges clk payload D :
  forall id rider,
    riders D !! id = Some rider ->
    exists rider' newly,
      riders (fst (fst (handlePosition haversineMeters tz clk payload D))) !! id
        = Some rider' /\
      rider_badges rider' = rider_badges rider ++ newly /\
      (List.NoDup (rider_badges rider) -> List.NoDup (rider_badges rider')).
Proof.
  intros id rider Hr.
  assert (Hsame : forall D0 : Data, D0 = D ->
            exists rider' newly, riders D0 !! id = Some rider' /\
              rider_badges rider' = rider_badges rider ++ newly /\
              (List.NoDup (rider_badges rider) ->
               List.NoDup (rider_badges rider'))).
  { intros D0 ->. exists rider, []. rewrite app_nil_r. auto. }
  assert (Hput : forall id0 r0 r0' newly,
            riders D !! id0 = Some r0 ->
            rider_badges r0' = rider_badges r0 ++ newly ->
            (List.NoDup (rider_badges r0) -> List.NoDup (rider_badges r0')) ->
            exists rider' newly',
              riders (set_riders (<[id0 := r0']> (riders D)) D) !! id
                = Some rider' /\
              rider_badges rider' = rider_badges rider ++ newly' /\
              (List.NoDup (rider_badges rider) ->
               List.NoDup (rider_badges rider'))).
  { intros id0 r0 r0' newly H0 Hb Hnd. cbn [riders set_riders].
    destruct (decide (id0 = id)) as [-> | Hne].
    - rewrite lookup_insert_eq. assert (r0 = rider) by congruence. subst r0.
      exists r0', newly. auto.
    - rewrite lookup_insert_ne by exact Hne. exists rider, [].
      rewrite app_nil_r. auto. }
  destruct (p_lat payload) as [plat|] eqn:Hlat;
    [| unfold handlePosition; rewrite Hlat; now apply Hsame].
  destruct (p_lon payload) as [plon|] eqn:Hlon;
    [| unfold handlePosition; rewrite Hlat, Hlon; now apply Hsame].
  destruct (p_id payload) as [id0|] eqn:Hid;
    [| unfold handlePosition; rewrite Hlat, Hlon, Hid; now apply Hsame].
  destruct (String.eqb_spec id0 "") as [E | Hne].
  { unfold handlePosition. rewrite Hlat, Hlon, Hid, E. now apply Hsame. }
  destruct (riders D !! id0) as [r0|] eqn:Hr0.
  2:{ unfold handlePosition. rewrite Hlat, Hlon, Hid.
      destruct (String.eqb_spec id0 ""); [contradiction |].
      rewrite Hr0. now apply Hsame. }
  destruct (movedSince (rider_last r0) (effectiveTs clk payload))
    as [l|] eqn:Hm.
  2:{ unfold handlePosition. rewrite Hlat, Hlon, Hid.
      destruct (String.eqb_spec id0 ""); [contradiction |].
      rewrite Hr0, Hm. cbn [commitFix fst].
      apply (Hput id0 r0 _ [] Hr0); cbn; [now rewrite app_nil_r | auto]. }
  set (meters := haversineMeters {| lat := last_lat l; lon := last_lon l |}
                                 {| lat := plat; lon := plon |}).
  destruct (JSNum.gtb (speedKmh meters (effectiveTs clk payload) (last_ts l))
                      MAX_SPEED_KMH) eqn:Hspeed.
  { unfold handlePosition. rewrite Hlat, Hlon, Hid.
    destruct (String.eqb_spec id0 ""); [contradiction |].
    rewrite Hr0, Hm. fold meters. rewrite Hspeed. cbn [fst].
    apply (Hput id0 r0 _ [] Hr0); cbn; [now rewrite app_nil_r | auto]. }
  rewrite (handle_moved haversineMeters tz clk payload D id0 plat plon r0 l
             Hid Hne Hlat Hlon Hr0 Hm Hspeed).
  fold meters.
  destruct (scoreMove_badges meters plat plon (effectiveTs clk payload) r0)
    as (newly & Hb & Hnd).
  destruct (scoreMove meters plat plon (effectiveTs clk payload) r0)
    as [[scored award] newlyBadges]. cbn [fst snd] in Hb.
  pose proof (updateChallenges_frame tz clk (challenges D) scored meters
                (effectiveTs clk payload)) as Hframe.
  destruct (updateChallengesForRider tz clk (challenges D) scored meters
              (effectiveTs clk payload)) as [r' [chev | e]];
    cbn [fst] in Hframe;
    destruct Hframe as (_ & _ & _ & _ & _ & Hb' & _);
    cbn [commitFix fst];
    apply (Hput id0 r0 _ newly Hr0); cbn; rewrite ?Hb'; auto.
Qed.

(** Over any run, a rider's badges only grow, and a list of badges without
    duplicates stays without duplicates: no badge is ever added twice. *)
Lemma badges_stay_distinct (inputs : list (Clock * Payload)) :
  forall D id rider,
    riders D !! id = Some rider ->
    exists rider' newly,
      riders (fst (fst (run haversineMeters tz inputs D))) !! id
        = Some rider' /\
      rider_badges rider' = rider_badges rider ++ newly /\
      (List.NoDup (rider_badges rider) -> List.NoDup (rider_badges rider')).
Proof.
  induction inputs as [|[clk payload] rest IH]; intros D id rider Hr.
  - cbn. exists rider, []. rewrite app_nil_r. auto.
  - cbn [run].
    destruct (handle_step_badges clk payload D id rider Hr)
      as (r1 & n1 & Hr1 & Hb1 & Hnd1).
    destruct (handlePosition haversineMeters tz clk payload D)
      as [[D1 out1] [a | e]]; cbn [fst] in *.
    + destruct (IH D1 id r1 Hr1) as (r2 & n2 & Hr2 & Hb2 & Hnd2).
      destruct (run haversineMeters tz rest D1) as [[D2 out2] acks2].
      cbn [fst] in *. exists r2, (n1 ++ n2).
      split; [exact Hr2 |]. split; [now rewrite Hb2, Hb1, app_assoc | auto].
    + exists r1, n1. auto.
Qed.

End BadgesAcrossRuns.

(** ** The position handler, case by case *)

Section HandlerCases.

Variable haversineMeters : Position -> Position -> Q.
Variable tz : Z.

Local Abbreviation handle := (handlePosition haversineMeters tz).

(** The five ways through [handlePosition]. *)
Lemma handle_cases clk payload D :
  (malformed payload /\
   handle clk payload D = (D, [], Return (rejected "invalid"))) \/
  exists id plat plon,
    p_id payload = Some id /\ id <> ""%string /\
    p_lat payload = Some plat /\ p_lon payload = Some plon /\
    ((riders D !! id = None /\
      handle clk payload D = (D, [], Return (rejected "unknown_rider"))) \/
     exists rider,
       riders D !! id = Some rider /\
       ((movedSince (rider_last rider) (effectiveTs clk payload) = None /\
         handle clk payload D =
           commitFix clk D id rider plat plon (effectiveTs clk payload) []) \/
        exists l,
          movedSince (rider_last rider) (effectiveTs clk payload) = Some l /\
          let meters :=
            haversineMeters {| lat := last_lat l; lon := last_lon l |}
                            {| lat := plat; lon := plon |} in
          let fast :=
            JSNum.gtb (speedKmh meters (effectiveTs clk payload) (last_ts l))
                      MAX_SPEED_KMH in
          (fast = true /\
           handle clk payload D =
             (set_riders
                (<[id := set_suspicious
                           (Some (default 0 (rider_suspicious rider) + 1))
                           rider]> (riders D)) D,
              [], Return (rejected "speed"))) \/
          (fast = false /\
           handle clk payload D =
             let '(scored, award, newlyBadges) :=
               scoreMove meters plat plon (effectiveTs clk payload) rider in
             match updateChallengesForRider tz clk (challenges D) scored
                     meters (effectiveTs clk payload) with
             | (rider', Throw e) =>
                 (set_riders (<[id := rider']> (riders D)) D, [], Throw e)
             | (rider', Return challengeEvents) =>
                 commitFix clk D id rider' plat plon (effectiveTs clk payload)
                   (rider_update (rider_id rider') (rider_name rider')
                      plat plon (JSNum.round (rider_distance rider'))
                      (rider_score rider')
                    :: (if gameWorthy award newlyBadges challengeEvents
                        then [game_event (rider_id rider') (rider_name rider')
                                (kmsGained award) (pointsGained award)
                                newlyBadges challengeEvents]
                        else []))
             end))).
Proof.
  unfold malformed.
  destruct (p_lat payload) as [plat|] eqn:Hlat;
    [| left; split; [auto | unfold handlePosition; now rewrite Hlat]].
  destruct (p_lon payload) as [plon|] eqn:Hlon;
    [| left; split; [auto | unfold handlePosition; now rewrite Hlat, Hlon]].
  destruct (p_id payload) as [id|] eqn:Hid;
    [| left; split; [auto | unfold handlePosition;
                            now rewrite Hlat, Hlon, Hid]].
  destruct (String.eqb_spec id "") as [E | Hne].
  { left. subst id. split; [auto |]. unfold handlePosition.
    now rewrite Hlat, Hlon, Hid. }
  right. exists id, plat, plon.
  do 4 (split; [first [reflexivity | assumption] |]).
  destruct (riders D !! id) as [rider|] eqn:Hr.
  2:{ left. split; [reflexivity |]. unfold handlePosition.
      rewrite Hlat, Hlon, Hid.
      destruct (String.eqb_spec id ""); [contradiction |]. now rewrite Hr. }
  right. exists rider. split; [reflexivity |].
  destruct (movedSince (rider_last rider) (effectiveTs clk payload))
    as [l|] eqn:Hm.
  2:{ left. split; [reflexivity |]. unfold handlePosition.
      rewrite Hlat, Hlon, Hid.
      destruct (String.eqb_spec id ""); [contradiction |].
      now rewrite Hr, Hm. }
  right. exists l. split; [reflexivity |]. cbv zeta.
  destruct (JSNum.gtb _ MAX_SPEED_KMH) eqn:Hspeed.
  - left. split; [reflexivity |]. unfold handlePosition.
    rewrite Hlat, Hlon, Hid.
    destruct (String.eqb_spec id ""); [contradiction |].
    now rewrite Hr, Hm, Hspeed.
  - right. split; [reflexivity |].
    apply (handle_moved haversineMeters tz clk payload D id plat plon rider l
             Hid Hne Hlat Hlon Hr Hm Hspeed).
Qed.

(** X1. [handlePosition] answers "invalid" exactly when [lat] or [lon] is
    not a number or [id] is missing or empty; it then leaves the store as it
    is and broadcasts nothing. *)
Theorem invalid_exactly_when_malformed (clk : Clock) (payload : Payload)
    (D : Data) :
  (snd (handle clk payload D) = Return (rejected "invalid") <->
   malformed payload) /\
  (malformed payload ->
   handle clk payload D = (D, [], Return (rejected "invalid"))).
Proof.
  destruct (handle_cases clk payload D) as
    [[Hbad Hh] | (id & plat & plon & Hid & Hne & Hlat & Hlon & Hcase)].
  - rewrite Hh. cbn. tauto.
  - assert (Hok : ~ malformed payload).
    { unfold malformed. rewrite Hid, Hlat, Hlon.
      intros [H | [H | [H | H]]]; try discriminate. injection H as ->.
      now apply Hne. }
    split; [| tauto]. split; [| tauto]. intros Hinv. exfalso.
    destruct Hcase as [[_ Hh] | (rider & _ & [[_ Hh] | (l & _ & Hsp)])].
    + rewrite Hh in Hinv. discriminate.
    + rewrite Hh in Hinv. discriminate.
    + cbv zeta in Hsp. destruct Hsp as [[_ Hh] | [_ Hh]];
        rewrite Hh in Hinv; [discriminate |].
      destruct (scoreMove _ _ _ _ _) as [[scored award] newly].
      destruct (updateChallengesForRider _ _ _ _ _ _) as [r' [chev | e]];
        discriminate.
Qed.

(** X2. For a well-formed payload whose id is not the name of an
    inherited property, [handlePosition] answers "unknown_rider" exactly
    when the store has no rider under the payload's id; it then leaves the
    store as it is, creating no rider, and broadcasts nothing. *)
Theorem unknown_rider_exactly_when_absent (clk : Clock) (payload : Payload)
    (D : Data) (id : string) :
  p_id payload = Some id -> ~ In id inheritedKeys -> ~ malformed payload ->
  (snd (handle clk payload D) = Return (rejected "unknown_rider") <->
   riders D !! id = None) /\
  (riders D !! id = None ->
   handle clk payload D = (D, [], Return (rejected "unknown_rider"))).
Proof.
  intros Hid _ Hok.
  destruct (handle_cases clk payload D) as
    [[Hbad _] | (id' & plat & plon & Hid' & Hne & Hlat & Hlon & Hcase)];
    [contradiction |].
  assert (id' = id) by congruence. subst id'.
  destruct Hcase as [[Hnone Hh] | (rider & Hr & Hrest)].
  - rewrite Hh. cbn. tauto.
  - rewrite Hr. split; [| discriminate]. split; [| discriminate].
    intros Hu. exfalso.
    destruct Hrest as [[_ Hh] | (l & _ & Hsp)].
    + rewrite Hh in Hu. discriminate.
    + cbv zeta in Hsp. destruct Hsp as [[_ Hh] | [_ Hh]];
        rewrite Hh in Hu; [discriminate |].
      destruct (scoreMove _ _ _ _ _) as [[scored award] newly].
      destruct (updateChallengesForRider _ _ _ _ _ _) as [r' [chev | e]];
        discriminate.
Qed.


(** X4. The first sample of a known rider (no previous fix) is accepted
    whatever its coordinates and timestamp: nothing is broadcast, the sample
    becomes the stored fix, and distance, score, badges, challenge progress
    and history stay as they were. *)
Theorem first_fix_is_accepted (clk : Clock) (payload : Payload) (D : Data)
    (id : string) (plat plon : Q) (rider : Rider) :
  p_id payload = Some id -> id <> ""%string ->
  p_lat payload = Some plat -> p_lon payload = Some plon ->
  riders D !! id = Some rider ->
  rider_last rider = None ->
  exists rider',
    handle clk payload D =
      (set_riders (<[id := rider']> (riders D)) D, [],
       Return (accepted (rider_id rider))) /\
    rider_last rider' =
      Some {| last_lat := plat; last_lon := plon;
              last_ts := effectiveTs clk payload |} /\
    rider_updatedAt rider' = Some (at_commit clk) /\
    sameProgress rider rider'.
Proof.
  intros Hid Hne Hlat Hlon Hr Hl.
  exists (set_updatedAt (Some (at_commit clk))
            (set_last (Some {| last_lat := plat; last_lon := plon;
                               last_ts := effectiveTs clk payload |}) rider)).
  split.
  - unfold handlePosition. rewrite Hlat, Hlon, Hid.
    destruct (String.eqb_spec id ""); [contradiction |].
    rewrite Hr, Hl. reflexivity.
  - cbn. repeat split; reflexivity.
Qed.

Lemma pushHistory_length e h :
  (length (pushHistory e h) <= Nat.max 200 (length h))%nat.
Proof.
  unfold pushHistory. rewrite length_app. cbn [length].
  destruct (Z.ltb_spec 200 (Z.of_nat (length h + 1))) as [Hbig | Hsmall].
  - destruct (h ++ [e]) as [|x t] eqn:E.
    + apply (f_equal (@length _)) in E. rewrite length_app in E. cbn in E. lia.
    + apply (f_equal (@length _)) in E. rewrite length_app in E. cbn in *. lia.
  - rewrite length_app. cbn. lia.
Qed.

Lemma sameIdentity_refl r : sameIdentity r r.
Proof. unfold sameIdentity. repeat split; lia. Qed.

Lemma scoreMove_identity meters plat plon ts rider :
  let scored := fst (fst (scoreMove meters plat plon ts rider)) in
  rider_id scored = rider_id rider /\ rider_name scored = rider_name rider /\
  rider_history scored =
    pushHistory {| h_lat := plat; h_lon := plon; h_ts := ts;
                   h_meters := JSNum.round meters |} (rider_history rider).
Proof.
  unfold scoreMove. cbv zeta.
  rewrite awardPointsPerKm_closed, checkAndAwardBadges_closed.
  cbn -[Z.mul Z.max Qdiv Qplus Qminus pushHistory]. auto.
Qed.

(** What one call does to the store: nothing, or one rider is replaced by a
    rider with the same id and name and a bounded history. *)
Lemma handle_step_identity clk payload D :
  let D' := fst (fst (handle clk payload D)) in
  challenges D' = challenges D /\
  (D' = D \/
   exists id rider rider',
     riders D !! id = Some rider /\
     D' = set_riders (<[id := rider']> (riders D)) D /\
     sameIdentity rider rider').
Proof.
  cbv zeta.
  destruct (handle_cases clk payload D) as
    [[_ Hh] | (id & plat & plon & Hid & Hne & Hlat & Hlon
               & [[_ Hh] | (rider & Hr & Hrest)])];
    [rewrite Hh; cbn; auto | rewrite Hh; cbn; auto |].
  destruct Hrest as [[_ Hh] | (l & _ & Hsp)].
  - rewrite Hh. cbn [commitFix fst]. split; [reflexivity |]. right.
    exists id, rider. eexists. split; [exact Hr |]. split; [reflexivity |].
    unfold sameIdentity. cbn. repeat split; lia.
  - cbv zeta in Hsp. destruct Hsp as [[_ Hh] | [_ Hh]]; rewrite Hh; clear Hh.
    + cbn [fst]. split; [reflexivity |]. right.
      exists id, rider. eexists. split; [exact Hr |]. split; [reflexivity |].
      unfold sameIdentity. cbn. repeat split; lia.
    + set (meters := haversineMeters _ _).
      pose proof (scoreMove_identity meters plat plon
                    (effectiveTs clk payload) rider) as Hs. cbv zeta in Hs.
      destruct (scoreMove meters plat plon (effectiveTs clk payload) rider)
        as [[scored award] newly]. cbn [fst snd] in Hs.
      destruct Hs as (Hi & Hn & Hh).
      pose proof (updateChallenges_frame tz clk (challenges D) scored meters
                    (effectiveTs clk payload)) as Hframe.
      destruct (updateChallengesForRider tz clk (challenges D) scored meters
                  (effectiveTs clk payload)) as [r' [chev | e]];
        cbn [fst] in Hframe; destruct Hframe as (Hi' & Hn' & _ & Hh' & _);
        cbn [commitFix fst]; (split; [reflexivity |]); right;
        exists id, rider; eexists; (split; [exact Hr |]);
        (split; [reflexivity |]); unfold sameIdentity; cbn;
        rewrite ?Hi', ?Hn', ?Hh', ?Hi, ?Hn, ?Hh;
        (split; [reflexivity |]); (split; [reflexivity |]);
        apply pushHistory_length.
Qed.

(** X5. A run of [handlePosition] never creates and never removes a rider,
    never changes a rider's id or name, and never changes the challenge
    definitions. *)
Theorem riders_are_neither_created_nor_removed
    (inputs : list (Clock * Payload)) (D : Data) :
  let D' := fst (fst (run haversineMeters tz inputs D)) in
  challenges D' = challenges D /\
  forall id,
    match riders D !! id with
    | None => riders D' !! id = None
    | Some rider =>
        exists rider',
          riders D' !! id = Some rider' /\
          rider_id rider' = rider_id rider /\
          rider_name rider' = rider_name rider
    end.
Proof.
  revert D. induction inputs as [|[clk payload] rest IH]; intros D.
  - cbn. split; [reflexivity |]. intros id.
    destruct (riders D !! id) as [r|]; eauto.
  - cbn [run]. cbv zeta.
    destruct (handle_step_identity clk payload D) as [Hch Hstep].
    assert (Hone : forall id,
              match riders D !! id with
              | None => riders (fst (fst (handle clk payload D))) !! id = None
              | Some rider =>
                  exists rider',
                    riders (fst (fst (handle clk payload D))) !! id
                      = Some rider' /\
                    rider_id rider' = rider_id rider /\
                    rider_name rider' = rider_name rider
              end).
    { intros id. destruct Hstep as [-> | (id0 & r0 & r0' & Hr0 & -> & Hs)].
      - destruct (riders D !! id) as [r|]; eauto.
      - cbn [riders set_riders]. destruct (decide (id0 = id)) as [-> | Hne].
        + rewrite Hr0, lookup_insert_eq. exists r0'.
          destruct Hs as (? & ? & _). auto.
        + rewrite lookup_insert_ne by exact Hne.
          destruct (riders D !! id) as [r|]; eauto. }
    clear Hstep.
    destruct (handle clk payload D) as [[D1 out1] [a | e]]; cbn [fst] in *.
    + specialize (IH D1). cbv zeta in IH. destruct IH as [Hch' IH].
      destruct (run haversineMeters tz rest D1) as [[D2 out2] acks2].
      cbn [fst] in *. split; [congruence |]. intros id.
      specialize (Hone id). specialize (IH id).
      destruct (riders D !! id) as [r|].
      * destruct Hone as (r1 & Hr1 & Hi1 & Hn1). rewrite Hr1 in IH.
        destruct IH as (r2 & Hr2 & Hi2 & Hn2). exists r2.
        split; [exact Hr2 | split; congruence].
      * now rewrite Hone in IH.
    + split; [exact Hch | exact Hone].
Qed.

(** X6. Over any run of [handlePosition], a rider's history never grows
    beyond 200 entries: if it held at most 200 entries before the run, it
    holds at most 200 after it. *)
Theorem history_stays_bounded (inputs : list (Clock * Payload)) (D : Data)
    (id : string) (rider : Rider) :
  riders D !! id = Some rider ->
  (length (rider_history rider) <= 200)%nat ->
  exists rider',
    riders (fst (fst (run haversineMeters tz inputs D))) !! id = Some rider' /\
    (length (rider_history rider') <= 200)%nat.
Proof.
  revert D rider. induction inputs as [|[clk payload] rest IH];
    intros D rider Hr Hlen.
  - cbn. eauto.
  - cbn [run].
    assert (Hone : exists r1,
              riders (fst (fst (handle clk payload D))) !! id = Some r1 /\
              (length (rider_history r1) <= 200)%nat).
    { destruct (handle_step_identity clk payload D)
        as [_ [-> | (id0 & r0 & r0' & Hr0 & -> & Hs)]]; [eauto |].
      cbn [riders set_riders]. destruct (decide (id0 = id)) as [-> | Hne].
      - rewrite lookup_insert_eq. exists r0'. split; [reflexivity |].
        assert (r0 = rider) by congruence. subst r0.
        destruct Hs as (_ & _ & Hb). lia.
      - rewrite lookup_insert_ne by exact Hne. eauto. }
    destruct Hone as (r1 & Hr1 & Hlen1).
    destruct (handle clk payload D) as [[D1 out1] [a | e]]; cbn [fst] in *.
    + destruct (IH D1 r1 Hr1 Hlen1) as (r2 & Hr2 & Hlen2).
      destruct (run haversineMeters tz rest D1) as [[D2 out2] acks2].
      cbn [fst] in *. eauto.
    + eauto.
Qed.



Lemma windowKey_invalid_date per :
  windowKey tz per None = Throw RangeError \/
  (windowKey tz per None = Return None /\
   per <> "daily"%string /\ per <> "weekly"%string).
Proof.
  unfold windowKey.
  destruct (String.eqb_spec per "daily"); [left; reflexivity |].
  destruct (String.eqb_spec per "weekly"); [left; reflexivity |].
  right. auto.
Qed.

Lemma challengeLoop_invalid_date clk d entries :
  (exists cid chal,
     In (cid, chal) entries /\
     (period chal = "daily"%string \/ period chal = "weekly"%string)) ->
  forall r evs,
    snd (challengeLoop tz clk d None entries r evs) = Throw RangeError.
Proof.
  induction entries as [|[c0 ch0] rest IH]; intros (cid & chal & Hin & Hper);
    [destruct Hin |].
  intros r evs. cbn [challengeLoop]. rewrite challengeStep_eq. cbv zeta.
  destruct (windowKey_invalid_date (period ch0)) as [Hk | (Hk & Hnd & Hnw)];
    rewrite Hk; [reflexivity |].
  assert (Hrest : exists cid chal,
             In (cid, chal) rest /\
             (period chal = "daily"%string \/ period chal = "weekly"%string)).
  { destruct Hin as [E | Hin]; [| eauto].
    injection E as -> ->. destruct Hper; contradiction. }
  destruct (completesNow _ _ _ _); apply (IH Hrest).
Qed.

(** X9. A sample that passed the guard and the speed gate, but whose
    timestamp lies outside the range of [Date] (more than 8.64e15 ms from
    the epoch), makes [handlePosition] throw a [RangeError] as soon as there
    is a daily or weekly challenge: nothing is broadcast and the last fix is
    not advanced, yet the distance of the move has already been added to the
    rider's cumulative distance. *)
Theorem out_of_range_timestamp_throws (clk : Clock) (payload : Payload)
    (D : Data) (id : string) (plat plon : Q) (rider : Rider) (l : LastFix) :
  p_id payload = Some id -> id <> ""%string ->
  p_lat payload = Some plat -> p_lon payload = Some plon ->
  riders D !! id = Some rider ->
  movedSince (rider_last rider) (effectiveTs clk payload) = Some l ->
  let ts := effectiveTs clk payload in
  let meters := haversineMeters {| lat := last_lat l; lon := last_lon l |}
                                {| lat := plat; lon := plon |} in
  JSNum.gtb (speedKmh meters ts (last_ts l)) MAX_SPEED_KMH = false ->
  JSDate.maxTime < Z.abs (if ts =? 0 then at_challenges clk else ts) ->
  (exists cid chal,
     In (cid, chal) (challenges D) /\
     (period chal = "daily"%string \/ period chal = "weekly"%string)) ->
  exists rider',
    handle clk payload D =
      (set_riders (<[id := rider']> (riders D)) D, [], Throw RangeError) /\
    rider_last rider' = rider_last rider /\
    rider_distance rider' = (rider_distance rider + meters)%Q.
Proof.
  intros Hid Hne Hlat Hlon Hr Hm ts meters Hspeed Hrange Hchal.
  rewrite (handle_moved haversineMeters tz clk payload D id plat plon rider l
             Hid Hne Hlat Hlon Hr Hm Hspeed).
  fold ts meters.
  pose proof (scoreMove_fields meters plat plon ts rider) as Hf.
  cbv zeta in Hf.
  destruct (scoreMove meters plat plon ts rider) as [[scored award] newly].
  cbn [fst snd] in Hf. destruct Hf as (_ & _ & Hlast & _ & _ & Hdist & _).
  pose proof (updateChallenges_frame tz clk (challenges D) scored meters ts)
    as Hframe.
  assert (Hthrow : snd (updateChallengesForRider tz clk (challenges D) scored
                          meters ts) = Throw RangeError).
  { unfold updateChallengesForRider.
    assert (Hnow : challengeNow clk ts = None).
    { unfold challengeNow, JSDate.newDate, JSDate.TimeClip.
      destruct (Z.leb_spec (Z.abs (if ts =? 0 then at_challenges clk else ts))
                           JSDate.maxTime); [lia | reflexivity]. }
    rewrite Hnow. now apply challengeLoop_invalid_date. }
  destruct (updateChallengesForRider tz clk (challenges D) scored meters ts)
    as [r' [chev | e]]; cbn [fst snd] in *; [discriminate |].
  injection Hthrow as ->. destruct Hframe as (_ & _ & Hlast' & _ & Hd' & _).
  exists r'. split; [reflexivity |]. split; congruence.
Qed.

Lemma progressAfter_settled at_ms d target key p0 :
  settled target p0 ->
  settled target (progressAfter at_ms d target key p0).
Proof.
  unfold settled, progressAfter. cbv zeta. intros H0.
  assert (H1 : completed (rollover key p0) = true ->
               (target <= progressMeters (rollover key p0))%Q).
  { unfold rollover. destruct key as [k |]; [| apply H0].
    destruct (bool_decide _); [apply H0 | discriminate]. }
  destruct (completed (rollover key p0)) eqn:Hc; [tauto |].
  destruct (JSNum.geb _ _) eqn:Hg.
  - apply geb_ge in Hg. cbn in *. tauto.
  - cbn [addProgress completed progressMeters] in *. rewrite Hc.
    split; [discriminate |]. intros Hle. apply geb_ge in Hle. congruence.
Qed.

Lemma freshProgress_settled target :
  (0 < target)%Q -> settled target freshProgress.
Proof.
  intros Hpos. unfold settled. cbn. split; [discriminate |].
  intros Hle. exfalso. apply (Qlt_not_le _ _ Hpos Hle).
Qed.

Lemma challengeStep_settled clk d now entries c0 ch0 r :
  List.NoDup (List.map fst entries) ->
  (forall cid chal, In (cid, chal) entries -> (0 < targetMeters chal)%Q) ->
  In (c0, ch0) entries ->
  challengesSettled entries r ->
  challengesSettled entries (fst (challengeStep tz clk d now c0 ch0 r)).
Proof.
  intros Hnd Hpos Hin Hr.
  assert (H0 : settled (targetMeters ch0)
                 (default freshProgress (rider_challenges r !! c0))).
  { destruct (rider_challenges r !! c0) as [p |] eqn:E; cbn.
    - apply (Hr c0 ch0 p Hin E).
    - apply freshProgress_settled, (Hpos c0), Hin. }
  assert (Hput : forall p r0,
            rider_challenges r0 = <[c0 := p]> (rider_challenges r) ->
            settled (targetMeters ch0) p -> challengesSettled entries r0).
  { intros p r0 E Hp cid chal q Hc Hq. rewrite E in Hq.
    destruct (decide (c0 = cid)) as [-> | Hne].
    - rewrite lookup_insert_eq in Hq. injection Hq as <-.
      assert (chal = ch0) as ->; [| exact Hp].
      clear - Hnd Hin Hc. induction entries as [|[c e] rest IH]; [destruct Hin |].
      cbn [List.map fst] in Hnd. apply List.NoDup_cons_iff in Hnd as [Hn Hnd].
      destruct Hin as [E1 | Hin], Hc as [E2 | Hc].
      + congruence.
      + injection E1 as -> ->. exfalso. apply Hn.
        apply (in_map fst _ _ Hc).
      + injection E2 as -> ->. exfalso. apply Hn.
        apply (in_map fst _ _ Hin).
      + now apply IH.
    - rewrite lookup_insert_ne in Hq by exact Hne. apply (Hr cid chal q Hc Hq). }
  rewrite challengeStep_eq. cbv zeta.
  destruct (windowKey tz (period ch0) now) as [key | e]; cbn [fst].
  - destruct (completesNow _ _ _ _); cbn [fst];
      (eapply Hput; [reflexivity | now apply progressAfter_settled]).
  - eapply Hput; [reflexivity | exact H0].
Qed.

Lemma challengeLoop_settled clk d now entries :
  List.NoDup (List.map fst entries) ->
  (forall cid chal, In (cid, chal) entries -> (0 < targetMeters chal)%Q) ->
  forall todo r evs,
    incl todo entries ->
    challengesSettled entries r ->
    challengesSettled entries (fst (challengeLoop tz clk d now todo r evs)).
Proof.
  intros Hnd Hpos. induction todo as [|[c0 ch0] rest IH]; intros r evs Hsub Hr;
    cbn [challengeLoop]; [exact Hr |].
  pose proof (challengeStep_settled clk d now entries c0 ch0 r Hnd Hpos
                (Hsub _ (in_eq _ _)) Hr) as Hs.
  destruct (challengeStep tz clk d now c0 ch0 r) as [r1 [evs1 | e]];
    cbn [fst] in *; [| exact Hs].
  apply IH; [| exact Hs]. intros x Hx. apply Hsub, in_cons, Hx.
Qed.

Lemma handle_step_settled clk payload D :
  List.NoDup (List.map fst (challenges D)) ->
  (forall cid chal, In (cid, chal) (challenges D) ->
                    (0 < targetMeters chal)%Q) ->
  storeSettled D -> storeSettled (fst (fst (handle clk payload D))).
Proof.
  intros Hnd Hpos HD.
  assert (Hput : forall id0 r0 r0',
            riders D !! id0 = Some r0 ->
            (challengesSettled (challenges D) r0 ->
             challengesSettled (challenges D) r0') ->
            storeSettled (set_riders (<[id0 := r0']> (riders D)) D)).
  { intros id0 r0 r0' H0 Himp id r. cbn [riders set_riders challenges].
    destruct (decide (id0 = id)) as [-> | Hne].
    - rewrite lookup_insert_eq. intros [= <-]. apply Himp, (HD id r0 H0).
    - rewrite lookup_insert_ne by exact Hne. apply HD. }
  destruct (handle_cases clk payload D) as
    [[_ Hh] | (id0 & plat & plon & Hid & Hne & Hlat & Hlon
               & [[_ Hh] | (r0 & Hr0 & Hrest)])];
    [rewrite Hh; exact HD | rewrite Hh; exact HD |].
  destruct Hrest as [[_ Hh] | (l & _ & Hsp)].
  - rewrite Hh. cbn [commitFix fst]. apply (Hput id0 r0 _ Hr0). auto.
  - cbv zeta in Hsp. destruct Hsp as [[_ Hh] | [_ Hh]]; rewrite Hh; clear Hh.
    + cbn [fst]. apply (Hput id0 r0 _ Hr0). auto.
    + set (meters := haversineMeters _ _).
      pose proof (scoreMove_fields meters plat plon
                    (effectiveTs clk payload) r0) as Hf.
      cbv zeta in Hf.
      destruct (scoreMove meters plat plon (effectiveTs clk payload) r0)
        as [[scored award] newly]. cbn [fst snd] in Hf.
      destruct Hf as (_ & _ & _ & Hch & _).
      pose proof (challengeLoop_settled clk meters
                    (challengeNow clk (effectiveTs clk payload))
                    (challenges D) Hnd Hpos (challenges D) scored []
                    (incl_refl _)) as Hloop.
      fold (updateChallengesForRider tz clk (challenges D) scored meters
              (effectiveTs clk payload)) in Hloop.
      destruct (updateChallengesForRider tz clk (challenges D) scored meters
                  (effectiveTs clk payload)) as [r' [chev | e]];
        cbn [fst] in Hloop; cbn [commitFix fst];
        apply (Hput id0 r0 _ Hr0); intros H0; apply Hloop;
        unfold challengesSettled; rewrite Hch; exact H0.
Qed.

(** X10. With distinct challenge ids and positive targets, the store keeps
    every progress record settled over any run of [handlePosition], also
    across window roll-overs and thrown errors: a challenge is flagged
    completed exactly when its recorded progress has reached the target. *)
Theorem completed_flag_tracks_target (inputs : list (Clock * Payload))
    (D : Data) :
  List.NoDup (List.map fst (challenges D)) ->
  (forall cid chal, In (cid, chal) (challenges D) ->
                    (0 < targetMeters chal)%Q) ->
  storeSettled D ->
  storeSettled (fst (fst (run haversineMeters tz inputs D))).
Proof.
  revert D. induction inputs as [|[clk payload] rest IH]; intros D Hnd Hpos HD.
  - exact HD.
  - cbn [run].
    pose proof (handle_step_settled clk payload D Hnd Hpos HD) as H1.
    destruct (handle_step_identity clk payload D) as [Hch _].
    destruct (handle clk payload D) as [[D1 out1] [a | e]]; cbn [fst] in *.
    + rewrite <- Hch in Hnd, Hpos. specialize (IH D1 Hnd Hpos H1).
      destruct (run haversineMeters tz rest D1) as [[D2 out2] acks2].
      exact IH.
    + exact H1.
Qed.

End HandlerCases.

(** ** The handler on examples *)

Lemma defaultChallenges_positive cid chal :
  In (cid, chal) defaultChallenges -> (0 < targetMeters chal)%Q.
Proof.
  cbn. intros [[= <- <-] | [[= <- <-] | []]]; reflexivity.
Qed.

Lemma D0_settled : storeSettled D0.
Proof.
  intros id r Hr cid chal p _ Hp.
  unfold D0 in Hr. cbn [riders] in Hr.
  apply lookup_singleton_Some in Hr as [_ <-]. cbn in Hp.
  rewrite lookup_empty in Hp. discriminate.
Qed.

Lemma unknown_rider_exactly_when_absent_witness :
  handlePosition gridMeters 0 (wallClock 1000) (position "r9" 50 3 1000) D0
    = (D0, [], Return (rejected "unknown_rider")).
Proof.
  apply (unknown_rider_exactly_when_absent gridMeters 0 (wallClock 1000)
           (position "r9" 50 3 1000) D0 "r9").
  - reflexivity.
  - cbn. intuition discriminate.
  - unfold malformed. cbn. intros [H | [H | [H | H]]]; discriminate.
  - vm_compute. reflexivity.
Defined.


Lemma first_fix_is_accepted_witness :
  exists rider',
    handlePosition gridMeters 0 (wallClock 1000) fix1 D0 =
      (set_riders (<["r1"%string := rider']> (riders D0)) D0, [],
       Return (accepted "r1")) /\
    rider_last rider' =
      Some {| last_lat := 50; last_lon := 3; last_ts := 1000 |}.
Proof.
  destruct (first_fix_is_accepted gridMeters 0 (wallClock 1000) fix1 D0 "r1"
              50 3 (newRider "r1" "Ana"))
    as (rider' & H & Hl & _).
  - reflexivity.
  - discriminate.
  - reflexivity.
  - reflexivity.
  - vm_compute. reflexivity.
  - reflexivity.
  - exists rider'. split; [exact H | exact Hl].
Defined.

Lemma history_stays_bounded_witness :
  exists rider',
    riders
      (fst (fst (run gridMeters 0
                   [(wallClock 1000, fix1); (wallClock 3601000, fix2);
                    (wallClock 7201000, fix4)] D0))) !! "r1"%string
      = Some rider' /\
    (length (rider_history rider') <= 200)%nat.
Proof.
  apply (history_stays_bounded gridMeters 0
           [(wallClock 1000, fix1); (wallClock 3601000, fix2);
            (wallClock 7201000, fix4)] D0 "r1"%string (newRider "r1" "Ana")).
  - vm_compute. reflexivity.
  - cbn. lia.
Defined.



Lemma out_of_range_timestamp_throws_witness :
  exists rider',
    handlePosition gridMeters 0 (wallClock 2000)
      (position "r1" (5001 # 100) 3 8640000000000001) D1 =
      (set_riders (<["r1"%string := rider']> (riders D1)) D1, [],
       Throw RangeError) /\
    rider_last rider' = rider_last (riderOf D1).
Proof.
  destruct (out_of_range_timestamp_throws gridMeters 0 (wallClock 2000)
              (position "r1" (5001 # 100) 3 8640000000000001) D1 "r1"
              (5001 # 100) 3 (riderOf D1) (lastOf D1))
    as (rider' & H & Hl & _).
  - reflexivity.
  - discriminate.
  - reflexivity.
  - reflexivity.
  - vm_compute. reflexivity.
  - vm_compute. reflexivity.
  - vm_compute. reflexivity.
  - vm_compute. reflexivity.
  - exists "daily_1km"%string, daily_1km. split; [left; reflexivity |].
    left. reflexivity.
  - exists rider'. split; [exact H | exact Hl].
Defined.

Lemma completed_flag_tracks_target_witness :
  storeSettled
    (fst (fst (run gridMeters 0
                 [(wallClock 1000, fix1); (wallClock 3601000, fix2);
                  (wallClock 7201000, fix4)] D0))).
Proof.
  apply (completed_flag_tracks_target gridMeters 0
           [(wallClock 1000, fix1); (wallClock 3601000, fix2);
            (wallClock 7201000, fix4)] D0
           defaultChallenges_distinct defaultChallenges_positive D0_settled).
Defined.

(** ** Default challenges *)

Lemma hasChallenge_In cid entries :
  hasChallenge cid entries = true <-> In cid (List.map fst entries).
Proof.
  unfold hasChallenge. rewrite existsb_exists, in_map_iff.
  split; intros (e & H1 & H2).
  - apply String.eqb_eq in H2. eauto.
  - exists e. split; [exact H2 |]. now apply String.eqb_eq.
Qed.

Lemma ensureChallenge_cases cid chal entries :
  (In cid (List.map fst entries) /\ ensureChallenge cid chal entries = entries)
  \/
  (~ In cid (List.map fst entries) /\
   ensureChallenge cid chal entries = entries ++ [(cid, chal)]).
Proof.
  unfold ensureChallenge.
  destruct (hasChallenge cid entries) eqn:E.
  - left. split; [now apply hasChallenge_In | reflexivity].
  - right. split; [| reflexivity].
    rewrite <- hasChallenge_In, E. discriminate.
Qed.

Lemma ensureChallenge_keys cid chal entries :
  In cid (List.map fst (ensureChallenge cid chal entries)) /\
  (forall c, In c (List.map fst entries) ->
             In c (List.map fst (ensureChallenge cid chal entries))) /\
  (List.NoDup (List.map fst entries) ->
   List.NoDup (List.map fst (ensureChallenge cid chal entries))).
Proof.
  destruct (ensureChallenge_cases cid chal entries) as [[Hin ->] | [Hout ->]].
  - auto.
  - rewrite List.map_app. cbn [List.map fst]. split; [| split].
    + apply in_or_app. right. now left.
    + intros c Hc. apply in_or_app. now left.
    + intros Hnd. apply List.NoDup_app; [exact Hnd | |].
      * apply List.NoDup_cons; [intros [] | apply List.NoDup_nil].
      * intros x Hx [<- | []]. contradiction.
Qed.

(** X11. The seeding of the default challenges only appends: the stored
    entries stay as they are and where they are (a stored challenge under a
    default id is not replaced), what is appended is taken from the two
    defaults, both default ids are present afterwards, distinct ids stay
    distinct, seeding twice is seeding once, and on an empty table it gives
    the two defaults. *)
Theorem seeding_only_appends (entries : list (string * Challenge)) :
  (exists added,
     seedChallenges entries = entries ++ added /\
     incl added defaultChallenges) /\
  In "daily_1km"%string (List.map fst (seedChallenges entries)) /\
  In "weekly_5km"%string (List.map fst (seedChallenges entries)) /\
  (List.NoDup (List.map fst entries) ->
   List.NoDup (List.map fst (seedChallenges entries))) /\
  seedChallenges (seedChallenges entries) = seedChallenges entries /\
  seedChallenges [] = defaultChallenges.
Proof.
  unfold seedChallenges.
  set (e1 := ensureChallenge "daily_1km" daily_1km entries).
  destruct (ensureChallenge_keys "daily_1km" daily_1km entries)
    as (Hd & Hkeep1 & Hnd1). fold e1 in Hd, Hkeep1, Hnd1.
  destruct (ensureChallenge_keys "weekly_5km" weekly_5km e1)
    as (Hw & Hkeep2 & Hnd2).
  split; [| split; [| split; [| split; [| split]]]].
  - destruct (ensureChallenge_cases "weekly_5km" weekly_5km e1)
      as [[_ ->] | [_ ->]];
      subst e1;
      destruct (ensureChallenge_cases "daily_1km" daily_1km entries)
        as [[_ ->] | [_ ->]].
    + exists []. split; [now rewrite app_nil_r | intros x []].
    + exists [("daily_1km"%string, daily_1km)]. split; [reflexivity |].
      intros x [<- | []]. left. reflexivity.
    + exists [("weekly_5km"%string, weekly_5km)]. split; [reflexivity |].
      intros x [<- | []]. right. left. reflexivity.
    + exists defaultChallenges. split; [now rewrite <- app_assoc |].
      apply incl_refl.
  - apply Hkeep2, Hd.
  - exact Hw.
  - intros Hnd. apply Hnd2, Hnd1, Hnd.
  - destruct (ensureChallenge_cases "daily_1km" daily_1km
                (ensureChallenge "weekly_5km" weekly_5km e1))
      as [[_ ->] | [Hout _]]; [| exfalso; apply Hout, Hkeep2, Hd].
    destruct (ensureChallenge_cases "weekly_5km" weekly_5km
                (ensureChallenge "weekly_5km" weekly_5km e1))
      as [[_ ->] | [Hout _]]; [reflexivity | exfalso; apply Hout, Hw].
  - reflexivity.
Qed.

(** ** Leaderboard *)

Lemma insertByScore_perm e l : Permutation (e :: l) (insertByScore e l).
Proof.
  induction l as [|x rest IH]; cbn [insertByScore]; [reflexivity |].
  destruct (entry_score e <? entry_score x); [| reflexivity].
  rewrite <- IH. apply perm_swap.
Qed.

Lemma sortByScore_perm l : Permutation l (sortByScore l).
Proof.
  induction l as [|e rest IH]; cbn [sortByScore]; [reflexivity |].
  rewrite <- insertByScore_perm. now apply perm_skip.
Qed.

Lemma insertByScore_sorted e l :
  StronglySorted byScore l -> StronglySorted byScore (insertByScore e l).
Proof.
  induction 1 as [|x rest Hs IH Hall]; cbn [insertByScore].
  - apply SSorted_cons; [apply SSorted_nil | apply List.Forall_nil].
  - destruct (Z.ltb_spec (entry_score e) (entry_score x)) as [Hlt | Hge].
    + apply SSorted_cons; [exact IH |].
      rewrite List.Forall_forall. intros y Hy.
      apply (Permutation_in _ (Permutation_sym (insertByScore_perm e rest)))
        in Hy.
      destruct Hy as [<- | Hy]; [unfold byScore; lia |].
      rewrite List.Forall_forall in Hall. now apply Hall.
    + apply SSorted_cons; [now apply SSorted_cons |].
      apply List.Forall_cons; [exact Hge |].
      rewrite List.Forall_forall in *. intros y Hy.
      specialize (Hall y Hy). unfold byScore in *. lia.
Qed.

Lemma sortByScore_sorted l : StronglySorted byScore (sortByScore l).
Proof.
  induction l as [|e rest IH]; cbn [sortByScore];
    [apply SSorted_nil | now apply insertByScore_sorted].
Qed.

Lemma insertByScore_filter s e l :
  List.filter (hasScore s) (insertByScore e l) =
  List.filter (hasScore s) (e :: l).
Proof.
  induction l as [|x rest IH]; cbn [insertByScore]; [reflexivity |].
  destruct (Z.ltb_spec (entry_score e) (entry_score x)) as [Hlt | Hge];
    [| reflexivity].
  cbn [List.filter] in *. rewrite IH. unfold hasScore.
  destruct (Z.eqb_spec (entry_score e) s), (Z.eqb_spec (entry_score x) s);
    try reflexivity; lia.
Qed.

Lemma sortByScore_filter s l :
  List.filter (hasScore s) (sortByScore l) = List.filter (hasScore s) l.
Proof.
  induction l as [|e rest IH]; cbn [sortByScore]; [reflexivity |].
  rewrite insertByScore_filter. cbn [List.filter]. now rewrite IH.
Qed.

Lemma StronglySorted_app_inv {A} (R : A -> A -> Prop) l1 l2 :
  StronglySorted R (l1 ++ l2) ->
  StronglySorted R l1 /\ forall a b, In a l1 -> In b l2 -> R a b.
Proof.
  induction l1 as [|x l1 IH]; cbn; intros H.
  - split; [apply SSorted_nil | intros a b []].
  - apply StronglySorted_inv in H as [Hs Hall].
    destruct (IH Hs) as [H1 H2]. rewrite List.Forall_forall in Hall. split.
    + apply SSorted_cons; [exact H1 |]. rewrite List.Forall_forall.
      intros y Hy. apply Hall, in_or_app. now left.
    + intros a b [<- | Ha] Hb; [| now apply H2].
      apply Hall, in_or_app. now right.
Qed.

(** X12. The leaderboard lists the riders with the highest scores: it is
    sorted by descending score, it holds 200 entries or all the riders if
    they are fewer, its entries together with the riders left out are the
    riders of the store, and no rider left out has a higher score than a
    listed one. *)
Theorem leaderboard_is_top_200 (values : list Rider) :
  exists rest,
    Permutation (List.map entryOf values) (leaderboard values ++ rest) /\
    StronglySorted byScore (leaderboard values) /\
    (forall a b, In a (leaderboard values) -> In b rest ->
                 entry_score b <= entry_score a) /\
    length (leaderboard values) = Nat.min 200 (length values).
Proof.
  exists (skipn 200 (sortByScore (List.map entryOf values))).
  unfold leaderboard.
  pose proof (sortByScore_sorted (List.map entryOf values)) as Hs.
  rewrite <- (firstn_skipn 200 (sortByScore (List.map entryOf values))) in Hs.
  apply StronglySorted_app_inv in Hs as [Hs Hcut].
  split; [| split; [exact Hs | split; [exact Hcut |]]].
  - rewrite firstn_skipn. apply sortByScore_perm.
  - rewrite List.length_firstn.
    rewrite <- (Permutation_length (sortByScore_perm _)), List.length_map.
    reflexivity.
Qed.

(** X13. Ties on the leaderboard are in store order: the listed entries with
    a given score are the first riders with that score in the order of
    [Object.values(DATA.riders)], in that order. *)
Theorem leaderboard_ties_in_store_order (values : list Rider) (s : Z) :
  List.filter (hasScore s) (leaderboard values)
    `prefix_of` List.filter (hasScore s) (List.map entryOf values).
Proof.
  exists (List.filter (hasScore s)
            (skipn 200 (sortByScore (List.map entryOf values)))).
  unfold leaderboard.
  rewrite <- List.filter_app, firstn_skipn. symmetry. apply sortByScore_filter.
Qed.

(** ** Login and socket messages *)

Section ServerFacts.

Variable haversineMeters : Position -> Position -> Q.
Variable tz : Z.
Variables trim toLowerCase : string -> string.

Local Abbreviation login' := (login trim toLowerCase).
Local Abbreviation emailOf' := (emailOf trim toLowerCase).
Local Abbreviation pseudoOf' := (pseudoOf trim).
Local Abbreviation onMessage' := (onMessage haversineMeters tz).
Local Abbreviation serve' := (serve haversineMeters tz trim toLowerCase).
Local Abbreviation serveAll' := (serveAll haversineMeters tz trim toLowerCase).

Lemma login_cases env body S :
  (invalidEmail (emailOf' body) = true /\
   login' env body S = (S, Return invalid_email)) \/
  (invalidEmail (emailOf' body) = false /\
   ((exists u,
       users S !! emailOf' body = Some u /\
       login' env body S =
         (S, match riders (data S) !! user_id u with
             | Some r => Return (logged_in (user_id u) (rider_name r))
             | None => Throw TypeError
             end)) \/
    (users S !! emailOf' body = None /\
     login' env body S =
       (register env (emailOf' body) (pseudoOf' env body) S,
        Return (logged_in (generated_id env) (pseudoOf' env body)))))).
Proof.
  unfold login. cbv zeta.
  destruct (invalidEmail (emailOf' body)); [left; auto | right].
  split; [reflexivity |].
  destruct (users S !! emailOf' body) as [u |] eqn:Hu.
  - left. exists u. split; [reflexivity |]. rewrite Hu.
    destruct (riders (data S) !! user_id u); reflexivity.
  - right. split; [reflexivity |].
    cbn [register users data riders set_riders].
    rewrite lookup_insert_eq. cbn [user_id]. rewrite lookup_insert_eq.
    reflexivity.
Qed.

Lemma keepsRiders_refl D : keepsRiders D D.
Proof.
  split; [reflexivity |]. intros id. destruct (riders D !! id); eauto.
Qed.

Lemma onMessage_keepsRiders clk newId msg D :
  keepsRiders D (fst (fst (onMessage' clk newId msg D))).
Proof.
  destruct msg as [| | | type payload self]; cbn [onMessage];
    try apply keepsRiders_refl.
  destruct (bool_decide (type = Some "position"%string));
    [| destruct (bool_decide _); apply keepsRiders_refl].
  pose proof (handle_step_identity haversineMeters tz clk
                (default self payload) D) as H. cbv zeta in H.
  destruct (handlePosition haversineMeters tz clk (default self payload) D)
    as [[D' out] [res | e]]; cbn [fst] in *;
    (destruct H as [Hch Hstep]; split; [exact Hch |]; intros id;
     destruct Hstep as [-> | (id0 & r0 & r0' & Hr0 & -> & Hs)];
     [destruct (riders D !! id); eauto |];
     cbn [riders set_riders]; destruct (decide (id0 = id)) as [-> | Hne];
     [rewrite Hr0, lookup_insert_eq; exists r0'; split; [reflexivity |];
      apply Hs
     | rewrite lookup_insert_ne by exact Hne;
       destruct (riders D !! id); eauto]).
Qed.

Lemma serve_ws clk newId msg S :
  fst (serve' (ws_message clk newId msg) S) =
  {| data := fst (fst (onMessage' clk newId msg (data S)));
     users := users S |}.
Proof.
  cbn [serve].
  destruct (onMessage' clk newId msg (data S)) as [[D' out] [r | e]];
    reflexivity.
Qed.

(** An invariant of single requests is an invariant of the server. *)
Lemma serveAll_ind (P : Server -> Prop) (reqs : list Request) :
  (forall req S, In req reqs -> P S -> P (fst (serve' req S))) ->
  forall S, P S -> P (serveAll' reqs S).
Proof.
  induction reqs as [|req rest IH]; intros Hstep S HS; [exact HS |].
  cbn [serveAll].
  pose proof (Hstep req S (in_eq _ _) HS) as H1.
  destruct (serve' req S) as [S1 [|]]; cbn [fst] in H1; [| exact H1].
  apply IH; [| exact H1]. intros r S0 Hin. apply Hstep, in_cons, Hin.
Qed.

Lemma login_usersHaveRiders env body S :
  usersHaveRiders S -> usersHaveRiders (fst (login' env body S)).
Proof.
  intros HS.
  destruct (login_cases env body S)
    as [[_ ->] | [_ [(u & _ & ->) | [Hnew ->]]]]; try exact HS.
  cbn [fst]. intros email u. cbn [register users data riders set_riders].
  destruct (decide (emailOf' body = email)) as [<- | Hne].
  - rewrite lookup_insert_eq. intros [= <-]. cbn [user_id].
    rewrite lookup_insert_eq. eauto.
  - rewrite lookup_insert_ne by exact Hne. intros Hu.
    destruct (decide (generated_id env = user_id u)) as [<- | Hne'].
    + rewrite lookup_insert_eq. eauto.
    + rewrite lookup_insert_ne by exact Hne'. apply (HS email u Hu).
Qed.

Lemma serve_usersHaveRiders req S :
  usersHaveRiders S -> usersHaveRiders (fst (serve' req S)).
Proof.
  intros HS. destruct req as [env body | clk newId msg].
  - apply login_usersHaveRiders, HS.
  - rewrite serve_ws. intros email u Hu. cbn [users data] in *.
    destruct (onMessage_keepsRiders clk newId msg (data S)) as [_ Hk].
    specialize (Hk (user_id u)).
    destruct (HS email u Hu) as [r Hr]. rewrite Hr in Hk.
    destruct Hk as (r' & -> & _). eauto.
Qed.

(** X14. Once every user has a rider, every user has a rider after any
    sequence of logins and socket messages, and the login route answers
    without throwing.  The server that starts without a [data.json] is in
    that case. *)
Theorem login_never_throws (reqs : list Request) (env : LoginEnv)
    (body : LoginBody) (S : Server) :
  usersHaveRiders S ->
  usersHaveRiders (serveAll' reqs S) /\
  exists res, snd (login' env body (serveAll' reqs S)) = Return res.
Proof.
  intros HS.
  assert (H : usersHaveRiders (serveAll' reqs S)).
  { apply serveAll_ind; [| exact HS].
    intros req S0 _. apply serve_usersHaveRiders. }
  split; [exact H |].
  destruct (login_cases env body (serveAll' reqs S))
    as [[_ ->] | [_ [(u & Hu & ->) | [Hnew ->]]]]; cbn [snd]; eauto.
  destruct (H _ u Hu) as [r ->]. eauto.
Qed.

(** What a successful login establishes and later requests keep. *)
Lemma serve_keeps_user req S email u name :
  (forall env body, req = post_login env body ->
                    generated_id env <> user_id u) ->
  users S !! email = Some u ->
  (exists r, riders (data S) !! user_id u = Some r /\ rider_name r = name) ->
  let S' := fst (serve' req S) in
  users S' !! email = Some u /\
  exists r, riders (data S') !! user_id u = Some r /\ rider_name r = name.
Proof.
  intros Hfresh Hu (r & Hr & Hname). cbv zeta.
  destruct req as [env body | clk newId msg].
  - cbn [serve fst].
    destruct (login_cases env body S)
      as [[_ ->] | [_ [(u0 & _ & ->) | [Hnew ->]]]]; cbn [fst]; eauto.
    cbn [register users data riders set_riders].
    rewrite lookup_insert_ne by congruence.
    rewrite lookup_insert_ne by (apply (Hfresh env body eq_refl)). eauto.
  - rewrite serve_ws. cbn [users data]. split; [exact Hu |].
    destruct (onMessage_keepsRiders clk newId msg (data S)) as [_ Hk].
    specialize (Hk (user_id u)). rewrite Hr in Hk.
    destruct Hk as (r' & Hr' & Hn'). exists r'. split; congruence.
Qed.

(** X15. A user's identity is stable.  After a successful login, logging in
    again with the same email (after trimming and lower-casing), with any
    pseudo and after any sequence of logins and socket messages, answers
    with the same id and the same pseudo and changes nothing, provided no
    login in between generated that same id anew. *)
Theorem login_is_stable (reqs : list Request) (env env' : LoginEnv)
    (body body' : LoginBody) (S S1 : Server) (id pseudo : string) :
  login' env body S = (S1, Return (logged_in id pseudo)) ->
  (forall env0 body0, In (post_login env0 body0) reqs ->
                      generated_id env0 <> id) ->
  emailOf' body' = emailOf' body ->
  login' env' body' (serveAll' reqs S1) =
    (serveAll' reqs S1, Return (logged_in id pseudo)).
Proof.
  intros Hlogin Hfresh Hemail.
  assert (H1 : invalidEmail (emailOf' body) = false /\
               exists u, user_id u = id /\
                 users S1 !! emailOf' body = Some u /\
                 exists r, riders (data S1) !! user_id u = Some r /\
                           rider_name r = pseudo).
  { destruct (login_cases env body S)
      as [[_ E] | [Hv [(u & Hu & E) | [Hnew E]]]];
      rewrite E in Hlogin.
    - discriminate.
    - split; [exact Hv |]. exists u.
      destruct (riders (data S) !! user_id u) as [r |] eqn:Hr;
        [| discriminate].
      injection Hlogin as <- <- <-. eauto.
    - split; [exact Hv |]. injection Hlogin as <- <- <-.
      exists {| user_id := generated_id env; user_email := emailOf' body;
                user_pseudo := pseudoOf' env body;
                user_createdAt := login_now env |}.
      cbn [register users data riders set_riders user_id].
      rewrite !lookup_insert_eq. eauto. }
  destruct H1 as (Hv & u & Hid & Hu & Hr). subst id.
  assert (H2 : users (serveAll' reqs S1) !! emailOf' body = Some u /\
               exists r, riders (data (serveAll' reqs S1)) !! user_id u
                           = Some r /\ rider_name r = pseudo).
  { apply (serveAll_ind
             (fun S0 => users S0 !! emailOf' body = Some u /\
                        exists r, riders (data S0) !! user_id u = Some r /\
                                  rider_name r = pseudo));
      [| auto].
    intros req S0 Hin [Hu0 Hr0].
    apply (serve_keeps_user req S0 _ u pseudo); [| exact Hu0 | exact Hr0].
    intros env0 body0 ->. apply (Hfresh env0 body0 Hin). }
  destruct H2 as (Hu2 & r & Hr2 & Hname).
  destruct (login_cases env' body' (serveAll' reqs S1))
    as [[Hv' _] | [_ [(u' & Hu' & ->) | [Hnew _]]]];
    rewrite Hemail in *; [congruence | | congruence].
  assert (u' = u) by congruence. subst u'. rewrite Hr2, Hname. reflexivity.
Qed.

(** X16. A rider that logged in is known to the position handler from then
    on: after any sequence of logins and socket messages, no position
    carrying the id that the login returned is answered "unknown_rider". *)
Theorem logged_in_rider_is_known (reqs : list Request) (env : LoginEnv)
    (body : LoginBody) (S S1 : Server) (id pseudo : string) (clk : Clock)
    (payload : Payload) :
  login' env body S = (S1, Return (logged_in id pseudo)) ->
  p_id payload = Some id ->
  snd (handlePosition haversineMeters tz clk payload
         (data (serveAll' reqs S1)))
    <> Return (rejected "unknown_rider").
Proof.
  intros Hlogin Hid.
  assert (H1 : is_Some (riders (data S1) !! id)).
  { destruct (login_cases env body S)
      as [[_ E] | [Hv [(u & Hu & E) | [Hnew E]]]];
      rewrite E in Hlogin.
    - discriminate.
    - destruct (riders (data S) !! user_id u) as [r |] eqn:Hr;
        [| discriminate].
      injection Hlogin as <- <- <-. eauto.
    - injection Hlogin as <- <- <-.
      cbn [register users data riders set_riders].
      rewrite lookup_insert_eq. eauto. }
  assert (H2 : is_Some (riders (data (serveAll' reqs S1)) !! id)).
  { apply (serveAll_ind (fun S0 => is_Some (riders (data S0) !! id)));
      [| exact H1].
    intros req S0 _ [r Hr]. destruct req as [env0 body0 | clk0 newId msg].
    - cbn [serve fst].
      destruct (login_cases env0 body0 S0)
        as [[_ ->] | [_ [(u0 & _ & ->) | [Hnew ->]]]]; cbn [fst]; eauto.
      cbn [register users data riders set_riders].
      destruct (decide (generated_id env0 = id)) as [-> | Hne].
      + rewrite lookup_insert_eq. eauto.
      + rewrite lookup_insert_ne by exact Hne. eauto.
    - rewrite serve_ws. cbn [data].
      destruct (onMessage_keepsRiders clk0 newId msg (data S0)) as [_ Hk].
      specialize (Hk id). rewrite Hr in Hk. destruct Hk as (r' & -> & _).
      eauto. }
  destruct H2 as [r Hr].
  destruct (handle_cases haversineMeters tz clk payload
              (data (serveAll' reqs S1))) as
    [[_ Hh] | (id' & plat & plon & Hid' & Hne & Hlat & Hlon & Hcase)];
    [rewrite Hh; discriminate |].
  assert (id' = id) by congruence. subst id'.
  destruct Hcase as [[Hnone _] | (rider & _ & Hrest)]; [congruence |].
  destruct Hrest as [[_ Hh] | (l & _ & Hsp)].
  - rewrite Hh. discriminate.
  - cbv zeta in Hsp. destruct Hsp as [[_ Hh] | [_ Hh]];
      rewrite Hh; [discriminate |].
    destruct (scoreMove _ _ _ _ _) as [[scored award] newly].
    destruct (updateChallengesForRider _ _ _ _ _ _) as [r' [chev | e]];
      discriminate.
Qed.

(** X17. Only the login route creates riders: over any sequence of socket
    messages (positions, [whoami], anything else) the users are unchanged
    and the riders are the same, under the same ids and names, with the same
    challenge definitions. *)
Theorem only_login_creates_riders (reqs : list Request) (S : Server) :
  (forall env body, ~ In (post_login env body) reqs) ->
  users (serveAll' reqs S) = users S /\
  keepsRiders (data S) (data (serveAll' reqs S)).
Proof.
  intros Hws.
  apply (serveAll_ind
           (fun S0 => users S0 = users S /\ keepsRiders (data S) (data S0)));
    [| split; [reflexivity | apply keepsRiders_refl]].
  intros req S0 Hin [Hu [Hch Hk]].
  destruct req as [env body | clk newId msg]; [destruct (Hws _ _ Hin) |].
  rewrite serve_ws. cbn [users data]. split; [exact Hu |].
  destruct (onMessage_keepsRiders clk newId msg (data S0)) as [Hch' Hk'].
  split; [congruence |]. intros id. specialize (Hk id). specialize (Hk' id).
  destruct (riders (data S) !! id) as [r |].
  - destruct Hk as (r0 & Hr0 & Hn0). rewrite Hr0 in Hk'.
    destruct Hk' as (r1 & Hr1 & Hn1). exists r1. split; congruence.
  - rewrite Hk in Hk'. exact Hk'.
Qed.

(** X18. What a login can change.  It never touches the challenge
    definitions, the riders under other ids than the generated one, or the
    users under other emails; with an invalid or an already registered email
    it changes nothing at all; and with a new valid email it stores a rider
    with no distance, no score and no badges under the generated id, in the
    place of any rider already stored under that id. *)
Theorem login_frame (env : LoginEnv) (body : LoginBody) (S : Server) :
  let S' := fst (login' env body S) in
  challenges (data S') = challenges (data S) /\
  (forall id, id <> generated_id env ->
              riders (data S') !! id = riders (data S) !! id) /\
  (forall email, email <> emailOf' body ->
                 users S' !! email = users S !! email) /\
  (invalidEmail (emailOf' body) = true \/
   is_Some (users S !! emailOf' body) -> S' = S) /\
  (invalidEmail (emailOf' body) = false /\
   users S !! emailOf' body = None ->
   riders (data S') !! generated_id env =
     Some (newRider (generated_id env) (pseudoOf' env body))).
Proof.
  cbv zeta.
  destruct (login_cases env body S)
    as [[Hv ->] | [Hv [(u & Hu & ->) | [Hnew ->]]]]; cbn [fst].
  - repeat split; auto. intros [? ?]. congruence.
  - repeat split; auto. intros [? ?]. congruence.
  - cbn [register users data riders set_riders challenges].
    split; [reflexivity |]. split; [| split; [| split]].
    + intros id Hne. now rewrite lookup_insert_ne.
    + intros email Hne. now rewrite lookup_insert_ne.
    + intros [H | [u Hu]]; congruence.
    + intros _. now rewrite lookup_insert_eq.
Qed.

End ServerFacts.

(** ** The server on examples *)

(** The store of the examples is the one the first login creates. *)
Lemma S1_data : data S1 = D0.
Proof. reflexivity. Qed.

Lemma freshServer_usersHaveRiders : usersHaveRiders freshServer.
Proof.
  intros email u H. cbn in H. rewrite lookup_empty in H. discriminate.
Qed.

Lemma login_never_throws_witness :
  exists res,
    snd (login asciiTrim asciiLower (envWith "r3") anaAgain
           (serveAll gridMeters 0 asciiTrim asciiLower
              (post_login (envWith "r1") anaLogin :: session) freshServer))
      = Return res.
Proof.
  apply (login_never_throws gridMeters 0 asciiTrim asciiLower
           (post_login (envWith "r1") anaLogin :: session) (envWith "r3")
           anaAgain freshServer freshServer_usersHaveRiders).
Defined.

Lemma login_is_stable_witness :
  login asciiTrim asciiLower (envWith "r3") anaAgain
    (serveAll gridMeters 0 asciiTrim asciiLower session S1) =
  (serveAll gridMeters 0 asciiTrim asciiLower session S1,
   Return (logged_in "r1" "Ana")).
Proof.
  apply (login_is_stable gridMeters 0 asciiTrim asciiLower session
           (envWith "r1") (envWith "r3") anaLogin anaAgain freshServer S1
           "r1" "Ana").
  - vm_compute. reflexivity.
  - intros env0 body0 [H | [H | [H | [H | [H | []]]]]]; try discriminate.
    injection H as <- <-. cbn. discriminate.
  - vm_compute. reflexivity.
Defined.

Lemma logged_in_rider_is_known_witness :
  snd (handlePosition gridMeters 0 (wallClock 7201000) fix4
         (data (serveAll gridMeters 0 asciiTrim asciiLower session S1)))
    <> Return (rejected "unknown_rider").
Proof.
  apply (logged_in_rider_is_known gridMeters 0 asciiTrim asciiLower session
           (envWith "r1") anaLogin freshServer S1 "r1" "Ana"
           (wallClock 7201000) fix4).
  - vm_compute. reflexivity.
  - reflexivity.
Defined.

Lemma only_login_creates_riders_witness :
  users (serveAll gridMeters 0 asciiTrim asciiLower socketSession S1)
    = users S1 /\
  keepsRiders (data S1)
    (data (serveAll gridMeters 0 asciiTrim asciiLower socketSession S1)).
Proof.
  apply (only_login_creates_riders gridMeters 0 asciiTrim asciiLower
           socketSession S1).
  intros env body [H | [H | [H | []]]]; discriminate.
Defined.

(** ** The daily window *)

Lemma eraRangeFrom_spec n :
  forall a, eraRangeFrom n a = true ->
  forall doe, a <= doe < a + Z.of_nat n -> eraRange doe = true.
Proof.
  induction n as [|n IH]; intros a H doe Hdoe; [lia |].
  cbn [eraRangeFrom] in H. apply andb_true_iff in H as [Ha Hrest].
  destruct (Z.eq_dec doe a) as [-> | Hne]; [exact Ha |].
  apply (IH (a + 1)); [exact Hrest | lia].
Qed.

Lemma eraRange_exhaustive : eraRangeFrom (Z.to_nat 146097) 0 = true.
Proof. vm_cast_no_check (eq_refl true). Qed.

Lemma civil_range z :
  let '(_, m, d) := JSDate.civil z in 1 <= m <= 12 /\ 1 <= d <= 31.
Proof.
  unfold JSDate.civil.
  assert (Hr : 0 <= (z + 719468) mod 146097 < 146097)
    by (apply Z.mod_pos_bound; lia).
  assert (Hc : eraRange ((z + 719468) mod 146097) = true).
  { apply (eraRangeFrom_spec _ 0 eraRange_exhaustive).
    rewrite Z2Nat.id; lia. }
  unfold eraRange in Hc.
  destruct (JSDate.eraDate ((z + 719468) mod 146097)) as [[yoe m] d].
  apply andb_true_iff in Hc as [Hc H4]. apply andb_true_iff in Hc as [Hc H3].
  apply andb_true_iff in Hc as [H1 H2]. cbn beta iota. lia.
Qed.

Lemma digit_inj a b : JSDate.digit a = JSDate.digit b -> a mod 10 = b mod 10.
Proof.
  unfold JSDate.digit. intros H.
  apply (f_equal Ascii.nat_of_ascii) in H.
  pose proof (Z.mod_pos_bound a 10 eq_refl) as Ha.
  pose proof (Z.mod_pos_bound b 10 eq_refl) as Hb.
  rewrite !Ascii.nat_ascii_embedding in H by lia. lia.
Qed.

Lemma dateText_inj y m d y' m' d' :
  0 <= y <= 9999 -> 0 <= y' <= 9999 ->
  1 <= m <= 12 -> 1 <= m' <= 12 -> 1 <= d <= 31 -> 1 <= d' <= 31 ->
  JSDate.pad 4 y +:+ "-" +:+ JSDate.pad 2 m +:+ "-" +:+ JSDate.pad 2 d =
  JSDate.pad 4 y' +:+ "-" +:+ JSDate.pad 2 m' +:+ "-" +:+ JSDate.pad 2 d' ->
  y = y' /\ m = m' /\ d = d'.
Proof.
  intros Hy Hy' Hm Hm' Hd Hd' H.
  cbv [JSDate.pad String.append] in H.
  injection H as Y3 Y2 Y1 Y0 M1 M0 D1 D0.
  apply digit_inj in Y3, Y2, Y1, Y0, M1, M0, D1, D0.
  repeat split; Z.div_mod_to_equations; lia.
Qed.

Lemma daily_key_inj tz t1 t2 :
  0 <= JSDate.YearFromTime t1 <= 9999 ->
  0 <= JSDate.YearFromTime t2 <= 9999 ->
  windowKey tz "daily" (Some t1) = windowKey tz "daily" (Some t2) ->
  JSDate.Day t1 = JSDate.Day t2.
Proof.
  unfold JSDate.YearFromTime. intros H1 H2.
  pose proof (daily_key_is_utc_date tz t1) as K1.
  pose proof (daily_key_is_utc_date tz t2) as K2.
  pose proof (civil_range (JSDate.Day t1)) as R1.
  pose proof (civil_range (JSDate.Day t2)) as R2.
  pose proof (civil_dayNumber (JSDate.Day t1)) as N1.
  pose proof (civil_dayNumber (JSDate.Day t2)) as N2.
  destruct (JSDate.civil (JSDate.Day t1)) as [[y1 m1] d1].
  destruct (JSDate.civil (JSDate.Day t2)) as [[y2 m2] d2].
  cbn [fst snd] in H1, H2. rewrite (K1 H1), (K2 H2). intros H.
  destruct (dateText_inj y1 m1 d1 y2 m2 d2) as (-> & -> & ->);
    try tauto; [congruence |].
  specialize (N1 d2). specialize (N2 d2). cbn beta iota in N1, N2. lia.
Qed.

Lemma daily_key_same_day tz t1 t2 :
  0 <= JSDate.YearFromTime t2 <= 9999 ->
  JSDate.Day t1 = JSDate.Day t2 ->
  windowKey tz "daily" (Some t1) = windowKey tz "daily" (Some t2).
Proof.
  unfold JSDate.YearFromTime. intros H2 E.
  pose proof (daily_key_is_utc_date tz t1) as K1.
  pose proof (daily_key_is_utc_date tz t2) as K2.
  rewrite E in K1.
  destruct (JSDate.civil (JSDate.Day t2)) as [[y2 m2] d2].
  cbn [fst snd] in H2. now rewrite (K1 H2), (K2 H2).
Qed.

(** An instant of the years 0 to 9999 is in the range of [Date]. *)
Lemma year_range_time t :
  0 <= JSDate.YearFromTime t <= 9999 -> Z.abs t <= JSDate.maxTime.
Proof.
  unfold JSDate.YearFromTime. intros Hy.
  pose proof (civil_range (JSDate.Day t)) as R.
  pose proof (civil_dayNumber (JSDate.Day t)) as N.
  destruct (JSDate.civil (JSDate.Day t)) as [[y m] d].
  cbn [fst snd] in Hy. specialize (N d). cbn beta iota in N.
  assert (Hday : -1000000 <= JSDate.Day t <= 4000000).
  { rewrite <- (Z.add_0_r (JSDate.Day t)).
    replace (JSDate.Day t + 0) with (JSDate.Day t - d + d) by lia.
    rewrite <- N. unfold JSDate.dayNumber, JSDate.eraDay.
    destruct (m <=? 2), (2 <? m); Z.div_mod_to_equations; lia. }
  unfold JSDate.Day in Hday. unfold JSDate.maxTime.
  unfold JSDate.msPerDay in Hday. Z.div_mod_to_equations. lia.
Qed.

(** X19. Two instants of the years 0 to 9999 have the same daily key exactly
    when they fall on the same UTC day, whatever the host's time zone: the
    daily window is the UTC calendar day. *)
Theorem daily_window_is_utc_day (tz t1 t2 : Z) :
  0 <= JSDate.YearFromTime t1 <= 9999 ->
  0 <= JSDate.YearFromTime t2 <= 9999 ->
  windowKey tz "daily" (Some t1) = windowKey tz "daily" (Some t2) <->
  JSDate.Day t1 = JSDate.Day t2.
Proof.
  intros H1 H2. split.
  - now apply daily_key_inj.
  - now apply daily_key_same_day.
Qed.

Lemma daily_window_is_utc_day_witness :
  windowKey 7200000 "daily" (Some 1717367400000) =
  windowKey 7200000 "daily" (Some 1717365600000) <->
  JSDate.Day 1717367400000 = JSDate.Day 1717365600000.
Proof.
  apply (daily_window_is_utc_day 7200000 1717367400000 1717365600000).
  - vm_compute. split; discriminate.
  - vm_compute. split; discriminate.
Defined.

(** X21. On a host whose local time is UTC, two instants whose weeks start
    in the years 0 to 9999 have the same weekly key exactly when the Mondays
    on or before them are the same UTC day: there the weekly window is the
    week from Monday to Sunday, UTC. *)
Theorem weekly_window_on_utc_host (t1 t2 : Z) :
  0 <= JSDate.YearFromTime (weekStart 0 t1) <= 9999 ->
  0 <= JSDate.YearFromTime (weekStart 0 t2) <= 9999 ->
  windowKey 0 "weekly" (Some t1) = windowKey 0 "weekly" (Some t2) <->
  JSDate.Day t1 - (JSDate.WeekDay t1 + 6) mod 7 =
  JSDate.Day t2 - (JSDate.WeekDay t2 + 6) mod 7.
Proof.
  intros H1 H2.
  destruct (weekly_key_on_utc_host t1) as (_ & _ & _ & K1).
  destruct (weekly_key_on_utc_host t2) as (_ & _ & _ & K2).
  rewrite (K1 (year_range_time _ H1)), (K2 (year_range_time _ H2)).
  assert (D1 : JSDate.Day (weekStart 0 t1) =
               JSDate.Day t1 - (JSDate.WeekDay t1 + 6) mod 7)
    by (unfold weekStart; rewrite Z.add_0_r; apply Day_shift).
  assert (D2 : JSDate.Day (weekStart 0 t2) =
               JSDate.Day t2 - (JSDate.WeekDay t2 + 6) mod 7)
    by (unfold weekStart; rewrite Z.add_0_r; apply Day_shift).
  rewrite <- D1, <- D2. split.
  - now apply daily_key_inj.
  - now apply daily_key_same_day.
Qed.

Lemma weekly_window_on_utc_host_witness :
  windowKey 0 "weekly" (Some 1717367400000) =
  windowKey 0 "weekly" (Some 1717453800000) <->
  JSDate.Day 1717367400000 - (JSDate.WeekDay 1717367400000 + 6) mod 7 =
  JSDate.Day 1717453800000 - (JSDate.WeekDay 1717453800000 + 6) mod 7.
Proof.
  apply (weekly_window_on_utc_host 1717367400000 1717453800000).
  - vm_compute. split; discriminate.
  - vm_compute. split; discriminate.
Defined.

(** ** Points and their announcement *)

Section Announcements.

Variable haversineMeters : Position -> Position -> Q.
Variable tz : Z.

Local Abbreviation handle := (handlePosition haversineMeters tz).

Lemma announced_app id out1 out2 :
  announced id (out1 ++ out2) = announced id out1 + announced id out2.
Proof.
  unfold announced. induction out1 as [|m out1 IH]; cbn; [reflexivity |].
  cbn in IH. lia.
Qed.

Lemma scoreMove_points meters plat plon ts rider :
  let award := snd (fst (scoreMove meters plat plon ts rider)) in
  pointsGained award = kmsGained award * 10 /\ 0 <= kmsGained award.
Proof.
  unfold scoreMove. cbv zeta.
  rewrite awardPointsPerKm_closed, checkAndAwardBadges_closed.
  cbn -[Z.mul Z.max Qdiv Qplus Qminus]. split; lia.
Qed.

Lemma handle_step_announced clk payload D D' out a :
  keyedById D ->
  handle clk payload D = (D', out, Return a) ->
  keyedById D' /\
  forall id r,
    riders D !! id = Some r ->
    exists r', riders D' !! id = Some r' /\
               rider_score r' = rider_score r + announced id out.
Proof.
  intros HD H.
  assert (Hput : forall id0 r0 r0',
            D' = set_riders (<[id0 := r0']> (riders D)) D ->
            riders D !! id0 = Some r0 ->
            rider_id r0' = rider_id r0 ->
            rider_score r0' = rider_score r0 + announced id0 out ->
            (forall id, id <> id0 -> announced id out = 0) ->
            keyedById D' /\
            forall id r,
              riders D !! id = Some r ->
              exists r', riders D' !! id = Some r' /\
                         rider_score r' = rider_score r + announced id out).
  { intros id0 r0 r0' -> H0 Hid Hsc Hother. split.
    - intros k r. cbn [riders set_riders].
      destruct (decide (id0 = k)) as [-> | Hne].
      + rewrite lookup_insert_eq. intros [= <-]. rewrite Hid. now apply HD.
      + rewrite lookup_insert_ne by exact Hne. apply HD.
    - intros id r Hr. cbn [riders set_riders].
      destruct (decide (id0 = id)) as [-> | Hne].
      + rewrite lookup_insert_eq. exists r0'. split; [reflexivity |].
        congruence.
      + rewrite lookup_insert_ne by exact Hne. exists r.
        split; [exact Hr |]. rewrite (Hother id) by congruence. lia. }
  assert (Hsame : D' = D -> out = [] ->
            keyedById D' /\
            forall id r,
              riders D !! id = Some r ->
              exists r', riders D' !! id = Some r' /\
                         rider_score r' = rider_score r + announced id out).
  { intros -> ->. split; [exact HD |]. intros id r Hr. exists r.
    split; [exact Hr | cbn; lia]. }
  destruct (handle_cases haversineMeters tz clk payload D) as
    [[_ Hh] | (id0 & plat & plon & Hid & Hne & Hlat & Hlon
               & [[_ Hh] | (r0 & Hr0 & Hrest)])];
    [rewrite Hh in H; injection H as HD' Hout _; now apply Hsame
    | rewrite Hh in H; injection H as HD' Hout _; now apply Hsame |].
  destruct Hrest as [[_ Hh] | (l & _ & Hsp)].
  - rewrite Hh in H. cbn [commitFix] in H. injection H as HD' Hout _.
    subst out.
    eapply Hput; [symmetry; exact HD' | exact Hr0 | reflexivity
                 | cbn; lia | reflexivity].
  - cbv zeta in Hsp. destruct Hsp as [[_ Hh] | [_ Hh]]; rewrite Hh in H;
      clear Hh.
    + injection H as HD' Hout _. subst out.
      eapply Hput; [symmetry; exact HD' | exact Hr0 | reflexivity
                   | cbn; lia | reflexivity].
    + set (meters := haversineMeters _ _) in *.
      pose proof (scoreMove_fields meters plat plon
                    (effectiveTs clk payload) r0) as Hf.
      pose proof (scoreMove_points meters plat plon
                    (effectiveTs clk payload) r0) as Hp.
      cbv zeta in Hf, Hp.
      destruct (scoreMove meters plat plon (effectiveTs clk payload) r0)
        as [[scored award] newly]. cbn [fst snd] in Hf, Hp.
      destruct Hf as (Hsid & _ & _ & _ & _ & _ & Hscore & _).
      destruct Hp as [Hpts Hk0].
      pose proof (updateChallenges_frame tz clk (challenges D) scored meters
                    (effectiveTs clk payload)) as Hframe.
      pose proof (challengeLoop_score_events tz clk meters
                    (challengeNow clk (effectiveTs clk payload))
                    (challenges D) scored []) as Hev.
      fold (updateChallengesForRider tz clk (challenges D) scored meters
              (effectiveTs clk payload)) in Hev.
      destruct (updateChallengesForRider tz clk (challenges D) scored meters
                  (effectiveTs clk payload)) as [r' [chev | e]];
        [| discriminate].
      destruct (Hev r' chev eq_refl) as (new & Hnew & Hbonus).
      cbn [app] in Hnew. subst new.
      cbn [fst] in Hframe. destruct Hframe as (Hid' & _).
      assert (Hrid : rider_id r' = id0)
        by (rewrite Hid', Hsid; now apply HD).
      cbn [commitFix] in H. injection H as HD' Hout _. subst out.
      eapply Hput; [symmetry; exact HD' | exact Hr0 | | |].
      * cbn. congruence.
      * unfold announced. cbn [List.map fold_right announcedBy].
        destruct (gameWorthy award newly chev) eqn:Hg;
          cbn [List.map fold_right announcedBy].
        -- rewrite Hrid, String.eqb_refl. cbn. lia.
        -- assert (Hn : ~ (0 < kmsGained award \/ newly <> [] \/ chev <> []))
             by (rewrite <- gameWorthy_iff, Hg; discriminate).
           assert (chev = []) as ->
             by (destruct chev;
                 [reflexivity
                 | exfalso; apply Hn; right; right; discriminate]).
           assert (kmsGained award = 0)
             by (assert (~ 0 < kmsGained award) by tauto; lia).
           cbn in Hbonus |- *. lia.
      * intros id Hneq. unfold announced.
        cbn [List.map fold_right announcedBy].
        destruct (gameWorthy award newly chev);
          cbn [List.map fold_right announcedBy]; [| reflexivity].
        rewrite Hrid.
        destruct (String.eqb_spec id0 id); [congruence | reflexivity].
Qed.

(** X20. No points are gained in silence.  In a store where every rider is
    kept under its own id, over any run of [handlePosition] in which no call
    throws, each rider's score grows by exactly the points announced for it:
    the [pointsGained] and the challenge bonuses of the [game_event]
    messages broadcast for that rider. *)
Theorem score_changes_are_announced (inputs : list (Clock * Payload))
    (D : Data) (id : string) (rider : Rider) :
  keyedById D ->
  (forall e, ~ In (Throw e) (snd (run haversineMeters tz inputs D))) ->
  riders D !! id = Some rider ->
  exists rider',
    riders (fst (fst (run haversineMeters tz inputs D))) !! id = Some rider' /\
    rider_score rider' =
      rider_score rider
      + announced id (snd (fst (run haversineMeters tz inputs D))).
Proof.
  revert D rider.
  induction inputs as [|[clk payload] rest IH]; intros D rider HD Hok Hr.
  - exists rider. split; [exact Hr | cbn; lia].
  - cbn [run] in *.
    destruct (handle clk payload D) as [[D1 out1] [a | e]] eqn:Hh.
    + destruct (handle_step_announced clk payload D D1 out1 a HD Hh)
        as [HD1 Hstep].
      destruct (Hstep id rider Hr) as (r1 & Hr1 & Hs1).
      specialize (IH D1 r1 HD1).
      destruct (run haversineMeters tz rest D1) as [[D2 out2] acks2].
      cbn [fst snd] in *.
      destruct IH as (r2 & Hr2 & Hs2); [| exact Hr1 |].
      * intros e Hin. apply (Hok e). now right.
      * exists r2. split; [exact Hr2 |]. rewrite announced_app. lia.
    + exfalso. apply (Hok e). cbn. now left.
Qed.

End Announcements.

Lemma D0_keyedById : keyedById D0.
Proof.
  intros k r Hr. unfold D0 in Hr. cbn [riders] in Hr.
  apply lookup_singleton_Some in Hr as [<- <-]. reflexivity.
Qed.

Lemma score_changes_are_announced_witness :
  exists rider',
    riders
      (fst (fst (run gridMeters 0
                   [(wallClock 1000, fix1); (wallClock 3601000, fix2);
                    (wallClock 7201000, fix4)] D0))) !! "r1"%string
      = Some rider' /\
    rider_score rider' =
      rider_score (newRider "r1" "Ana")
      + announced "r1"
          (snd (fst (run gridMeters 0
                       [(wallClock 1000, fix1); (wallClock 3601000, fix2);
                        (wallClock 7201000, fix4)] D0))).
Proof.
  assert (E : snd (run gridMeters 0
                     [(wallClock 1000, fix1); (wallClock 3601000, fix2);
                      (wallClock 7201000, fix4)] D0) =
              [Return (accepted "r1"); Return (accepted "r1");
               Return (accepted "r1")])
    by (vm_compute; reflexivity).
  apply (score_changes_are_announced gridMeters 0
           [(wallClock 1000, fix1); (wallClock 3601000, fix2);
            (wallClock 7201000, fix4)] D0 "r1" (newRider "r1" "Ana")
           D0_keyedById).
  - intros e H. rewrite E in H.
    destruct H as [H | [H | [H | []]]]; discriminate H.
  - vm_compute. reflexivity.
Defined.

(** ** Badges and their announcement, rejections and their count *)

Section Ledger.

Variable haversineMeters : Position -> Position -> Q.
Variable tz : Z.

Local Abbreviation handle := (handlePosition haversineMeters tz).

Lemma announcedBadges_app id out1 out2 :
  announcedBadges id (out1 ++ out2) =
  announcedBadges id out1 ++ announcedBadges id out2.
Proof. unfold announcedBadges. apply List.flat_map_app. Qed.

Lemma scoreMove_newBadges meters plat plon ts rider :
  let scored := fst (fst (scoreMove meters plat plon ts rider)) in
  let newly := snd (scoreMove meters plat plon ts rider) in
  rider_badges scored = rider_badges rider ++ List.map badge_id newly.
Proof.
  unfold scoreMove. cbv zeta.
  rewrite awardPointsPerKm_closed, checkAndAwardBadges_closed.
  cbn -[Z.mul Z.max Qdiv Qplus Qminus newlyQualified BADGE_MILESTONES_METERS].
  rewrite List.map_map. reflexivity.
Qed.

Lemma handle_step_badges_announced clk payload D D' out a :
  keyedById D ->
  handle clk payload D = (D', out, Return a) ->
  forall id r,
    riders D !! id = Some r ->
    exists r', riders D' !! id = Some r' /\
               rider_badges r' = rider_badges r ++ announcedBadges id out.
Proof.
  intros HD H.
  assert (Hput : forall id0 r0 r0',
            D' = set_riders (<[id0 := r0']> (riders D)) D ->
            riders D !! id0 = Some r0 ->
            rider_badges r0' = rider_badges r0 ++ announcedBadges id0 out ->
            (forall id, id <> id0 -> announcedBadges id out = []) ->
            forall id r,
              riders D !! id = Some r ->
              exists r', riders D' !! id = Some r' /\
                rider_badges r' = rider_badges r ++ announcedBadges id out).
  { intros id0 r0 r0' -> H0 Hb Hother id r Hr. cbn [riders set_riders].
    destruct (decide (id0 = id)) as [-> | Hne].
    - rewrite lookup_insert_eq. exists r0'. split; [reflexivity |]. congruence.
    - rewrite lookup_insert_ne by exact Hne. exists r.
      split; [exact Hr |]. rewrite (Hother id) by congruence.
      now rewrite app_nil_r. }
  assert (Hsame : D' = D -> out = [] ->
            forall id r,
              riders D !! id = Some r ->
              exists r', riders D' !! id = Some r' /\
                rider_badges r' = rider_badges r ++ announcedBadges id out).
  { intros -> -> id r Hr. exists r. split; [exact Hr |].
    cbn. now rewrite app_nil_r. }
  destruct (handle_cases haversineMeters tz clk payload D) as
    [[_ Hh] | (id0 & plat & plon & Hid & Hne & Hlat & Hlon
               & [[_ Hh] | (r0 & Hr0 & Hrest)])];
    [rewrite Hh in H; injection H as HD' Hout _; now apply Hsame
    | rewrite Hh in H; injection H as HD' Hout _; now apply Hsame |].
  destruct Hrest as [[_ Hh] | (l & _ & Hsp)].
  - rewrite Hh in H. cbn [commitFix] in H. injection H as HD' Hout _.
    subst out.
    eapply Hput; [symmetry; exact HD' | exact Hr0 | cbn; now rewrite app_nil_r
                 | reflexivity].
  - cbv zeta in Hsp. destruct Hsp as [[_ Hh] | [_ Hh]]; rewrite Hh in H;
      clear Hh.
    + injection H as HD' Hout _. subst out.
      eapply Hput; [symmetry; exact HD' | exact Hr0
                   | cbn; now rewrite app_nil_r | reflexivity].
    + set (meters := haversineMeters _ _) in *.
      pose proof (scoreMove_fields meters plat plon
                    (effectiveTs clk payload) r0) as Hf.
      pose proof (scoreMove_newBadges meters plat plon
                    (effectiveTs clk payload) r0) as Hb.
      cbv zeta in Hf, Hb.
      destruct (scoreMove meters plat plon (effectiveTs clk payload) r0)
        as [[scored award] newly]. cbn [fst snd] in Hf, Hb.
      destruct Hf as (Hsid & _).
      pose proof (updateChallenges_frame tz clk (challenges D) scored meters
                    (effectiveTs clk payload)) as Hframe.
      destruct (updateChallengesForRider tz clk (challenges D) scored meters
                  (effectiveTs clk payload)) as [r' [chev | e]];
        [| discriminate].
      cbn [fst] in Hframe.
      destruct Hframe as (Hid' & _ & _ & _ & _ & Hbadges & _).
      assert (Hrid : rider_id r' = id0)
        by (rewrite Hid', Hsid; now apply HD).
      cbn [commitFix] in H. injection H as HD' Hout _. subst out.
      eapply Hput; [symmetry; exact HD' | exact Hr0 | |].
      * unfold announcedBadges.
        cbn [flat_map app badgesAnnouncedBy rider_badges set_updatedAt
             set_last].
        destruct (gameWorthy award newly chev) eqn:Hg;
          cbn [flat_map app badgesAnnouncedBy].
        -- rewrite Hrid, String.eqb_refl, app_nil_r. congruence.
        -- assert (Hn : ~ (0 < kmsGained award \/ newly <> [] \/ chev <> []))
             by (rewrite <- gameWorthy_iff, Hg; discriminate).
           assert (newly = []) as ->
             by (destruct newly;
                 [reflexivity
                 | exfalso; apply Hn; right; left; discriminate]).
           cbn in Hb. rewrite app_nil_r in *. congruence.
      * intros id Hneq. unfold announcedBadges.
        cbn [flat_map app badgesAnnouncedBy].
        destruct (gameWorthy award newly chev);
          cbn [flat_map app badgesAnnouncedBy]; [| reflexivity].
        rewrite Hrid.
        destruct (String.eqb_spec id0 id); [congruence | reflexivity].
Qed.

(** X22. No badge is awarded in silence.  In a store where every rider is
    kept under its own id, over any run of [handlePosition] in which no call
    throws, the badges of each rider are those it had, followed by the
    badges announced for it in the [newBadges] of the [game_event] messages,
    in the order of the broadcasts. *)
Theorem badges_are_announced (inputs : list (Clock * Payload)) (D : Data)
    (id : string) (rider : Rider) :
  keyedById D ->
  (forall e, ~ In (Throw e) (snd (run haversineMeters tz inputs D))) ->
  riders D !! id = Some rider ->
  exists rider',
    riders (fst (fst (run haversineMeters tz inputs D))) !! id = Some rider' /\
    rider_badges rider' =
      rider_badges rider
      ++ announcedBadges id (snd (fst (run haversineMeters tz inputs D))).
Proof.
  revert D rider.
  induction inputs as [|[clk payload] rest IH]; intros D rider HD Hok Hr.
  - exists rider. split; [exact Hr | cbn; now rewrite app_nil_r].
  - cbn [run] in *.
    destruct (handle clk payload D) as [[D1 out1] [a | e]] eqn:Hh.
    + destruct (handle_step_announced haversineMeters tz clk payload D D1
                  out1 a HD Hh) as [HD1 _].
      destruct (handle_step_badges_announced clk payload D D1 out1 a HD Hh
                  id rider Hr) as (r1 & Hr1 & Hb1).
      specialize (IH D1 r1 HD1).
      destruct (run haversineMeters tz rest D1) as [[D2 out2] acks2].
      cbn [fst snd] in *.
      destruct IH as (r2 & Hr2 & Hb2); [| exact Hr1 |].
      * intros e Hin. apply (Hok e). now right.
      * exists r2. split; [exact Hr2 |].
        rewrite announcedBadges_app, app_assoc. congruence.
    + exfalso. apply (Hok e). cbn. now left.
Qed.

Lemma handle_step_suspicious clk payload D :
  forall id r,
    riders D !! id = Some r ->
    exists r',
      riders (fst (fst (handle clk payload D))) !! id = Some r' /\
      default 0 (rider_suspicious r') =
        default 0 (rider_suspicious r)
        + (if isSpeedRejection id payload (snd (handle clk payload D))
           then 1 else 0).
Proof.
  intros id r Hr.
  assert (Hput : forall id0 r0 r0' (res : completion Ack),
            riders D !! id0 = Some r0 ->
            p_id payload = Some id0 ->
            default 0 (rider_suspicious r0') =
              default 0 (rider_suspicious r0)
              + (if isSpeedRejection id0 payload res then 1 else 0) ->
            exists r',
              riders (set_riders (<[id0 := r0']> (riders D)) D) !! id
                = Some r' /\
              default 0 (rider_suspicious r') =
                default 0 (rider_suspicious r)
                + (if isSpeedRejection id payload res then 1 else 0)).
  { intros id0 r0 r0' res H0 Hid Hs. cbn [riders set_riders].
    destruct (decide (id0 = id)) as [-> | Hne].
    - rewrite lookup_insert_eq. exists r0'. split; [reflexivity |].
      congruence.
    - rewrite lookup_insert_ne by exact Hne. exists r. split; [exact Hr |].
      unfold isSpeedRejection. rewrite Hid.
      destruct res as [[reason | aid] | e]; try lia.
      destruct (String.eqb_spec id0 id); [congruence | cbn; lia]. }
  destruct (handle_cases haversineMeters tz clk payload D) as
    [[_ Hh] | (id0 & plat & plon & Hid & Hne & Hlat & Hlon
               & [[_ Hh] | (r0 & Hr0 & Hrest)])].
  - rewrite Hh. cbn [fst snd]. exists r. split; [exact Hr |].
    unfold isSpeedRejection. destruct (p_id payload); cbn; [| lia].
    rewrite andb_false_r. lia.
  - rewrite Hh. cbn [fst snd]. exists r. split; [exact Hr |].
    unfold isSpeedRejection. destruct (p_id payload); cbn; [| lia].
    rewrite andb_false_r. lia.
  - destruct Hrest as [[_ Hh] | (l & _ & Hsp)].
    + rewrite Hh. cbn [commitFix fst snd].
      apply (Hput id0 r0 _ _ Hr0 Hid). unfold isSpeedRejection.
      rewrite Hid. cbn. lia.
    + cbv zeta in Hsp. destruct Hsp as [[_ Hh] | [_ Hh]]; rewrite Hh;
        clear Hh.
      * cbn [fst snd]. apply (Hput id0 r0 _ _ Hr0 Hid).
        unfold isSpeedRejection. rewrite Hid, String.eqb_refl. cbn. lia.
      * set (meters := haversineMeters _ _).
        pose proof (scoreMove_fields meters plat plon
                      (effectiveTs clk payload) r0) as Hf.
        cbv zeta in Hf.
        destruct (scoreMove meters plat plon (effectiveTs clk payload) r0)
          as [[scored award] newly]. cbn [fst snd] in Hf.
        destruct Hf as (_ & _ & _ & _ & Hsus & _).
        pose proof (updateChallenges_frame tz clk (challenges D) scored
                      meters (effectiveTs clk payload)) as Hframe.
        destruct (updateChallengesForRider tz clk (challenges D) scored
                    meters (effectiveTs clk payload)) as [r' [chev | e]];
          cbn [fst] in Hframe;
          destruct Hframe as (_ & _ & _ & _ & _ & _ & Hsus' & _);
          cbn [commitFix fst snd]; apply (Hput id0 r0 _ _ Hr0 Hid);
          unfold isSpeedRejection; rewrite Hid; cbn; rewrite ?Hsus', ?Hsus;
          lia.
Qed.

(** X23. The [suspicious] counter counts the rejections for speed: over any
    run of [handlePosition] on samples whose ids are not names of inherited
    properties, a rider's counter (absent counting as 0) grows by exactly
    the number of that rider's samples answered with the reason "speed". *)
Theorem suspicious_counts_speed_rejections (inputs : list (Clock * Payload))
    (D : Data) (id : string) (rider : Rider) :
  (forall clk payload i,
     In (clk, payload) inputs -> p_id payload = Some i ->
     ~ In i inheritedKeys) ->
  riders D !! id = Some rider ->
  exists rider',
    riders (fst (fst (run haversineMeters tz inputs D))) !! id = Some rider' /\
    default 0 (rider_suspicious rider') =
      default 0 (rider_suspicious rider)
      + speedRejections id inputs (snd (run haversineMeters tz inputs D)).
Proof.
  intros _. revert D rider.
  induction inputs as [|[clk payload] rest IH]; intros D rider Hr.
  - exists rider. split; [exact Hr | cbn; lia].
  - cbn [run].
    destruct (handle_step_suspicious clk payload D id rider Hr)
      as (r1 & Hr1 & Hs1).
    destruct (handle clk payload D) as [[D1 out1] [a | e]];
      cbn [fst snd] in Hr1, Hs1.
    + destruct (IH D1 r1 Hr1) as (r2 & Hr2 & Hs2).
      destruct (run haversineMeters tz rest D1) as [[D2 out2] acks2].
      cbn [fst snd speedRejections] in *. exists r2.
      split; [exact Hr2 | lia].
    + cbn [fst snd speedRejections]. exists r1. split; [exact Hr1 |].
      destruct rest as [|[clk' payload'] rest']; cbn [speedRejections]; lia.
Qed.

End Ledger.

Lemma badges_are_announced_witness :
  exists rider',
    riders
      (fst (fst (run gridMeters 0
                   [(wallClock 1000, fix1); (wallClock 3601000, fix2);
                    (wallClock 7201000, fix4)] D0))) !! "r1"%string
      = Some rider' /\
    rider_badges rider' =
      rider_badges (newRider "r1" "Ana")
      ++ announcedBadges "r1"
           (snd (fst (run gridMeters 0
                        [(wallClock 1000, fix1); (wallClock 3601000, fix2);
                         (wallClock 7201000, fix4)] D0))).
Proof.
  assert (E : snd (run gridMeters 0
                     [(wallClock 1000, fix1); (wallClock 3601000, fix2);
                      (wallClock 7201000, fix4)] D0) =
              [Return (accepted "r1"); Return (accepted "r1");
               Return (accepted "r1")])
    by (vm_compute; reflexivity).
  apply (badges_are_announced gridMeters 0
           [(wallClock 1000, fix1); (wallClock 3601000, fix2);
            (wallClock 7201000, fix4)] D0 "r1" (newRider "r1" "Ana")
           D0_keyedById).
  - intros e H. rewrite E in H.
    destruct H as [H | [H | [H | []]]]; discriminate H.
  - vm_compute. reflexivity.
Defined.

Lemma suspicious_counts_speed_rejections_witness :
  exists rider',
    riders
      (fst (fst (run gridMeters 0
                   [(wallClock 1000, fix1); (wallClock 3601000, fix2);
                    (wallClock 3611000, fix3)] D0))) !! "r1"%string
      = Some rider' /\
    default 0 (rider_suspicious rider') =
      default 0 (rider_suspicious (newRider "r1" "Ana"))
      + speedRejections "r1"
          [(wallClock 1000, fix1); (wallClock 3601000, fix2);
           (wallClock 3611000, fix3)]
          (snd (run gridMeters 0
                  [(wallClock 1000, fix1); (wallClock 3601000, fix2);
                   (wallClock 3611000, fix3)] D0)).
Proof.
  apply (suspicious_counts_speed_rejections gridMeters 0
           [(wallClock 1000, fix1); (wallClock 3601000, fix2);
            (wallClock 3611000, fix3)] D0 "r1" (newRider "r1" "Ana")).
  - intros clk payload i [H | [H | [H | []]]] Hi; injection H as <- <-;
      injection Hi as <-; cbn; intuition discriminate.
  - vm_compute. reflexivity.
Defined.

(** ** A day that is entered twice *)

(** C7, counterexample.  The stored progress remembers only the key of the
    last window seen.  A sample stamped on 1 January that arrives after a
    move of 2 January is accepted as a refresh and moves the stored
    timestamp back; the next move stamped on 1 January meets the key of
    2 January, starts the day afresh and completes the daily challenge a
    second time: two [challenge_completed] events for the window
    "1970-01-01", and the bonus paid twice. *)
Lemma bonus_paid_twice_for_one_day :
  windowKey 0 "daily" (Some 3601000) = Return (Some "1970-01-01"%string) /\
  windowKey 0 "daily" (Some 90001000) = Return (Some "1970-01-02"%string) /\
  windowKey 0 "daily" (Some 7202000) = Return (Some "1970-01-01"%string) /\
  snd (run gridMeters 0 backToFirstDay D0) =
    [Return (accepted "r1"); Return (accepted "r1"); Return (accepted "r1");
     Return (accepted "r1"); Return (accepted "r1")] /\
  eventsFor "daily_1km"
    (challengeEventsOf
       (snd (fst (run gridMeters 0 (firstn 2 backToFirstDay) D0)))) =
    [completionEvent "daily_1km" "r1" daily_1km] /\
  eventsFor "daily_1km"
    (challengeEventsOf (snd (fst (run gridMeters 0 backToFirstDay D0)))) =
    [completionEvent "daily_1km" "r1" daily_1km;
     completionEvent "daily_1km" "r1" daily_1km] /\
  rider_score
    (riderOf (fst (fst (run gridMeters 0 (firstn 2 backToFirstDay) D0))))
    = 15 /\
  rider_score (riderOf (fst (fst (run gridMeters 0 backToFirstDay D0)))) = 30.
Proof. vm_compute. repeat split; reflexivity. Qed.

(** ** The two engines agree on finite numbers *)

Section Agreement.

Variable haversineMeters : Position -> Position -> Q.
Variable tz : Z.

(** A distance function that always returns a number. *)
Local Abbreviation numeric := (fun a b => Some (haversineMeters a b)).

Lemma lift_awardPointsPerKm r prev new :
  NonFinite.awardPointsPerKm (liftRider r) (Some prev) (Some new) =
  (liftRider (fst (awardPointsPerKm r prev new)),
   {| NonFinite.kmsGained := Some (kmsGained (snd (awardPointsPerKm r prev new)));
      NonFinite.pointsGained :=
        Some (pointsGained (snd (awardPointsPerKm r prev new))) |}).
Proof.
  unfold NonFinite.awardPointsPerKm, awardPointsPerKm.
  cbn [NonFinite.floor NonFinite.div NonFinite.orZero fst snd kmsGained
       pointsGained].
  destruct (_ =? 0); reflexivity.
Qed.

Lemma lift_badgeSteps prev new ms :
  forall r newly,
    fold_left (NonFinite.badgeStep (Some prev) (Some new)) ms
              (liftRider r, newly) =
    (liftRider (fst (fold_left (badgeStep prev new) ms (r, newly))),
     snd (fold_left (badgeStep prev new) ms (r, newly))).
Proof.
  induction ms as [|m ms IH]; intros r newly; [reflexivity |].
  cbn [fold_left].
  assert (E : NonFinite.badgeStep (Some prev) (Some new)
                (liftRider r, newly) m =
              (liftRider (fst (badgeStep prev new (r, newly) m)),
               snd (badgeStep prev new (r, newly) m))).
  { unfold NonFinite.badgeStep, badgeStep.
    cbn [NonFinite.orZero NonFinite.geb NonFinite.rider_badges liftRider].
    destruct (_ && _); [| reflexivity].
    destruct (includes _ _); reflexivity. }
  rewrite E. destruct (badgeStep prev new (r, newly) m) as [r1 newly1].
  apply IH.
Qed.

Lemma lift_checkAndAwardBadges r prev new :
  NonFinite.checkAndAwardBadges (liftRider r) (Some prev) (Some new) =
  (liftRider (fst (checkAndAwardBadges r prev new)),
   snd (checkAndAwardBadges r prev new)).
Proof. apply lift_badgeSteps. Qed.

Lemma lift_challengeStep clk d now cid chal r :
  NonFinite.challengeStep tz clk (Some d) now cid chal (liftRider r) =
  (liftRider (fst (challengeStep tz clk d now cid chal r)),
   snd (challengeStep tz clk d now cid chal r)).
Proof.
  unfold NonFinite.challengeStep, challengeStep. cbv zeta.
  cbn [NonFinite.rider_challenges liftRider].
  rewrite lookup_fmap.
  assert (E : default NonFinite.freshProgress
                (liftProgress <$> rider_challenges r !! cid) =
              liftProgress (default freshProgress (rider_challenges r !! cid)))
    by (destruct (rider_challenges r !! cid); reflexivity).
  rewrite E. set (p0 := default freshProgress (rider_challenges r !! cid)).
  destruct (windowKey tz (period chal) now) as [key | e].
  - assert (Er : NonFinite.rollover key (liftProgress p0) =
                 liftProgress (rollover key p0)).
    { unfold NonFinite.rollover, rollover. destruct key as [k |];
        [| reflexivity].
      cbn [NonFinite.lastReset liftProgress].
      destruct (bool_decide _); reflexivity. }
    rewrite Er. cbn [NonFinite.completed liftProgress].
    destruct (completed (rollover key p0)).
    + cbn [fst snd]. unfold liftRider, NonFinite.set_challenges.
      cbn. rewrite !fmap_insert. reflexivity.
    + cbn [NonFinite.addProgress NonFinite.progressMeters liftProgress
           NonFinite.add NonFinite.geb addProgress progressMeters].
      destruct (JSNum.geb _ _); cbn [fst snd];
        unfold liftRider, NonFinite.set_challenges, NonFinite.set_score;
        cbn; rewrite !fmap_insert; reflexivity.
  - cbn [fst snd]. unfold liftRider, NonFinite.set_challenges.
    cbn. rewrite !fmap_insert. reflexivity.
Qed.

Lemma lift_challengeLoop clk d now entries :
  forall r evs,
    NonFinite.challengeLoop tz clk (Some d) now entries (liftRider r) evs =
    (liftRider (fst (challengeLoop tz clk d now entries r evs)),
     snd (challengeLoop tz clk d now entries r evs)).
Proof.
  induction entries as [|[cid chal] rest IH]; intros r evs;
    cbn [NonFinite.challengeLoop challengeLoop]; [reflexivity |].
  rewrite lift_challengeStep.
  destruct (challengeStep tz clk d now cid chal r) as [r1 [evs1 | e]];
    cbn [fst snd]; [apply IH | reflexivity].
Qed.

Lemma lift_movedSince last ts :
  NonFinite.movedSince (liftLast <$> last) ts = liftLast <$> movedSince last ts.
Proof.
  unfold NonFinite.movedSince, movedSince. destruct last as [l |];
    [| reflexivity].
  cbn [fmap option_fmap option_map NonFinite.last_ts liftLast].
  destruct (_ && _); reflexivity.
Qed.

Lemma lift_speedKmh meters ts lastTs :
  NonFinite.speedKmh (Some meters) ts lastTs = Some (speedKmh meters ts lastTs).
Proof.
  unfold NonFinite.speedKmh, speedKmh. cbv zeta.
  destruct (JSNum.gtb _ 0); reflexivity.
Qed.

Lemma lift_pushHistory e h :
  NonFinite.pushHistory (liftEntry e) (List.map liftEntry h) =
  List.map liftEntry (pushHistory e h).
Proof.
  unfold NonFinite.pushHistory, pushHistory. cbv zeta.
  change [liftEntry e] with (List.map liftEntry [e]).
  rewrite <- List.map_app, List.length_map.
  destruct (200 <? _); [| reflexivity].
  destruct (h ++ [e]); reflexivity.
Qed.

Lemma lift_insert id r D :
  NonFinite.set_riders (<[id := liftRider r]> (NonFinite.riders (liftData D)))
                       (liftData D) =
  liftData (set_riders (<[id := r]> (riders D)) D).
Proof.
  unfold NonFinite.set_riders, liftData, set_riders. cbn.
  now rewrite fmap_insert.
Qed.

Lemma lift_commitFix clk D id r plat plon ts out :
  NonFinite.commitFix clk (liftData D) id (liftRider r)
    (NonFinite.finite plat) (NonFinite.finite plon) ts
    (List.map liftMessage out) =
  liftResult (commitFix clk D id r plat plon ts out).
Proof.
  unfold NonFinite.commitFix, commitFix, liftResult. cbv zeta. cbn [fst snd].
  rewrite <- lift_insert. reflexivity.
Qed.

(** On a payload, a store and a distance function that are finite, the
    engine on numbers that are not finite computes what the engine on finite
    numbers computes. *)
Lemma lift_handlePosition clk payload D :
  NonFinite.handlePosition numeric tz clk (liftPayload payload) (liftData D) =
  liftResult (handlePosition haversineMeters tz clk payload D).
Proof.
  unfold NonFinite.handlePosition, handlePosition.
  cbn [NonFinite.p_lat NonFinite.p_lon NonFinite.p_id liftPayload].
  destruct (p_lat payload) as [plat |]; [| reflexivity].
  destruct (p_lon payload) as [plon |]; [| reflexivity].
  cbn [fmap option_fmap option_map].
  destruct (p_id payload) as [id |]; [| reflexivity].
  destruct (String.eqb id ""); [reflexivity |]. cbv zeta.
  change (NonFinite.effectiveTs clk (liftPayload payload))
    with (effectiveTs clk payload).
  set (ts := effectiveTs clk payload).
  cbn [NonFinite.riders liftData]. rewrite lookup_fmap.
  destruct (riders D !! id) as [r |] eqn:Hr; [| reflexivity].
  cbn [fmap option_fmap option_map NonFinite.rider_last liftRider].
  rewrite lift_movedSince.
  destruct (movedSince (rider_last r) ts) as [l |];
    cbn [fmap option_fmap option_map];
    [| apply (lift_commitFix clk D id r plat plon ts [])].
  cbn [NonFinite.haversineMeters NonFinite.lat NonFinite.lon
       NonFinite.last_lat NonFinite.last_lon NonFinite.last_ts liftLast].
  unfold NonFinite.finitePosition.
  set (meters := haversineMeters _ _).
  rewrite lift_speedKmh. cbn [NonFinite.gtb].
  destruct (JSNum.gtb (speedKmh meters ts (last_ts l)) MAX_SPEED_KMH).
  - unfold liftResult. cbn [fst snd List.map].
    rewrite <- lift_insert. reflexivity.
  - set (r1 := set_history _ (set_distance _ r)).
    assert (E1 : NonFinite.set_history
                   (NonFinite.pushHistory
                      {| NonFinite.h_lat := NonFinite.finite plat;
                         NonFinite.h_lon := NonFinite.finite plon;
                         NonFinite.h_ts := ts;
                         NonFinite.h_meters := NonFinite.round (Some meters) |}
                      (NonFinite.rider_history
                         (NonFinite.set_distance
                            (NonFinite.add
                               (Some (NonFinite.orZero
                                        (NonFinite.rider_distance (liftRider r))))
                               (Some meters))
                            (liftRider r))))
                   (NonFinite.set_distance
                      (NonFinite.add
                         (Some (NonFinite.orZero
                                  (NonFinite.rider_distance (liftRider r))))
                         (Some meters))
                      (liftRider r)) = liftRider r1).
    { unfold r1, liftRider, NonFinite.set_history, NonFinite.set_distance.
      cbn. f_equal.
      apply (lift_pushHistory
               {| h_lat := plat; h_lon := plon; h_ts := ts;
                  h_meters := JSNum.round meters |}). }
    rewrite E1. cbn [NonFinite.rider_distance liftRider NonFinite.sub].
    rewrite lift_awardPointsPerKm.
    destruct (awardPointsPerKm r1 (rider_distance r1 - meters)
                (rider_distance r1)) as [r2 award]. cbn [fst snd].
    cbn [NonFinite.rider_distance liftRider].
    rewrite lift_checkAndAwardBadges.
    destruct (checkAndAwardBadges r2 (rider_distance r1 - meters)
                (rider_distance r2)) as [r3 newly]. cbn [fst snd].
    unfold NonFinite.updateChallengesForRider, updateChallengesForRider.
    rewrite lift_challengeLoop. cbn [NonFinite.challenges liftData].
    destruct (challengeLoop tz clk meters (challengeNow clk ts)
                (challenges D) r3 []) as [r4 [chev | e]]; cbn [fst snd].
    + cbn [NonFinite.kmsGained NonFinite.pointsGained NonFinite.rider_id
           NonFinite.rider_name NonFinite.rider_distance NonFinite.rider_score
           NonFinite.round liftRider].
      etransitivity; [| apply lift_commitFix]. f_equal.
      cbn [List.map liftMessage]. f_equal.
      destruct (_ || _); reflexivity.
    + unfold liftResult. cbn [fst snd List.map].
      rewrite <- lift_insert. reflexivity.
Qed.

(** The same for a run. *)
Lemma lift_run inputs :
  forall D,
    NonFinite.run numeric tz
      (List.map (fun input => (fst input, liftPayload (snd input))) inputs)
      (liftData D) =
    (liftData (fst (fst (run haversineMeters tz inputs D))),
     List.map liftMessage (snd (fst (run haversineMeters tz inputs D))),
     snd (run haversineMeters tz inputs D)).
Proof.
  induction inputs as [|[clk payload] rest IH]; intros D; [reflexivity |].
  cbn [List.map fst snd NonFinite.run run].
  rewrite lift_handlePosition. unfold liftResult.
  destruct (handlePosition haversineMeters tz clk payload D)
    as [[D1 out1] [a | e]]; cbn [fst snd]; [| reflexivity].
  rewrite IH.
  destruct (run haversineMeters tz rest D1) as [[D2 out2] acks2].
  cbn [fst snd]. now rewrite List.map_app.
Qed.

End Agreement.

(** ** Distance and score with numbers that are not finite *)

Section NonFiniteFacts.

Import NonFinite.

Variable greatCircle : FinitePosition -> FinitePosition -> num.
Variable tz : Z.

Lemma scoreOnly_refl r : scoreOnly r r.
Proof. unfold scoreOnly. repeat split; lia. Qed.

Lemma scoreOnly_trans r1 r2 r3 :
  scoreOnly r1 r2 -> scoreOnly r2 r3 -> scoreOnly r1 r3.
Proof.
  unfold scoreOnly. intros (? & ? & ?) (? & ? & ?).
  repeat split; try congruence; lia.
Qed.

Lemma awardPointsPerKm_scoreOnly r prev new :
  scoreOnly r (fst (awardPointsPerKm r prev new)).
Proof.
  unfold awardPointsPerKm, POINTS_PER_KM. cbn [fst].
  destruct (floor (div new 1000)) as [n |]; [| apply scoreOnly_refl].
  destruct (Z.eqb_spec (Z.max 0 (n - JSNum.floor (orZero prev / 1000)) * 10) 0);
    [apply scoreOnly_refl |].
  unfold scoreOnly. cbn. repeat split; lia.
Qed.

Lemma checkAndAwardBadges_scoreOnly r prev new :
  scoreOnly r (fst (checkAndAwardBadges r prev new)).
Proof.
  unfold checkAndAwardBadges.
  assert (H : forall ms st, scoreOnly r (fst st) ->
                scoreOnly r (fst (fold_left (badgeStep prev new) ms st))).
  { induction ms as [|m ms IH]; intros [r1 newly] H1; [exact H1 |].
    cbn [fold_left]. apply IH. unfold badgeStep.
    destruct (_ && _); [| exact H1].
    destruct (includes _ _); [exact H1 |].
    cbn [fst] in *. destruct H1 as (? & ? & ?). repeat split; assumption. }
  apply H, scoreOnly_refl.
Qed.

Lemma challengeStep_scoreOnly clk d now cid chal r :
  (0 <= targetMeters chal)%Q ->
  scoreOnly r (fst (challengeStep tz clk d now cid chal r)).
Proof.
  intros Hpos. unfold challengeStep. cbv zeta.
  destruct (windowKey tz (period chal) now) as [key | e];
    [| unfold scoreOnly; cbn; repeat split; lia].
  destruct (completed (rollover key _));
    [unfold scoreOnly; cbn; repeat split; lia |].
  destruct (geb _ _); unfold scoreOnly; cbn; repeat split; try lia.
  pose proof (bonusOf_nonneg chal Hpos). lia.
Qed.

Lemma challengeLoop_scoreOnly clk d now entries :
  (forall cid chal, In (cid, chal) entries -> (0 <= targetMeters chal)%Q) ->
  forall r evs,
    scoreOnly r (fst (challengeLoop tz clk d now entries r evs)).
Proof.
  induction entries as [|[cid chal] rest IH]; intros Hpos r evs;
    cbn [challengeLoop]; [apply scoreOnly_refl |].
  pose proof (challengeStep_scoreOnly clk d now cid chal r
                (Hpos cid chal (in_eq _ _))) as Hs.
  destruct (challengeStep tz clk d now cid chal r) as [r1 [evs1 | e]];
    cbn [fst] in Hs; [| exact Hs].
  eapply scoreOnly_trans; [exact Hs |].
  apply IH. intros c ch Hin. eapply Hpos, in_cons, Hin.
Qed.

(** One call of the handler, for the rider it is about: the score does not
    go down; the distance stays, or becomes [(distance||0) + meters] for the
    metres from the stored fix to the sample; the last fix stays or becomes
    the sample. *)
Lemma handle_rider clk payload D :
  (forall cid chal, In (cid, chal) (challenges D) ->
                    (0 <= targetMeters chal)%Q) ->
  fst (fst (handlePosition greatCircle tz clk payload D)) = D \/
  exists id plat plon r r',
    p_lat payload = Some plat /\ p_lon payload = Some plon /\
    riders D !! id = Some r /\
    fst (fst (handlePosition greatCircle tz clk payload D)) =
      set_riders (<[id := r']> (riders D)) D /\
    rider_score r <= rider_score r' /\
    (rider_last r' = rider_last r \/
     rider_last r' =
       Some {| last_lat := plat; last_lon := plon;
               last_ts := effectiveTs clk payload |}) /\
    (rider_distance r' = rider_distance r \/
     exists l,
       rider_last r = Some l /\
       rider_distance r' =
         add (Some (orZero (rider_distance r)))
             (haversineMeters greatCircle
                {| lat := last_lat l; lon := last_lon l |}
                {| lat := plat; lon := plon |})).
Proof.
  intros Htargets. unfold handlePosition.
  destruct (p_lat payload) as [plat |]; [| now left].
  destruct (p_lon payload) as [plon |]; [| now left].
  destruct (p_id payload) as [id |]; [| now left].
  destruct (String.eqb id ""); [now left |]. cbv zeta.
  destruct (riders D !! id) as [r |] eqn:Hr; [| now left].
  right. exists id, plat, plon, r.
  destruct (movedSince (rider_last r) (effectiveTs clk payload)) as [l |]
    eqn:Hm.
  - assert (Hl : rider_last r = Some l).
    { unfold movedSince in Hm. destruct (rider_last r) as [l0 |];
        [| discriminate].
      destruct (_ && _); [congruence | discriminate]. }
    set (meters := haversineMeters greatCircle _ _).
    destruct (gtb (speedKmh meters _ _) MAX_SPEED_KMH).
    + eexists. cbn [fst]. do 2 (split; [reflexivity |]); (split; [exact Hr |]).
      split; [reflexivity |]. cbn. split; [lia |]. split; left; reflexivity.
    + set (r1 := set_history _ _).
      assert (H1 : rider_distance r1 =
                   add (Some (orZero (rider_distance r))) meters /\
                   rider_last r1 = rider_last r /\
                   rider_score r1 = rider_score r) by (cbn; auto).
      destruct H1 as (Hd1 & Hl1 & Hs1).
      pose proof (awardPointsPerKm_scoreOnly r1
                    (sub (rider_distance r1) meters) (rider_distance r1))
        as H2.
      destruct (awardPointsPerKm r1 (sub (rider_distance r1) meters)
                  (rider_distance r1)) as [r2 award]. cbn [fst] in H2.
      pose proof (checkAndAwardBadges_scoreOnly r2
                    (sub (rider_distance r1) meters) (rider_distance r2))
        as H3.
      destruct (checkAndAwardBadges r2 (sub (rider_distance r1) meters)
                  (rider_distance r2)) as [r3 newly]. cbn [fst] in H3.
      pose proof (challengeLoop_scoreOnly clk meters
                    (challengeNow clk (effectiveTs clk payload))
                    (challenges D) Htargets r3 []) as H4.
      fold (updateChallengesForRider tz clk (challenges D) r3 meters
              (effectiveTs clk payload)) in H4.
      destruct (updateChallengesForRider tz clk (challenges D) r3 meters
                  (effectiveTs clk payload)) as [r4 [chev | e]];
        cbn [fst] in H4;
        destruct H2 as (Hd2 & Hl2 & Hs2), H3 as (Hd3 & Hl3 & Hs3),
                 H4 as (Hd4 & Hl4 & Hs4);
        eexists; cbn [fst commitFix]; do 2 (split; [reflexivity |]); (split; [exact Hr |]);
        (split; [reflexivity |]);
        cbn [rider_distance rider_last rider_score set_last set_updatedAt].
      * split; [lia |]. split; [right; reflexivity |].
        right. exists l. split; [exact Hl |].
        rewrite Hd4, Hd3, Hd2, Hd1. reflexivity.
      * split; [lia |]. split; [left; congruence |].
        right. exists l. split; [exact Hl |].
        rewrite Hd4, Hd3, Hd2, Hd1. reflexivity.
  - eexists. cbn [fst commitFix]. do 2 (split; [reflexivity |]); (split; [exact Hr |]).
    split; [reflexivity |]. cbn. split; [lia |].
    split; [right; reflexivity | left; reflexivity].
Qed.

Lemma handle_challenges clk payload D :
  challenges (fst (fst (handlePosition greatCircle tz clk payload D)))
    = challenges D.
Proof.
  unfold handlePosition.
  destruct (p_lat payload); [| reflexivity].
  destruct (p_lon payload); [| reflexivity].
  destruct (p_id payload); [| reflexivity].
  destruct (String.eqb _ _); [reflexivity |]. cbv zeta.
  destruct (riders D !! _); [| reflexivity].
  destruct (movedSince _ _); [| reflexivity].
  destruct (gtb _ _); [reflexivity |].
  destruct (awardPointsPerKm _ _ _) as [r2 award].
  destruct (checkAndAwardBadges _ _ _) as [r3 newly].
  destruct (updateChallengesForRider _ _ _ _ _ _) as [r4 [chev | e]];
    reflexivity.
Qed.

(** The step of the two invariants: the score of every rider, and the
    distance of every rider when the call computes with numbers. *)
Lemma handle_step_numeric clk payload D :
  (forall cid chal, In (cid, chal) (challenges D) ->
                    (0 <= targetMeters chal)%Q) ->
  forall id rider,
    riders D !! id = Some rider ->
    exists rider',
      riders (fst (fst (handlePosition greatCircle tz clk payload D))) !! id
        = Some rider' /\
      rider_score rider <= rider_score rider' /\
      ((forall a b, exists q, greatCircle a b = Some q /\ (0 <= q)%Q) ->
       finitePayload payload -> finiteLast rider ->
       finiteLast rider' /\
       forall d, rider_distance rider = Some d ->
                 exists d', rider_distance rider' = Some d' /\ (d <= d')%Q).
Proof.
  intros Htargets id rider Hr.
  assert (Hsame : exists rider',
            riders D !! id = Some rider' /\
            rider_score rider <= rider_score rider' /\
            ((forall a b, exists q, greatCircle a b = Some q /\ (0 <= q)%Q) ->
             finitePayload payload -> finiteLast rider ->
             finiteLast rider' /\
             forall d, rider_distance rider = Some d ->
                       exists d', rider_distance rider' = Some d' /\
                                  (d <= d')%Q)).
  { exists rider. split; [exact Hr |]. split; [lia |].
    intros _ _ Hf. split; [exact Hf |]. intros d Hd. exists d.
    split; [exact Hd | apply Qle_refl]. }
  destruct (handle_rider clk payload D Htargets)
    as [-> | (id0 & plat & plon & r & r' & Hlat & Hlon & Hr0 & -> & Hs
              & Hlast & Hdist)]; [exact Hsame |].
  cbn [riders set_riders].
  destruct (decide (id0 = id)) as [-> | Hne];
    [| rewrite lookup_insert_ne by exact Hne; exact Hsame].
  rewrite lookup_insert_eq. assert (r = rider) by congruence. subst r.
  exists r'. split; [reflexivity |]. split; [exact Hs |].
  intros Hgc Hfp Hfl.
  unfold finitePayload in Hfp. rewrite Hlat, Hlon in Hfp.
  destruct Hfp as [Hfa Hfo]. split.
  - unfold finiteLast in *. destruct Hlast as [-> | ->]; [exact Hfl |].
    cbn. auto.
  - intros d Hd. destruct Hdist as [-> | (l & Hl & ->)].
    + exists d. split; [exact Hd | apply Qle_refl].
    + unfold finiteLast in Hfl. rewrite Hl in Hfl. destruct Hfl as [Hla Hlo].
      rewrite Hd. unfold haversineMeters. cbn [lat lon orZero].
      destruct (last_lat l) as [la |]; [| destruct Hla].
      destruct (last_lon l) as [lo |]; [| destruct Hlo].
      destruct plat as [pa |]; [| destruct Hfa].
      destruct plon as [po |]; [| destruct Hfo].
      destruct (Hgc (finitePosition la lo) (finitePosition pa po))
        as (q & -> & Hq).
      cbn [add]. eexists. split; [reflexivity |].
      rewrite <- (Qplus_0_r d) at 1. apply Qplus_le_r, Hq.
Qed.

Lemma handle_finiteStore clk payload D :
  (forall cid chal, In (cid, chal) (challenges D) ->
                    (0 <= targetMeters chal)%Q) ->
  (forall a b, exists q, greatCircle a b = Some q /\ (0 <= q)%Q) ->
  finitePayload payload -> finiteStore D ->
  finiteStore (fst (fst (handlePosition greatCircle tz clk payload D))).
Proof.
  intros Htargets Hgc Hfp HD.
  destruct (handle_rider clk payload D Htargets)
    as [-> | (id0 & plat & plon & r & r' & Hlat & Hlon & Hr0 & E & Hs
              & Hlast & Hdist)]; [exact HD |].
  rewrite E. intros id x. cbn [riders set_riders].
  destruct (decide (id0 = id)) as [-> | Hne].
  - rewrite lookup_insert_eq. intros [= <-].
    unfold finitePayload in Hfp. rewrite Hlat, Hlon in Hfp.
    unfold finiteLast. destruct Hlast as [-> | ->]; [apply (HD id r Hr0) |].
    exact Hfp.
  - rewrite lookup_insert_ne by exact Hne. apply HD.
Qed.


End NonFiniteFacts.

(** A sufficient condition for the distance to stay a number: when every
    sample has finite coordinates, every stored fix has, and the distance
    computed between finite coordinates is a non-negative number, a
    cumulative distance that is a number stays a number and is at least as
    large as before. *)
Lemma finite_samples_keep_distance_numeric
    (greatCircle : NonFinite.FinitePosition -> NonFinite.FinitePosition ->
                   NonFinite.num)
    (tz : Z) (inputs : list (Clock * NonFinite.Payload))
    (D : NonFinite.Data) :
  (forall cid chal, In (cid, chal) (NonFinite.challenges D) ->
                    (0 <= targetMeters chal)%Q) ->
  forall id rider,
    NonFinite.riders D !! id = Some rider ->
    exists rider',
      NonFinite.riders
        (fst (fst (NonFinite.run greatCircle tz inputs D))) !! id
        = Some rider' /\
      NonFinite.rider_score rider <= NonFinite.rider_score rider' /\
      ((forall a b, exists q, greatCircle a b = Some q /\ (0 <= q)%Q) ->
       Forall (fun input => NonFinite.finitePayload (snd input)) inputs ->
       NonFinite.finiteStore D ->
       forall d,
         NonFinite.rider_distance rider = Some d ->
         exists d', NonFinite.rider_distance rider' = Some d' /\
                    (d <= d')%Q).
Proof.
  revert D.
  induction inputs as [|[clk payload] rest IH]; intros D Htargets id rider Hr.
  - exists rider. split; [exact Hr |]. split; [lia |].
    intros _ _ _ d Hd. exists d. split; [exact Hd | apply Qle_refl].
  - cbn [NonFinite.run].
    destruct (handle_step_numeric greatCircle tz clk payload D Htargets
                id rider Hr) as (r1 & Hr1 & Hs1 & Hnum1).
    pose proof (handle_challenges greatCircle tz clk payload D) as Hch.
    pose proof (handle_finiteStore greatCircle tz clk payload D Htargets)
      as Hfs.
    destruct (NonFinite.handlePosition greatCircle tz clk payload D)
      as [[D1 out1] [a | e]]; cbn [fst] in *.
    + assert (Ht1 : forall cid chal,
                In (cid, chal) (NonFinite.challenges D1) ->
                (0 <= targetMeters chal)%Q)
        by (rewrite Hch; exact Htargets).
      destruct (IH D1 Ht1 id r1 Hr1) as (r2 & Hr2 & Hs2 & Hnum2).
      destruct (NonFinite.run greatCircle tz rest D1) as [[D2 out2] acks2].
      cbn [fst] in *. exists r2. split; [exact Hr2 |]. split; [lia |].
      intros Hgc Hfin HD d Hd.
      apply List.Forall_cons_iff in Hfin as [Hfp Hrest]. cbn [snd] in Hfp.
      destruct (Hnum1 Hgc Hfp (HD id rider Hr)) as [_ Hd1].
      destruct (Hd1 d Hd) as (d1 & Hd1' & Hle1).
      destruct (Hnum2 Hgc Hrest (Hfs Hgc Hfp HD) d1 Hd1')
        as (d2 & Hd2 & Hle2).
      exists d2. split; [exact Hd2 | eapply Qle_trans; eassumption].
    + exists r1. split; [exact Hr1 |]. split; [exact Hs1 |].
      intros Hgc Hfin HD d Hd.
      apply List.Forall_cons_iff in Hfin as [Hfp _]. cbn [snd] in Hfp.
      destruct (Hnum1 Hgc Hfp (HD id rider Hr)) as [_ Hd1].
      apply (Hd1 d Hd).
Qed.



